(** * Statistical computation library: a shallow embedding

    The embedded code is the numeric core of the statistics teaching tool:
    the statistics utility module (descriptive statistics, confidence
    intervals, hypothesis tests, sample sizes, MLE/MoM, plot data), its
    backup copy of the confidence interval, the power-analysis module, the
    goodness-of-fit module and the calculation handler of the one-sample
    mean panel.

    JavaScript numbers are modelled as real numbers extended with the three
    IEEE special values [+Infinity], [-Infinity] and [NaN].  Finite results
    are exact (no rounding, no overflow, no underflow) and the sign of zero
    is not tracked (a zero divisor behaves as [+0]); the special values
    propagate as IEEE 754 prescribes.

    The code computes in binary64, where every operation rounds its exact
    result.  A finite number of the model therefore stands for the double
    the code computes at the same place, and the main properties are
    stated so that they hold of both: an equation names the expression
    the code itself evaluates; an inequality between results relies on
    order only, which rounding preserves, or carries a relative slack of
    [1e-9]; a hypothesis bounds the magnitudes where the rounded
    computation could overflow or underflow.  Lemmas that state more than
    that (an exact value of the approximation of [erf] at 0, exact totals
    of binned observations, the exact number of steps of a loop) are facts
    of the exact model and are marked as such. *)

From Stdlib Require Import String Reals Lra Lia ZArith Bool Psatz List.
From Stdlib Require Import Sorted Permutation.
Import ListNotations.

Open Scope R_scope.

(** ** JavaScript numbers *)

Module JS.

Inductive num : Type :=
| Fin (r : R)
| PInf
| NInf
| NaN.

Definition Rltb (x y : R) : bool := if Rlt_dec x y then true else false.
Definition Rleb (x y : R) : bool := if Rle_dec x y then true else false.
Definition Reqb (x y : R) : bool := if Req_dec_T x y then true else false.

Definition num_eq_dec (a b : num) : {a = b} + {a <> b}.
Proof.
  destruct a as [x| | |], b as [y| | |];
    try (left; reflexivity); try (right; discriminate).
  destruct (Req_dec_T x y) as [e|n].
  - left; now rewrite e.
  - right; intros H; injection H; exact n.
Defined.

Definition is_finite (a : num) : bool :=
  match a with Fin _ => true | _ => false end.

(** [a + b].  Here and in [sub], [mul], [div], [Math_sqrt], [Math_log],
    [Math_exp] and [Math_pow] a finite result is the exact one: the
    rounding of the code's binary64 operation is left out, and with it
    overflow, underflow and the absorption of a small term. *)
Definition add (a b : num) : num :=
  match a, b with
  | NaN, _ | _, NaN => NaN
  | Fin x, Fin y => Fin (x + y)
  | PInf, NInf | NInf, PInf => NaN
  | PInf, _ | _, PInf => PInf
  | NInf, _ | _, NInf => NInf
  end.

(** [-a] *)
Definition neg (a : num) : num :=
  match a with
  | Fin x => Fin (- x)
  | PInf => NInf
  | NInf => PInf
  | NaN => NaN
  end.

(** [a - b] *)
Definition sub (a b : num) : num := add a (neg b).

(** The infinity with the sign of [x] times the sign of [pos]; [0 * Infinity]
    is [NaN]. *)
Definition signed_inf (pos : bool) (x : R) : num :=
  if Reqb x 0 then NaN
  else if Rltb 0 x then (if pos then PInf else NInf)
       else (if pos then NInf else PInf).

(** [a * b] *)
Definition mul (a b : num) : num :=
  match a, b with
  | NaN, _ | _, NaN => NaN
  | Fin x, Fin y => Fin (x * y)
  | Fin x, PInf | PInf, Fin x => signed_inf true x
  | Fin x, NInf | NInf, Fin x => signed_inf false x
  | PInf, PInf | NInf, NInf => PInf
  | PInf, NInf | NInf, PInf => NInf
  end.

(** [a / b] *)
Definition div (a b : num) : num :=
  match a, b with
  | NaN, _ | _, NaN => NaN
  | Fin x, Fin y =>
      if Reqb y 0 then signed_inf true x else Fin (x / y)
  | Fin _, PInf | Fin _, NInf => Fin 0
  | PInf, Fin y => if Rltb y 0 then NInf else PInf
  | NInf, Fin y => if Rltb y 0 then PInf else NInf
  | _, _ => NaN
  end.

(** Comparisons; every comparison with [NaN] is false. *)
Definition lt (a b : num) : bool :=
  match a, b with
  | NaN, _ | _, NaN => false
  | Fin x, Fin y => Rltb x y
  | NInf, NInf | PInf, _ | _, NInf => false
  | NInf, _ | _, PInf => true
  end.

Definition le (a b : num) : bool :=
  match a, b with
  | NaN, _ | _, NaN => false
  | Fin x, Fin y => Rleb x y
  | NInf, _ | _, PInf => true
  | PInf, _ | _, NInf => false
  end.

Definition gt (a b : num) : bool := lt b a.
Definition ge (a b : num) : bool := le b a.

(** [a === b] *)
Definition eq (a b : num) : bool :=
  match a, b with
  | Fin x, Fin y => Reqb x y
  | PInf, PInf | NInf, NInf => true
  | _, _ => false
  end.

(** Truthiness of a number: [0] and [NaN] are falsy. *)
Definition truthy (a : num) : bool :=
  match a with
  | Fin x => negb (Reqb x 0)
  | NaN => false
  | _ => true
  end.

(** An optional number ([undefined] is [None]) is falsy when absent. *)
Definition truthy_opt (a : option num) : bool :=
  match a with Some v => truthy v | None => false end.

(** [a || b] on optional numbers. *)
Definition or_else (a : option num) (b : num) : num :=
  match a with
  | Some v => if truthy v then v else b
  | None => b
  end.

Definition of_nat (n : nat) : num := Fin (INR n).
Definition of_Z (z : Z) : num := Fin (IZR z).

(** *** The [Math] object *)

Definition Math_abs (a : num) : num :=
  match a with
  | Fin x => Fin (Rabs x)
  | PInf | NInf => PInf
  | NaN => NaN
  end.

Definition Math_sqrt (a : num) : num :=
  match a with
  | Fin x => if Rltb x 0 then NaN else Fin (sqrt x)
  | PInf => PInf
  | NInf | NaN => NaN
  end.

Definition Math_log (a : num) : num :=
  match a with
  | Fin x => if Rltb x 0 then NaN else if Reqb x 0 then NInf else Fin (ln x)
  | PInf => PInf
  | NInf | NaN => NaN
  end.

Definition Math_exp (a : num) : num :=
  match a with
  | Fin x => Fin (exp x)
  | PInf => PInf
  | NInf => Fin 0
  | NaN => NaN
  end.

(** [Math.pow(a, k)] for a literal natural exponent [k]. *)
Definition Math_pow (a : num) (k : nat) : num :=
  match k with
  | O => Fin 1
  | S _ =>
      match a with
      | Fin x => Fin (x ^ k)
      | PInf => PInf
      | NInf => if Nat.even k then PInf else NInf
      | NaN => NaN
      end
  end.

(** [Math.max(a, b)] and [Math.min(a, b)]: [NaN] when an argument is. *)
Definition Math_max (a b : num) : num :=
  match a, b with
  | NaN, _ | _, NaN => NaN
  | _, _ => if lt a b then b else a
  end.

Definition Math_min (a b : num) : num :=
  match a, b with
  | NaN, _ | _, NaN => NaN
  | _, _ => if lt b a then b else a
  end.

Definition Rfloor (x : R) : R := IZR (Int_part x).
Definition Rceil (x : R) : R := - IZR (Int_part (- x)).

Definition Math_floor (a : num) : num :=
  match a with Fin x => Fin (Rfloor x) | _ => a end.

(** The ceiling of the exact number: the code takes the ceiling of the
    rounded one, which is one more when rounding lifts a whole quotient. *)
Definition Math_ceil (a : num) : num :=
  match a with Fin x => Fin (Rceil x) | _ => a end.

(** [Math.round(a)]: the nearest integer, a tie going up. *)
Definition Math_round (a : num) : num :=
  match a with Fin x => Fin (Rfloor (x + 0.5)) | _ => a end.

(** [Math.max(...data)] and [Math.min(...data)] over a spread array. *)
Definition Math_max_list (l : list num) : num := fold_left Math_max l NInf.
Definition Math_min_list (l : list num) : num := fold_left Math_min l PInf.

(** Reading [a[i]] as a number; a read out of range gives [undefined],
    which every arithmetic operator turns into [NaN]. *)
Definition get (l : list num) (i : nat) : num := nth i l NaN.

End JS.

Export JS.

Declare Scope js_scope.
Delimit Scope js_scope with js.
Infix "+" := add : js_scope.
Infix "-" := sub : js_scope.
Infix "*" := mul : js_scope.
Infix "/" := div : js_scope.
Notation "- x" := (neg x) : js_scope.

(** ** Thrown errors *)

Inductive error : Type :=
| Error (message : string).

Inductive result (A : Type) : Type :=
| Ok (a : A)
| Throw (e : error).

Arguments Ok {A} a.
Arguments Throw {A} e.

Definition bind {A B : Type} (m : result A) (k : A -> result B) : result B :=
  match m with
  | Ok a => k a
  | Throw e => Throw e
  end.

Notation "'let*' x ':=' m 'in' k" := (bind m (fun x => k))
  (at level 10, x name, m at level 100, k at level 200).
Notation "'let*' ' p ':=' m 'in' k" :=
  (bind m (fun x => match x with p => k end))
  (at level 10, p strict pattern, m at level 100, k at level 200).

(** ** Descriptive statistics (statistics utility module) *)

Module Statistics.

Local Open Scope js_scope.

Definition EmptyDataError : error := Error "Data array cannot be empty"%string.

(** [data.reduce((acc, val) => acc + val, 0)] *)
Definition sum (data : list num) : num :=
  fold_left (fun acc val => acc + val) data (Fin 0).

(** [data.reduce((acc, val) => acc + Math.pow(val - mean, k), 0)] *)
Definition sumPow (k : nat) (mean : num) (data : list num) : num :=
  fold_left (fun acc val => acc + Math_pow (val - mean) k) data (Fin 0).

Definition len (data : list num) : num := of_nat (length data).

Definition isEmpty (data : list num) : bool :=
  match data with [] => true | _ => false end.

Definition calculateMean (data : list num) : result num :=
  if isEmpty data then Throw EmptyDataError
  else Ok (sum data / len data).

(** [[...data].sort((a, b) => a - b)], as an insertion sort driven by the
    sign of the comparator. *)
Fixpoint insert_sorted (x : num) (l : list num) : list num :=
  match l with
  | [] => [x]
  | y :: l' => if le x y then x :: l else y :: insert_sorted x l'
  end.

Definition sort (data : list num) : list num :=
  fold_right insert_sorted [] data.

Definition calculateMedian (data : list num) : result num :=
  if isEmpty data then Throw EmptyDataError
  else
    let sortedData := sort data in
    let n := length sortedData in
    if Nat.eqb (n mod 2) 0
    then Ok ((get sortedData (n / 2 - 1) + get sortedData (n / 2)) / Fin 2)
    else Ok (get sortedData (n / 2)).

(** The frequency map of [calculateMode], keyed by the number's string
    form: an association list in order of first insertion. *)
Fixpoint bump (k : num) (m : list (num * nat)) : list (num * nat) :=
  match m with
  | [] => [(k, 1%nat)]
  | (k', c) :: m' =>
      if num_eq_dec k k' then (k', S c) :: m' else (k', c) :: bump k m'
  end.

Fixpoint freq (k : num) (m : list (num * nat)) : nat :=
  match m with
  | [] => O
  | (k', c) :: m' => if num_eq_dec k k' then c else freq k m'
  end.

(** A property key is an array index when it is the canonical string of
    an integer from 0 to 2^32 - 2. *)
Definition isArrayIndex (k : num) : bool :=
  match k with
  | Fin x => Reqb x (IZR (Int_part x)) && Rleb 0 x && Rleb x 4294967294
  | _ => false
  end.

Fixpoint insertEntry (e : num * nat) (l : list (num * nat))
  : list (num * nat) :=
  match l with
  | [] => [e]
  | e' :: l' =>
      if lt (fst e) (fst e') then e :: l else e' :: insertEntry e l'
  end.

(** [Object.entries]: the array-index keys in ascending order, then the
    other keys in order of insertion. *)
Definition entries (m : list (num * nat)) : list (num * nat) :=
  fold_right insertEntry [] (filter (fun e => isArrayIndex (fst e)) m)
  ++ filter (fun e => negb (isArrayIndex (fst e))) m.

Definition calculateMode (data : list num) : result (list num) :=
  if isEmpty data then Throw EmptyDataError
  else
    let '(frequencyMap, maxFreq) :=
      fold_left (fun '(m, mx) x =>
                   let m' := bump x m in (m', Nat.max mx (freq x m')))
                data ([], O) in
    Ok (map fst (filter (fun '(_, c) => Nat.eqb c maxFreq)
                   (entries frequencyMap))).

Definition calculateVariance (data : list num) : result num :=
  if isEmpty data then Throw EmptyDataError
  else
    let* mean := calculateMean data in
    let sumSquaredDiffs := sumPow 2 mean data in
    Ok (sumSquaredDiffs / len data).

Definition calculateStd (data : list num) : result num :=
  let* v := calculateVariance data in
  Ok (Math_sqrt v).

(** The optional [basicStats] argument of the moment functions. *)
Record BasicStats : Type := mkBasicStats {
  bs_count : option num;
  bs_mean : option num;
  bs_std : option num;
  bs_variance : option num
}.

(** [basicStats?.field] *)
Definition field (f : BasicStats -> option num) (b : option BasicStats)
  : option num :=
  match b with Some s => f s | None => None end.

(** [opt || fallback()] where the fallback may throw. *)
Definition or_else_r (a : option num) (b : result num) : result num :=
  if truthy_opt a then Ok (or_else a NaN) else b.

Definition calculateSkewness (data : list num) (basicStats : option BasicStats)
  : result num :=
  if isEmpty data then Throw EmptyDataError
  else
    let n := or_else (field bs_count basicStats) (len data) in
    let* mean := or_else_r (field bs_mean basicStats) (calculateMean data) in
    let* std := calculateStd data in
    if eq std (Fin 0) then Ok (Fin 0)
    else
      let thirdMoment := sumPow 3 mean data / n in
      Ok (thirdMoment / Math_pow std 3).

Definition calculateKurtosis (data : list num) (basicStats : option BasicStats)
  : result num :=
  if isEmpty data then Throw EmptyDataError
  else
    let n := or_else (field bs_count basicStats) (len data) in
    let* mean := or_else_r (field bs_mean basicStats) (calculateMean data) in
    let* std := or_else_r (field bs_std basicStats) (calculateStd data) in
    if eq std (Fin 0) then Ok (Fin 0)
    else
      let fourthMoment := sumPow 4 mean data / n in
      Ok (fourthMoment / Math_pow std 4 - Fin 3).

Record Quartiles : Type := mkQuartiles { q1 : num; q3 : num; iqr : num }.

(** [Math.floor(n * 0.25)] and [Math.floor(n * 0.75)] on a length [n]. *)
Definition calculateQuartiles (data : list num) : result Quartiles :=
  if isEmpty data then Throw EmptyDataError
  else
    let sortedData := sort data in
    let n := length sortedData in
    let q1 := get sortedData (n / 4) in
    let q3 := get sortedData (3 * n / 4) in
    Ok (mkQuartiles q1 q3 (q3 - q1)).

(** Sample standard deviation, dividing by [n - 1]. *)
Definition calculateStdDev (data : list num) : result num :=
  if isEmpty data then Throw EmptyDataError
  else
    let* mean := calculateMean data in
    let sumSquaredDiffs := sumPow 2 mean data in
    let sampleVariance := sumSquaredDiffs / (len data - Fin 1) in
    Ok (Math_sqrt sampleVariance).

(** *** Special functions of the statistics utility *)

(** The approximation of the inverse error function, as the statistics
    utility has it: the square root is taken unguarded. *)
Definition inverseErrorFunction (x : num) : num :=
  let a := Fin 0.140012 in
  let sign := if ge x (Fin 0) then Fin 1 else Fin (-1) in
  let absX := Math_abs x in
  if ge absX (Fin 1) then sign * PInf
  else
    let logTerm := Math_log (Fin 1 - absX * absX) in
    let sqrtTerm :=
      Math_sqrt (- logTerm - Fin 2 * Math_log (Fin 2) - a * logTerm) in
    sign * sqrtTerm.

Definition erf (x : num) : num :=
  let a1 := Fin 0.254829592 in
  let a2 := Fin (-0.284496736) in
  let a3 := Fin 1.421413741 in
  let a4 := Fin (-1.453152027) in
  let a5 := Fin 1.061405429 in
  let p := Fin 0.3275911 in
  let sign := if ge x (Fin 0) then Fin 1 else Fin (-1) in
  let absX := Math_abs x in
  let t := Fin 1 / (Fin 1 + p * absX) in
  let y := Fin 1 - (((((a5 * t + a4) * t) + a3) * t + a2) * t + a1) * t
                   * Math_exp (- absX * absX) in
  sign * y.

Definition normalCDF (x : num) : num :=
  Fin 0.5 * (Fin 1 + erf (x / Math_sqrt (Fin 2))).

(** The approximate Student-t distribution function; [df] is a sample
    size minus one. *)
Definition tCDF (x : num) (df : Z) : num :=
  if (30 <=? df)%Z then normalCDF x
  else
    let d := of_Z df in
    let absX := Math_abs x in
    let zValue := normalCDF absX in
    let correction :=
      Fin 1 / (Fin 4 * d) - Fin 7 / (Fin 96 * d * d)
      + Fin 127 / (Fin 9216 * d * d * d) in
    let pApprox :=
      if lt x (Fin 0)
      then Fin 1 - zValue
           + correction * (absX * absX + Fin 1) * (zValue - Fin 0.5)
      else zValue + correction * (absX * absX + Fin 1) * (Fin 0.5 - zValue) in
    Math_min (Fin 1) (Math_max (Fin 0) pApprox).

(** A row of the t table: the entries under the keys 0.90, 0.95, 0.99. *)
Record TRow : Type := mkTRow { t90 : R; t95 : R; t99 : R }.

Definition tTable (df : Z) : option TRow :=
  match df with
  | 1 => Some (mkTRow 6.314 12.706 63.657)
  | 2 => Some (mkTRow 2.920 4.303 9.925)
  | 3 => Some (mkTRow 2.353 3.182 5.841)
  | 4 => Some (mkTRow 2.132 2.776 4.604)
  | 5 => Some (mkTRow 2.015 2.571 4.032)
  | 6 => Some (mkTRow 1.943 2.447 3.707)
  | 7 => Some (mkTRow 1.895 2.365 3.499)
  | 8 => Some (mkTRow 1.860 2.306 3.355)
  | 9 => Some (mkTRow 1.833 2.262 3.250)
  | 10 => Some (mkTRow 1.812 2.228 3.169)
  | 11 => Some (mkTRow 1.796 2.201 3.106)
  | 12 => Some (mkTRow 1.782 2.179 3.055)
  | 13 => Some (mkTRow 1.771 2.160 3.012)
  | 14 => Some (mkTRow 1.761 2.145 2.977)
  | 15 => Some (mkTRow 1.753 2.131 2.947)
  | 16 => Some (mkTRow 1.746 2.120 2.921)
  | 17 => Some (mkTRow 1.740 2.110 2.898)
  | 18 => Some (mkTRow 1.734 2.101 2.878)
  | 19 => Some (mkTRow 1.729 2.093 2.861)
  | 20 => Some (mkTRow 1.725 2.086 2.845)
  | 21 => Some (mkTRow 1.721 2.080 2.831)
  | 22 => Some (mkTRow 1.717 2.074 2.819)
  | 23 => Some (mkTRow 1.714 2.069 2.807)
  | 24 => Some (mkTRow 1.711 2.064 2.797)
  | 25 => Some (mkTRow 1.708 2.060 2.787)
  | 30 => Some (mkTRow 1.697 2.042 2.750)
  | 40 => Some (mkTRow 1.684 2.021 2.704)
  | 50 => Some (mkTRow 1.676 2.009 2.678)
  | 60 => Some (mkTRow 1.671 2.000 2.660)
  | 100 => Some (mkTRow 1.660 1.984 2.626)
  | 1000 => Some (mkTRow 1.646 1.962 2.581)
  | 10000 => Some (mkTRow 1.645 1.960 2.576)
  | _ => None
  end%Z.

Definition largestRow : TRow := mkTRow 1.645 1.960 2.576.

Definition inTable (df : Z) : bool :=
  match tTable df with Some _ => true | None => false end.

(** [while (!(closestDf in tTable) && closestDf > 1) closestDf--] *)
Fixpoint findClosestDf (fuel : nat) (closestDf : Z) : Z :=
  match fuel with
  | O => closestDf
  | S fuel' =>
      if negb (inTable closestDf) && (1 <? closestDf)%Z
      then findClosestDf fuel' (closestDf - 1)
      else closestDf
  end.

(** [dfEntry[confidenceLevel] || dfEntry[0.95] || 1.96]; every entry of
    the table is non-zero, so the first one present is returned. *)
Definition rowEntry (dfEntry : TRow) (confidenceLevel : num) : num :=
  match confidenceLevel with
  | Fin c =>
      if Reqb c 0.90 then Fin (t90 dfEntry)
      else if Reqb c 0.95 then Fin (t95 dfEntry)
      else if Reqb c 0.99 then Fin (t99 dfEntry)
      else Fin (t95 dfEntry)
  | _ => Fin (t95 dfEntry)
  end.

Definition getApproximateTCriticalValue (df : Z) (confidenceLevel : num)
  : num :=
  let closestDf := findClosestDf (Z.to_nat df) df in
  let dfEntry :=
    match tTable closestDf with
    | Some row => row
    | None => largestRow
    end in
  rowEntry dfEntry confidenceLevel.

(** The [switch (confidenceLevel)] that selects the z critical value; the
    source repeats it verbatim at each use. *)
Definition zCriticalValue (confidenceLevel : num) : num :=
  if eq confidenceLevel (Fin 0.90) then Fin 1.645
  else if eq confidenceLevel (Fin 0.95) then Fin 1.96
  else if eq confidenceLevel (Fin 0.99) then Fin 2.576
  else
    let alpha := Fin 1 - confidenceLevel in
    let zApprox :=
      Math_sqrt (Fin 2)
      * inverseErrorFunction (Fin 2 * (Fin 1 - alpha / Fin 2) - Fin 1) in
    Math_abs zApprox.

(** *** Confidence interval for a mean *)

(** The shared tail type of the interval panels. *)
Inductive TailType : Type := two_tailed | left_tailed | right_tailed.

(** The options object a caller passes.  The panels put [tailType] into
    it; the function destructures [isNormal], [knownVariance] and
    [populationVariance] only. *)
Record CIOptions : Type := mkCIOptions {
  isNormal : option bool;
  knownVariance : option bool;
  populationVariance : option num;
  tailType : option TailType
}.


Definition default {A : Type} (d : A) (o : option A) : A :=
  match o with Some v => v | None => d end.

Record ConfidenceInterval : Type := mkCI {
  lower : num;
  upper : num;
  marginOfError : num;
  method : string;
  criticalValue : num
}.

(** The standard error the interval is built from. *)
Definition standardErrorOf (data : list num) (options : CIOptions)
  : result num :=
  let n := len data in
  match default false (knownVariance options), populationVariance options with
  | true, Some pv => Ok (Math_sqrt pv / Math_sqrt n)
  | _, _ =>
      let* std := calculateStd data in
      Ok (std / Math_sqrt n)
  end.

(** The critical value and the method label. *)
Definition criticalValueOf (n : nat) (confidenceLevel : num)
  (options : CIOptions) : num * string :=
  if default false (knownVariance options)
  then (zCriticalValue confidenceLevel,
        "Z-distribution (known variance)"%string)
  else if default false (isNormal options) || (n <=? 30)%nat
  then (getApproximateTCriticalValue (Z.of_nat n - 1) confidenceLevel,
        "t distribution (normal, unknown variance)"%string)
  else (zCriticalValue confidenceLevel,
        "Z-distribution (non-normal, large sample, unknown variance)"%string).

Definition calculateConfidenceInterval (data : list num)
  (confidenceLevel : num) (options : CIOptions) : result ConfidenceInterval :=
  if isEmpty data then Throw EmptyDataError
  else
    let n := length data in
    let* mean := calculateMean data in
    let* standardError := standardErrorOf data options in
    let '(criticalValue, method) := criticalValueOf n confidenceLevel options in
    let marginOfError := criticalValue * standardError in
    let lower := mean - marginOfError in
    let upper := mean + marginOfError in
    Ok (mkCI lower upper marginOfError method criticalValue).

(** *** Paired and two-sample intervals *)

Definition LengthMismatch_differences : error :=
  Error "Pre and post sample lengths must be the same"%string.

Definition LengthMismatch_paired : error :=
  Error "配对样本的数据长度必须相同"%string.

(** [xs.map((val, index) => f(val, ys[index]))] *)
Fixpoint mapIndexed (f : num -> num -> num) (xs ys : list num) (i : nat)
  : list num :=
  match xs with
  | [] => []
  | x :: xs' => f x (get ys i) :: mapIndexed f xs' ys (S i)
  end.

Definition calculateDifferences (before after : list num)
  : result (list num) :=
  if negb (length before =? length after)%nat
  then Throw LengthMismatch_differences
  else Ok (mapIndexed (fun val a => a - val) before after 0).

Record MeanCI : Type := mkMeanCI {
  meanDifference : num;
  standardError : num;
  mci_marginOfError : num;
  lowerBound : num;
  upperBound : num;
  mci_method : string
}.

Definition getTCriticalValue (confidenceLevel : num) (degreesOfFreedom : Z)
  : num :=
  getApproximateTCriticalValue degreesOfFreedom confidenceLevel.

Definition calculatePairedMeanCI (before after : list num)
  (confidenceLevel : num) : result MeanCI :=
  let* differences := calculateDifferences before after in
  let n := length differences in
  let* meanDifference := calculateMean differences in
  let* stdDevDifference := calculateStdDev differences in
  let standardError := stdDevDifference / Math_sqrt (of_nat n) in
  let degreesOfFreedom := (Z.of_nat n - 1)%Z in
  let tCritical := getTCriticalValue confidenceLevel degreesOfFreedom in
  let marginOfError := tCritical * standardError in
  Ok (mkMeanCI meanDifference standardError marginOfError
        (meanDifference - marginOfError) (meanDifference + marginOfError)
        "Paired t-test"%string).

Inductive TwoSampleMethod : Type := pooled | welch | paired.

Record TwoSampleOptions : Type := mkTwoSampleOptions {
  ts_method : option TwoSampleMethod;
  ts_isNormal : option bool;
  ts_tailType : option TailType
}.

Record TwoSampleCI : Type := mkTwoSampleCI {
  ts_lower : num;
  ts_upper : num;
  ts_marginOfError : num;
  ts_methodName : string;
  ts_criticalValue : num;
  meanDiff : num
}.

(** The table key a floored number stands for.  The callers pass
    [Math.floor] of a quotient: an integer, or [NaN] (in no table, and not
    above 1, so the largest row is used), for which any non-key at most 1
    does. *)
Definition dfKey (df : num) : Z :=
  match df with
  | Fin r => Int_part r
  | _ => 0%Z
  end.

Definition calculateTwoSampleConfidenceInterval (data1 data2 : list num)
  (confidenceLevel : num) (options : TwoSampleOptions) : result TwoSampleCI :=
  if isEmpty data1 || isEmpty data2 then Throw EmptyDataError
  else
    let method := default welch (ts_method options) in
    let n1 := length data1 in
    let n2 := length data2 in
    let* mean1 := calculateMean data1 in
    let* mean2 := calculateMean data2 in
    let meanDiff := mean1 - mean2 in
    let* '(criticalValue, standardError, methodName) :=
      match method with
      | paired =>
          if negb (n1 =? n2)%nat then Throw LengthMismatch_paired
          else
            let differences := mapIndexed (fun x y => x - y) data1 data2 0 in
            let* stdDiff := calculateStd differences in
            let standardError := stdDiff / Math_sqrt (of_nat n1) in
            Ok (getApproximateTCriticalValue (Z.of_nat n1 - 1) confidenceLevel,
                standardError, "配对样本t检验"%string)
      | pooled =>
          let* var1 := calculateVariance data1 in
          let* var2 := calculateVariance data2 in
          let pooledVar :=
            ((of_nat n1 - Fin 1) * var1 + (of_nat n2 - Fin 1) * var2)
            / (of_nat n1 + of_nat n2 - Fin 2) in
          let standardError :=
            Math_sqrt (pooledVar * (Fin 1 / of_nat n1 + Fin 1 / of_nat n2)) in
          Ok (getApproximateTCriticalValue
                (Z.of_nat n1 + Z.of_nat n2 - 2) confidenceLevel,
              standardError, "合并方差t检验"%string)
      | welch =>
          let* var1 := calculateVariance data1 in
          let* var2 := calculateVariance data2 in
          let standardError :=
            Math_sqrt (var1 / of_nat n1 + var2 / of_nat n2) in
          let numerator := Math_pow (var1 / of_nat n1 + var2 / of_nat n2) 2 in
          let denominator :=
            Math_pow var1 2 / (Math_pow (of_nat n1) 2 * (of_nat n1 - Fin 1))
            + Math_pow var2 2
              / (Math_pow (of_nat n2) 2 * (of_nat n2 - Fin 1)) in
          let df := Math_floor (numerator / denominator) in
          Ok (getApproximateTCriticalValue (dfKey df) confidenceLevel,
              standardError, "Welch t检验"%string)
      end in
    let marginOfError := criticalValue * standardError in
    let lower := meanDiff - marginOfError in
    let upper := meanDiff + marginOfError in
    Ok (mkTwoSampleCI lower upper marginOfError methodName criticalValue
          meanDiff).

(** *** Hypothesis tests *)

Inductive TestType : Type := two | left | right.

Definition EmptyData_test : error := Error "数据数组不能为空"%string.

(** [tCDF] never throws, so the [catch] branch of the source is dead. *)
Definition calculateTTestPValue (tValue : num) (df : Z) (tail : TestType)
  : num :=
  match tail with
  | two => Fin 2 * Math_min (tCDF tValue df) (Fin 1 - tCDF tValue df)
  | left => tCDF tValue df
  | right => Fin 1 - tCDF tValue df
  end.

Record Interval : Type := mkInterval { i_lower : num; i_upper : num }.

Record ZTestResult : Type := mkZTest {
  z_mean : num;
  zValue : num;
  z_pValue : num;
  z_criticalValue : num;
  z_rejected : bool;
  z_confidenceInterval : option Interval;
  z_method : string
}.

Definition tailLabel (testType : TestType) : string :=
  match testType with
  | two => "双侧"
  | left => "左侧"
  | right => "右侧"
  end%string.

(** The companion interval both tests build from the two-sided critical
    value. *)
Definition companionInterval (testType : TestType) (mean critical se : num)
  : option Interval :=
  match testType with
  | two => Some (mkInterval (mean - critical * se) (mean + critical * se))
  | left => Some (mkInterval NInf (mean + critical * se))
  | right => Some (mkInterval (mean - critical * se) PInf)
  end.

(** The rejection decision both tests take. *)
Definition rejectionDecision (testType : TestType)
  (statistic criticalValue : num) : bool :=
  match testType with
  | left => le statistic criticalValue
  | right => ge statistic criticalValue
  | two => ge (Math_abs statistic) criticalValue
  end.

Definition performZTest (data : list num) (mu0 sigma alpha : num)
  (testType : TestType) : result ZTestResult :=
  if isEmpty data then Throw EmptyData_test
  else
    let n := len data in
    let* mean := calculateMean data in
    let standardError := sigma / Math_sqrt n in
    let zValue := (mean - mu0) / standardError in
    let pValue :=
      match testType with
      | left => normalCDF zValue
      | right => Fin 1 - normalCDF zValue
      | two => Fin 2 * (Fin 1 - normalCDF (Math_abs zValue))
      end in
    let criticalValue :=
      match testType with
      | left =>
          - Math_sqrt (Fin 2)
          * inverseErrorFunction (Fin 2 * (Fin 1 - alpha) - Fin 1)
      | right =>
          Math_sqrt (Fin 2)
          * inverseErrorFunction (Fin 2 * (Fin 1 - alpha) - Fin 1)
      | two =>
          Math_sqrt (Fin 2)
          * inverseErrorFunction (Fin 2 * (Fin 1 - alpha / Fin 2) - Fin 1)
      end in
    let rejected := rejectionDecision testType zValue criticalValue in
    let zCritical :=
      Math_sqrt (Fin 2)
      * inverseErrorFunction (Fin 2 * (Fin 1 - alpha / Fin 2) - Fin 1) in
    let confidenceInterval :=
      companionInterval testType mean zCritical standardError in
    Ok (mkZTest mean zValue pValue criticalValue rejected confidenceInterval
          ("Z检验（方差已知，" ++ tailLabel testType ++ "检验）")%string).

Record TTestResult : Type := mkTTest {
  t_mean : num;
  t_std : num;
  tValue : num;
  t_df : Z;
  t_pValue : num;
  t_criticalValue : num;
  t_rejected : bool;
  t_confidenceInterval : option Interval;
  t_method : string
}.

Definition performTTest (data : list num) (mu0 alpha : num)
  (testType : TestType) : result TTestResult :=
  if isEmpty data then Throw EmptyData_test
  else
    let n := len data in
    let* mean := calculateMean data in
    let* std := calculateStd data in
    let standardError := std / Math_sqrt n in
    let df := (Z.of_nat (length data) - 1)%Z in
    let tValue := (mean - mu0) / standardError in
    let pValue := calculateTTestPValue tValue df testType in
    let criticalValue :=
      match testType with
      | left => - getApproximateTCriticalValue df (Fin 1 - alpha)
      | right => getApproximateTCriticalValue df (Fin 1 - alpha)
      | two => getApproximateTCriticalValue df (Fin 1 - alpha / Fin 2)
      end in
    let rejected := rejectionDecision testType tValue criticalValue in
    let tCritical := getApproximateTCriticalValue df (Fin 1 - alpha / Fin 2) in
    let confidenceInterval :=
      companionInterval testType mean tCritical standardError in
    Ok (mkTTest mean std tValue df pValue criticalValue rejected
          confidenceInterval
          ("t检验（方差未知，" ++ tailLabel testType ++ "检验）")%string).

(** *** Parameter estimation *)

(** The result object: its properties in insertion order. *)
Definition Estimates : Type := list (string * num).

Definition UnsupportedDistribution (distType : string) : error :=
  Error ("Unsupported distribution type: " ++ distType)%string.

(** [basicStats?.variance ||
     (basicStats?.std ? basicStats.std * basicStats.std : undefined)] *)
Definition passedVariance (basicStats : option BasicStats) : option num :=
  if truthy_opt (field bs_variance basicStats)
  then field bs_variance basicStats
  else
    match field bs_std basicStats with
    | Some s => if truthy s then Some (s * s) else None
    | None => None
    end.

(** [if (!mean || !variance) { mean = ...; variance = ...; }] *)
Definition meanAndVariance (data : list num) (mean variance : option num)
  : num * num :=
  if negb (truthy_opt mean) || negb (truthy_opt variance)
  then
    let n := len data in
    let mean' := sum data / n in
    (mean', sumPow 2 mean' data / n)
  else (or_else mean NaN, or_else variance NaN).

(** [if (!mean) { mean = ...; }] *)
Definition meanOnly (data : list num) (mean : option num) : num :=
  if negb (truthy_opt mean) then sum data / len data else or_else mean NaN.

Definition calculateMLE (data : list num) (distType : string)
  (basicStats : option BasicStats) : result Estimates :=
  let mean := field bs_mean basicStats in
  let variance := passedVariance basicStats in
  if String.eqb distType "normal" then
    let '(mean, variance) := meanAndVariance data mean variance in
    let std := Math_sqrt variance in
    Ok [("mean", mean); ("std", std)]%string
  else if String.eqb distType "uniform" then
    let min := Math_min_list data in
    let max := Math_max_list data in
    Ok [("a", min); ("b", max)]%string
  else if String.eqb distType "exponential" then
    let mean := meanOnly data mean in
    Ok [("lambda", Fin 1 / mean)]%string
  else if String.eqb distType "poisson" then
    let mean := meanOnly data mean in
    Ok [("lambda", mean)]%string
  else if String.eqb distType "gamma" then
    let '(mean, variance) := meanAndVariance data mean variance in
    Ok [("shape", Math_max (Fin 0.001) (Math_pow mean 2 / variance));
        ("scale", variance / mean)]%string
  else if String.eqb distType "beta" then
    let '(mean, variance) := meanAndVariance data mean variance in
    let s := (mean * (Fin 1 - mean) / variance) - Fin 1 in
    Ok [("alpha", mean * s); ("beta", (Fin 1 - mean) * s)]%string
  else Throw (UnsupportedDistribution distType).

Definition calculateMoM (data : list num) (distType : string)
  (basicStats : option BasicStats) : result Estimates :=
  let mean := field bs_mean basicStats in
  let variance := passedVariance basicStats in
  if String.eqb distType "normal" then
    let '(mean, variance) := meanAndVariance data mean variance in
    let std := Math_sqrt variance in
    Ok [("mean", mean); ("std", std)]%string
  else if String.eqb distType "uniform" then
    let '(mean, variance) := meanAndVariance data mean variance in
    let range := Math_sqrt (Fin 12 * variance) in
    Ok [("a", mean - range / Fin 2); ("b", mean + range / Fin 2)]%string
  else if String.eqb distType "exponential" then
    let mean := meanOnly data mean in
    Ok [("lambda", Fin 1 / mean)]%string
  else if String.eqb distType "poisson" then
    let mean := meanOnly data mean in
    Ok [("lambda", mean)]%string
  else if String.eqb distType "gamma" then
    let '(mean, variance) := meanAndVariance data mean variance in
    Ok [("shape", Math_max (Fin 0.001) (Math_pow mean 2 / variance));
        ("scale", variance / mean)]%string
  else if String.eqb distType "beta" then
    let '(mean, variance) := meanAndVariance data mean variance in
    let s := (mean * (Fin 1 - mean) / variance) - Fin 1 in
    Ok [("alpha", mean * s); ("beta", (Fin 1 - mean) * s)]%string
  else Throw (UnsupportedDistribution distType).

(** Reading a property of the result object. *)
Fixpoint prop (key : string) (o : Estimates) : option num :=
  match o with
  | [] => None
  | (k, v) :: o' => if String.eqb key k then Some v else prop key o'
  end.

(** *** Power and sample size, as the statistics utility has them

    These copies take the negated distribution function of the tail
    probability as critical value. *)

Definition calculateZTestPower (mu1 mu0 sigma n alpha : num)
  (testType : TestType) : num :=
  let delta := mu1 - mu0 in
  let se := sigma / Math_sqrt n in
  match testType with
  | two =>
      let zAlphaHalf := - normalCDF (alpha / Fin 2) in
      normalCDF (- zAlphaHalf + Math_abs delta / se)
      + normalCDF (- zAlphaHalf - Math_abs delta / se)
  | right =>
      let zAlpha := - normalCDF alpha in
      normalCDF (- zAlpha + delta / se)
  | left =>
      let zAlpha := - normalCDF alpha in
      normalCDF (- zAlpha - delta / se)
  end.

Definition calculateSampleSizeForPower (mu1 mu0 sigma alpha beta : num)
  (testType : TestType) : num :=
  let delta := Math_abs (mu1 - mu0) in
  let zAlpha :=
    match testType with
    | two => - normalCDF (alpha / Fin 2)
    | _ => - normalCDF alpha
    end in
  let zBeta := - normalCDF beta in
  let n := Math_pow ((sigma * (zAlpha + zBeta)) / delta) 2 in
  Math_ceil n.

(** *** Chi-square test: the final bins

    The tail of the statistics utility's [calculateChiSquareTest], from the
    finished [bins] array on: the selection of the final bins, the degrees
    of freedom and the statistic. *)

Record ChiBin : Type := mkChiBin {
  cb_min : num;
  cb_max : num;
  cb_observed : num;
  cb_expected : num
}.

Definition selectBins (bins : list ChiBin) : list ChiBin :=
  let validBins := filter (fun bin => ge (cb_expected bin) (Fin 5)) bins in
  if (length validBins <? 5)%nat then bins else validBins.

Definition chiSquareOfBins (bins : list ChiBin) (estimatedParams : nat)
  : num * Z * list ChiBin :=
  let mergedBins := selectBins bins in
  let df := (Z.of_nat (length mergedBins) - 1 - Z.of_nat estimatedParams)%Z in
  let chiSquareStat :=
    fold_left
      (fun stat bin =>
         if gt (cb_expected bin) (Fin 0)
         then stat + Math_pow (cb_observed bin - cb_expected bin) 2
                     / cb_expected bin
         else stat)
      mergedBins (Fin 0) in
  (chiSquareStat, df, mergedBins).

(** *** The general critical values and the intervals built on them *)

Definition ConfidenceLevelError : error :=
  Error "Confidence level must be between 0 and 1"%string.

(** The pre-computed z values of [getZCriticalValue], in the order of the
    object literal, which is also the order of its sorted keys. *)
Definition criticalValues : list (R * R) :=
  [(0.6, 0.253); (0.7, 0.524); (0.8, 0.842); (0.9, 1.282); (0.95, 1.645);
   (0.975, 1.96); (0.99, 2.326); (0.995, 2.576); (0.999, 3.090);
   (0.9995, 3.291)]%R.

(** [criticalValues[level]]; a key that is absent reads [undefined]. *)
Fixpoint criticalValueAt (level : R) (table : list (R * R)) : option R :=
  match table with
  | [] => None
  | (l, v) :: table' =>
      if Reqb level l then Some v else criticalValueAt level table'
  end.

(** The [for] loop that brackets the level between two neighbouring keys;
    the outermost keys stay when no pair does. *)
Fixpoint bracketLevels (confidenceLevel : num) (sortedLevels : list R)
  (lowerLevel upperLevel : R) : R * R :=
  match sortedLevels with
  | l0 :: ((l1 :: _) as rest) =>
      if gt confidenceLevel (Fin l0) && lt confidenceLevel (Fin l1)
      then (l0, l1)
      else bracketLevels confidenceLevel rest lowerLevel upperLevel
  | _ => (lowerLevel, upperLevel)
  end.

Definition getZCriticalValue (confidenceLevel : num) : result num :=
  if le confidenceLevel (Fin 0) || gt confidenceLevel (Fin 1.0000001)
  then Throw ConfidenceLevelError
  else if ge confidenceLevel (Fin 1) then Ok (Fin 5.0)
  else
    let tabulated :=
      match confidenceLevel with
      | Fin c => criticalValueAt c criticalValues
      | _ => None
      end in
    match tabulated with
    | Some v => Ok (Fin v)
    | None =>
        let sortedLevels := map fst criticalValues in
        let '(lowerLevel, upperLevel) :=
          bracketLevels confidenceLevel sortedLevels
            (hd 0%R sortedLevels) (last sortedLevels 0%R) in
        let valueOf level :=
          match criticalValueAt level criticalValues with
          | Some v => Fin v
          | None => NaN
          end in
        let lowerValue := valueOf lowerLevel in
        let upperValue := valueOf upperLevel in
        let ratio :=
          (confidenceLevel - Fin lowerLevel)
          / (Fin upperLevel - Fin lowerLevel) in
        Ok (lowerValue + ratio * (upperValue - lowerValue))
    end.

(** [getApproximateTCriticalValue] at an arbitrary number.  The search
    steps down by one from [df] while it is above 1 and no key of the
    table: a fractional [df] ends below 1 without meeting a key and gets
    the largest row, as [NaN] and [-Infinity] do at once; from [+Infinity]
    the search never ends ([None]). *)
Definition tCriticalValueAt (df confidenceLevel : num) : option num :=
  match df with
  | Fin r =>
      if Reqb (IZR (Int_part r)) r
      then Some (getApproximateTCriticalValue (Int_part r) confidenceLevel)
      else Some (rowEntry largestRow confidenceLevel)
  | PInf => None
  | NInf | NaN => Some (rowEntry largestRow confidenceLevel)
  end.

(** [data.reduce((sum, val) =>
       sum + Math.pow(val - calculateMean(data), 2), 0)]: the mean is
    computed again, and may throw, at every element. *)
Fixpoint sumSquaresAboutMean (data rest : list num) (acc : num)
  : result num :=
  match rest with
  | [] => Ok acc
  | val :: rest' =>
      let* mean := calculateMean data in
      sumSquaresAboutMean data rest' (acc + Math_pow (val - mean) 2)
  end.

Definition calculatePooledVariance (data1 data2 : list num) : result num :=
  let n1 := len data1 in
  let n2 := len data2 in
  let* ss1 := sumSquaresAboutMean data1 data1 (Fin 0) in
  let var1 := ss1 / (n1 - Fin 1) in
  let* ss2 := sumSquaresAboutMean data2 data2 (Fin 0) in
  let var2 := ss2 / (n2 - Fin 1) in
  Ok (((n1 - Fin 1) * var1 + (n2 - Fin 1) * var2) / (n1 + n2 - Fin 2)).

Record OneSampleMeanCI : Type := mkOneSampleMeanCI {
  osm_mean : num;
  osm_standardError : num;
  osm_marginOfError : num;
  osm_lowerBound : num;
  osm_upperBound : num;
  osm_method : string
}.

Definition calculateOneSampleMeanCI (data : list num) (confidenceLevel : num)
  (knownVariance : option num) : result OneSampleMeanCI :=
  let n := len data in
  let* mean := calculateMean data in
  let* '(standardError, marginOfError, method) :=
    match knownVariance with
    | Some variance =>
        let standardError := Math_sqrt variance / Math_sqrt n in
        let* zCritical := getZCriticalValue confidenceLevel in
        Ok (standardError, zCritical * standardError,
            "z-test (known variance)"%string)
    | None =>
        let* stdDev := calculateStdDev data in
        let standardError := stdDev / Math_sqrt n in
        let degreesOfFreedom := (Z.of_nat (length data) - 1)%Z in
        let tCritical := getTCriticalValue confidenceLevel degreesOfFreedom in
        Ok (standardError, tCritical * standardError,
            "t-test (unknown variance)"%string)
    end in
  Ok (mkOneSampleMeanCI mean standardError marginOfError
        (mean - marginOfError) (mean + marginOfError) method).

Record TwoSampleMeanCI : Type := mkTwoSampleMeanCI {
  tsm_meanDifference : num;
  tsm_standardError : num;
  tsm_marginOfError : num;
  tsm_lowerBound : num;
  tsm_upperBound : num;
  tsm_method : string;
  tsm_degreesOfFreedom : num
}.

(** The standard error and the degrees of freedom of the two-sample
    interval. *)
Definition twoSampleStandardError (data1 data2 : list num)
  (mean1 mean2 : num) (assumeEqualVariances : bool) : result (num * num) :=
  let n1 := len data1 in
  let n2 := len data2 in
  if assumeEqualVariances then
    let* pooledVariance := calculatePooledVariance data1 data2 in
    Ok (Math_sqrt (pooledVariance * (Fin 1 / n1 + Fin 1 / n2)),
        n1 + n2 - Fin 2)
  else
    let var1 := sumPow 2 mean1 data1 / (n1 - Fin 1) in
    let var2 := sumPow 2 mean2 data2 / (n2 - Fin 1) in
    let standardError := Math_sqrt (var1 / n1 + var2 / n2) in
    let dfNumerator := Math_pow (var1 / n1 + var2 / n2) 2 in
    let dfDenominator :=
      Math_pow var1 2 / (Math_pow n1 2 * (n1 - Fin 1))
      + Math_pow var2 2 / (Math_pow n2 2 * (n2 - Fin 1)) in
    Ok (standardError, dfNumerator / dfDenominator).

(** [None] when the search for the critical value does not end. *)
Definition calculateTwoSampleMeanCI (data1 data2 : list num)
  (confidenceLevel : num) (assumeEqualVariances : option bool)
  : option (result TwoSampleMeanCI) :=
  let assumeEqualVariances := default false assumeEqualVariances in
  let computed :=
    let* mean1 := calculateMean data1 in
    let* mean2 := calculateMean data2 in
    let* '(standardError, degreesOfFreedom) :=
      twoSampleStandardError data1 data2 mean1 mean2 assumeEqualVariances in
    Ok (mean1 - mean2, standardError, degreesOfFreedom) in
  match computed with
  | Throw e => Some (Throw e)
  | Ok (meanDifference, standardError, degreesOfFreedom) =>
      match tCriticalValueAt (Math_round degreesOfFreedom)
              confidenceLevel with
      | None => None
      | Some tCritical =>
          let marginOfError := tCritical * standardError in
          Some (Ok (mkTwoSampleMeanCI meanDifference standardError
                      marginOfError (meanDifference - marginOfError)
                      (meanDifference + marginOfError)
                      (if assumeEqualVariances
                       then "Pooled variance t-test"
                       else "Welch-Satterthwaite t-test")%string
                      degreesOfFreedom))
      end
  end.

(** *** The descriptive summary *)

Record DescriptiveStats : Type := mkDescriptiveStats {
  ds_mean : num;
  ds_median : num;
  ds_mode : list num;
  ds_variance : num;
  ds_std : num;
  ds_skewness : num;
  ds_kurtosis : num;
  ds_min : num;
  ds_max : num;
  ds_range : num;
  ds_q1 : num;
  ds_q3 : num;
  ds_iqr : num;
  ds_count : nat;
  ds_confidenceInterval : ConfidenceInterval
}.

(** [confidenceLevel] is 0.95 and [options] is
    [{ isNormal: false, knownVariance: false }] when the caller omits
    them. *)
Definition calculateDescriptiveStats (data : list num)
  (confidenceLevel : option num) (options : option CIOptions)
  : result DescriptiveStats :=
  let confidenceLevel := default (Fin 0.95) confidenceLevel in
  if isEmpty data then Throw EmptyDataError
  else
    let sortedData := sort data in
    let n := length sortedData in
    let* mean := calculateMean data in
    let* median := calculateMedian data in
    let* mode := calculateMode data in
    let* variance := calculateVariance data in
    let* std := calculateStd data in
    let* skewness := calculateSkewness data None in
    let* kurtosis := calculateKurtosis data None in
    let min := get sortedData 0 in
    let max := get sortedData (n - 1) in
    let range := get sortedData (n - 1) - get sortedData 0 in
    let* quartiles := calculateQuartiles data in
    let* confidenceInterval :=
      calculateConfidenceInterval data confidenceLevel
        (default (mkCIOptions (Some false) (Some false) None None)
           options) in
    Ok (mkDescriptiveStats mean median mode variance std skewness kurtosis
          min max range (q1 quartiles) (q3 quartiles) (iqr quartiles) n
          confidenceInterval).

(** *** Confidence intervals for proportions *)

Definition TrialsError : error :=
  Error "Total number of trials must be greater than 0"%string.

Definition SuccessesError : error :=
  Error
    "Number of successes must be between 0 and total number of trials"%string.

Inductive ProportionMethod : Type := wald | wilson.

Record ProportionCI : Type := mkProportionCI {
  pci_lower : num;
  pci_upper : num;
  pci_marginOfError : num;
  pci_method : string;
  pci_criticalValue : num;
  pci_proportion : num
}.

Definition calculateProportionConfidenceInterval (successes trials : num)
  (confidenceLevel : option num) (method : option ProportionMethod)
  : result ProportionCI :=
  let confidenceLevel := default (Fin 0.95) confidenceLevel in
  if le trials (Fin 0) then Throw TrialsError
  else if lt successes (Fin 0) || gt successes trials
  then Throw SuccessesError
  else if le confidenceLevel (Fin 0) || ge confidenceLevel (Fin 1)
  then Throw ConfidenceLevelError
  else
    let method := default wald method in
    let proportion := successes / trials in
    let criticalValue := zCriticalValue confidenceLevel in
    let '(lower, upper, methodName) :=
      match method with
      | wilson =>
          let n := trials in
          let z := criticalValue in
          let zSquared := z * z in
          let pTilde := (successes + zSquared / Fin 2) / (n + zSquared) in
          let denominator := n + zSquared in
          let numerator :=
            z * Math_sqrt ((proportion * (Fin 1 - proportion) * n
                            + zSquared / Fin 4) / n) in
          (pTilde - numerator / denominator,
           pTilde + numerator / denominator,
           "Wilson score interval"%string)
      | wald =>
          let standardError :=
            Math_sqrt ((proportion * (Fin 1 - proportion)) / trials) in
          let marginOfError := criticalValue * standardError in
          (proportion - marginOfError, proportion + marginOfError,
           "Wald interval (normal approximation)"%string)
      end in
    let lower := Math_max (Fin 0) lower in
    let upper := Math_min (Fin 1) upper in
    let marginOfError := (upper - lower) / Fin 2 in
    Ok (mkProportionCI lower upper marginOfError methodName criticalValue
          proportion).




(** *** Sample sizes *)

Definition MarginOfErrorError : error := Error "边际误差必须大于0"%string.

Definition MissingStdError : error :=
  Error "当方差未知时，必须提供估计的标准差"%string.

Definition MissingProportionError : error :=
  Error "当不使用保守估计时，必须提供估计的比例"%string.

Definition ProportionRangeError : error :=
  Error "估计的比例必须在0到1之间"%string.

Record MeanSizeOptions : Type := mkMeanSizeOptions {
  populationStd : option num;
  estimatedStd : option num;
  useTDistribution : option bool
}.

(** The [while] loop that re-computes the sample size from t critical
    values until two successive sizes differ by at most 0.5; [None] when
    the fuel runs out or a critical value is never returned. *)
Fixpoint tIteration (fuel : nat)
  (n previousN std marginOfError confidenceLevel : num) : option num :=
  match fuel with
  | O => None
  | S fuel' =>
      if gt (Math_abs (n - previousN)) (Fin 0.5) then
        let previousN := n in
        let df := Math_max (Fin 1) (Math_floor n - Fin 1) in
        match tCriticalValueAt df confidenceLevel with
        | None => None
        | Some tCriticalValue =>
            let n := Math_pow ((tCriticalValue * std) / marginOfError) 2 in
            tIteration fuel' n previousN std marginOfError confidenceLevel
        end
      else Some n
  end.

Definition calculateSampleSizeForMean (fuel : nat)
  (confidenceLevel marginOfError : num) (options : option MeanSizeOptions)
  : option (result num) :=
  if le marginOfError (Fin 0) then Some (Throw MarginOfErrorError)
  else
    let options := default (mkMeanSizeOptions None None None) options in
    let useTDistribution := default false (useTDistribution options) in
    match populationStd options, estimatedStd options with
    | None, None => Some (Throw MissingStdError)
    | populationStd, estimatedStd =>
        let std :=
          match populationStd with
          | Some s => s
          | None => default NaN estimatedStd
          end in
        let criticalValue := zCriticalValue confidenceLevel in
        let n := Math_pow ((criticalValue * std) / marginOfError) 2 in
        let stdIsEstimate :=
          match estimatedStd with
          | Some e => eq std e
          | None => false
          end in
        let iterated :=
          if useTDistribution && stdIsEstimate
          then tIteration fuel n (Fin 0) std marginOfError confidenceLevel
          else Some n in
        match iterated with
        | None => None
        | Some n => Some (Ok (Math_ceil n))
        end
    end.

Record ProportionSizeOptions : Type := mkProportionSizeOptions {
  estimatedProportion : option num;
  useConservativeEstimate : option bool
}.

Definition calculateSampleSizeForProportion
  (confidenceLevel marginOfError : num)
  (options : option ProportionSizeOptions) : result num :=
  if le marginOfError (Fin 0) then Throw MarginOfErrorError
  else
    let options := default (mkProportionSizeOptions None None) options in
    let useConservativeEstimate :=
      default false (useConservativeEstimate options) in
    match estimatedProportion options, useConservativeEstimate with
    | None, false => Throw MissingProportionError
    | estimatedProportion, _ =>
        let p :=
          if useConservativeEstimate then Fin 0.5
          else match estimatedProportion with Some e => e | None => NaN end in
        if lt p (Fin 0) || gt p (Fin 1) then Throw ProportionRangeError
        else
          let criticalValue := zCriticalValue confidenceLevel in
          let n :=
            Math_pow criticalValue 2 * p * (Fin 1 - p)
            / Math_pow marginOfError 2 in
          Ok (Math_ceil n)
    end.

(** *** Power of the t test and the power curve *)

(** The statistics utility's t-test power: the critical value is the
    negated distribution function of the tail probability, as for the z
    test; [df] is computed and not used. *)
Definition calculateTTestPower (mu1 mu0 sigma n alpha : num)
  (testType : TestType) : num :=
  let delta := mu1 - mu0 in
  let se := sigma / Math_sqrt n in
  let df := n - Fin 1 in
  let calculateTCritical (alpha df : num) (testType : TestType) : num :=
    match testType with
    | two => - normalCDF (alpha / Fin 2)
    | _ => - normalCDF alpha
    end in
  let tCritical := calculateTCritical alpha df testType in
  match testType with
  | two =>
      let nonCentrality := Math_abs delta / se in
      normalCDF (- tCritical + nonCentrality)
      + normalCDF (- tCritical - nonCentrality)
  | right =>
      let nonCentrality := delta / se in
      normalCDF (- tCritical + nonCentrality)
  | left =>
      let nonCentrality := delta / se in
      normalCDF (- tCritical - nonCentrality)
  end.

(** ['z' | 't'] *)
Inductive HypothesisTestType : Type := z_test | t_test.

Record PowerPoint : Type := mkPowerPoint { pp_mu : num; pp_power : num }.

(** [for (let mu = startMu; mu <= endMu; mu += step)]; [None] when the
    fuel runs out.  [mu] runs through the exact sums here: rounded, the
    sums drift, so that the last point can be missed and a step far
    below [mu] is absorbed. *)
Fixpoint powerLoop (fuel : nat) (power : num -> num)
  (mu endMu step : num) (data : list PowerPoint)
  : option (list PowerPoint) :=
  match fuel with
  | O => None
  | S fuel' =>
      if le mu endMu
      then powerLoop fuel' power (mu + step) endMu step
             (data ++ [mkPowerPoint mu (power mu)])
      else Some data
  end.

Definition generatePowerFunctionData (fuel : nat)
  (mu0 sigma n alpha : num) (testType : TestType)
  (hypothesisTestType : option HypothesisTestType)
  (startMu endMu step : option num) : option (list PowerPoint) :=
  let hypothesisTestType := default z_test hypothesisTestType in
  let startMu := default (mu0 - Fin 3 * sigma) startMu in
  let endMu := default (mu0 + Fin 3 * sigma) endMu in
  let step := default (sigma / Fin 10) step in
  let power mu :=
    match hypothesisTestType with
    | z_test => calculateZTestPower mu mu0 sigma n alpha testType
    | t_test => calculateTTestPower mu mu0 sigma n alpha testType
    end in
  powerLoop fuel power startMu endMu step [].

(** *** Histogram and quantile plot *)

(** A histogram bin.  The [name] of the source is the label
    [`${binMin.toFixed(2)}-${binMax.toFixed(2)}`]; the record keeps the two
    bounds the label prints. *)
Record HistogramBin : Type := mkHistogramBin {
  hb_binMin : num;
  hb_binMax : num;
  hb_value : nat
}.

(** The number of passes of [for (let i = 0; i < binsCount; i++)]. *)
Definition passes (binsCount : num) : nat :=
  match binsCount with
  | Fin r => Z.to_nat (Int_part (Rceil r))
  | _ => O
  end.

(** [numBins] is a count of bins, as the callers pass it, or omitted. *)
Definition generateHistogramData (data : list num) (numBins : option nat)
  : result (list HistogramBin) :=
  if isEmpty data then Throw EmptyData_test
  else
    let n := len data in
    let binsCount :=
      match numBins with
      | Some (S k) => of_nat (S k)
      | _ => Math_ceil (Math_sqrt n)
      end in
    let min := Math_min_list data in
    let max := Math_max_list data in
    let binWidth := (max - min) / binsCount in
    Ok (map (fun i =>
               let binMin := min + of_nat i * binWidth in
               let binMax := binMin + binWidth in
               let count :=
                 length (filter (fun val => ge val binMin && lt val binMax)
                           data) in
               mkHistogramBin binMin binMax count)
          (seq 0 (passes binsCount))).

Definition ProbabilityRangeError : error :=
  Error "p must be between 0 and 1"%string.

Definition normalInv (p : num) : result num :=
  if le p (Fin 0) || ge p (Fin 1) then Throw ProbabilityRangeError
  else
    let a0 := Fin 2.515517 in
    let a1 := Fin 0.802853 in
    let a2 := Fin 0.010328 in
    let b0 := Fin 1.432788 in
    let b1 := Fin 0.189269 in
    let b2 := Fin 0.001308 in
    let t :=
      if lt p (Fin 0.5) then Math_sqrt (Fin (-2) * Math_log p)
      else Math_sqrt (Fin (-2) * Math_log (Fin 1 - p)) in
    let z :=
      t - (a0 + a1 * t + a2 * t * t)
          / (Fin 1 + b0 * t + b1 * t * t + b2 * t * t * t) in
    Ok (if lt p (Fin 0.5) then - z else z).

Definition UnsupportedQQDistribution (distributionType : string) : error :=
  Error ("不支持的分布类型: " ++ distributionType)%string.

Record QQPoint : Type := mkQQPoint { theoretical : num; empirical : num }.

(** The loop over the sorted sample, from index [i] on. *)
Fixpoint qqLoop (n : nat) (distributionType : string)
  (distributionParams : Estimates) (rest : list num) (i : nat)
  (qqData : list QQPoint) : result (list QQPoint) :=
  match rest with
  | [] => Ok qqData
  | x :: rest' =>
      let quantilePosition :=
        (of_nat i + Fin 0.375) / (of_nat n + Fin 0.25) in
      if String.eqb distributionType "normal" then
        let* theoreticalQuantile := normalInv quantilePosition in
        let mean := or_else (prop "mean" distributionParams) (Fin 0) in
        let std := or_else (prop "std" distributionParams) (Fin 1) in
        let theoreticalQuantile := mean + theoreticalQuantile * std in
        qqLoop n distributionType distributionParams rest' (S i)
          (qqData ++ [mkQQPoint theoreticalQuantile x])
      else Throw (UnsupportedQQDistribution distributionType)
  end.

(** [distributionType] is ['normal'] and [distributionParams] is [{}] when
    omitted. *)
Definition calculateQQPlotData (data : list num)
  (distributionType : option string) (distributionParams : option Estimates)
  : result (list QQPoint) :=
  let distributionType := default "normal"%string distributionType in
  let distributionParams := default [] distributionParams in
  if isEmpty data then Throw EmptyData_test
  else
    let sortedData := sort data in
    let n := length sortedData in
    qqLoop n distributionType distributionParams sortedData 0 [].

End Statistics.

(** ** The power-analysis module *)

Module PowerAnalysis.

Local Open Scope js_scope.

Import Statistics(TestType, two, left, right).

Definition erf (x : num) : num :=
  let a1 := Fin 0.254829592 in
  let a2 := Fin (-0.284496736) in
  let a3 := Fin 1.421413741 in
  let a4 := Fin (-1.453152027) in
  let a5 := Fin 1.061405429 in
  let p := Fin 0.3275911 in
  let sign := if ge x (Fin 0) then Fin 1 else Fin (-1) in
  let absX := Math_abs x in
  let t := Fin 1 / (Fin 1 + p * absX) in
  let y := Fin 1 - (((((a5 * t + a4) * t) + a3) * t + a2) * t + a1) * t
                   * Math_exp (- absX * absX) in
  sign * y.

Definition normalCDF (x : num) : num :=
  Fin 0.5 * (Fin 1 + erf (x / Math_sqrt (Fin 2))).

(** The guarded copy of the inverse error function. *)
Definition inverseErrorFunction (x : num) : num :=
  let a := Fin 0.140012 in
  let sign := if ge x (Fin 0) then Fin 1 else Fin (-1) in
  let absX := Math_abs x in
  if ge absX (Fin 1) then sign * PInf
  else
    let arg := Fin 1 - absX * absX in
    if le arg (Fin 0) then sign * PInf
    else
      let logTerm := Math_log arg in
      let sqrtArg := - logTerm - Fin 2 * Math_log (Fin 2) - a * logTerm in
      if lt sqrtArg (Fin 0) then sign * PInf
      else
        let sqrtTerm := Math_sqrt sqrtArg in
        sign * sqrtTerm.

(** [Math.min(Math.max(p, 0), 1)] *)
Definition clamp01 (p : num) : num := Math_min (Math_max p (Fin 0)) (Fin 1).

Definition calculateZTestPower (mu1 mu0 sigma n alpha : num)
  (testType : TestType) : num :=
  let delta := mu1 - mu0 in
  let se := sigma / Math_sqrt n in
  match testType with
  | two =>
      let zAlphaHalf :=
        Math_sqrt (Fin 2)
        * inverseErrorFunction (Fin 2 * (Fin 1 - alpha / Fin 2) - Fin 1) in
      clamp01 (normalCDF (- zAlphaHalf + Math_abs delta / se)
               + normalCDF (- zAlphaHalf - Math_abs delta / se))
  | right =>
      let zAlpha :=
        Math_sqrt (Fin 2)
        * inverseErrorFunction (Fin 2 * (Fin 1 - alpha) - Fin 1) in
      clamp01 (normalCDF (- zAlpha + delta / se))
  | left =>
      let zAlpha :=
        Math_sqrt (Fin 2)
        * inverseErrorFunction (Fin 2 * (Fin 1 - alpha) - Fin 1) in
      clamp01 (normalCDF (- zAlpha - delta / se))
  end.

Definition calculateSampleSizeForPower (mu1 mu0 sigma alpha beta : num)
  (testType : TestType) : num :=
  let delta := Math_abs (mu1 - mu0) in
  match testType with
  | two =>
      let zAlpha :=
        Math_sqrt (Fin 2)
        * inverseErrorFunction (Fin 2 * (Fin 1 - alpha / Fin 2) - Fin 1) in
      let zBeta :=
        Math_sqrt (Fin 2)
        * inverseErrorFunction (Fin 2 * (Fin 1 - beta) - Fin 1) in
      let n := Math_pow ((zAlpha + zBeta) * sigma / delta) 2 in
      Math_ceil n
  | _ =>
      let zAlpha :=
        Math_sqrt (Fin 2)
        * inverseErrorFunction (Fin 2 * (Fin 1 - alpha) - Fin 1) in
      let zBeta :=
        Math_sqrt (Fin 2)
        * inverseErrorFunction (Fin 2 * (Fin 1 - beta) - Fin 1) in
      let n := Math_pow ((zAlpha + zBeta) * sigma / delta) 2 in
      Math_ceil n
  end.

(** The module's t-test power: the critical value is the normal
    approximation the z test uses; [df] is computed and passed on, and
    not used. *)
Definition calculateTTestPower (mu1 mu0 sigma n alpha : num)
  (testType : TestType) : num :=
  let delta := mu1 - mu0 in
  let se := sigma / Math_sqrt n in
  let df := n - Fin 1 in
  let calculateTCritical (alpha df : num) (testType : TestType) : num :=
    match testType with
    | two =>
        Math_sqrt (Fin 2)
        * inverseErrorFunction (Fin 2 * (Fin 1 - alpha / Fin 2) - Fin 1)
    | _ =>
        Math_sqrt (Fin 2)
        * inverseErrorFunction (Fin 2 * (Fin 1 - alpha) - Fin 1)
    end in
  let tCritical := calculateTCritical alpha df testType in
  match testType with
  | two =>
      let nonCentrality := Math_abs delta / se in
      clamp01 (normalCDF (- tCritical + nonCentrality)
               + normalCDF (- tCritical - nonCentrality))
  | right =>
      let nonCentrality := delta / se in
      clamp01 (normalCDF (- tCritical + nonCentrality))
  | left =>
      let nonCentrality := delta / se in
      clamp01 (normalCDF (- tCritical - nonCentrality))
  end.

(** The power curve, with the loop and the point record of the statistics
    utility's copy. *)
Definition generatePowerFunctionData (fuel : nat)
  (mu0 sigma n alpha : num) (testType : TestType)
  (hypothesisTestType : option Statistics.HypothesisTestType)
  (startMu endMu step : option num)
  : option (list Statistics.PowerPoint) :=
  let hypothesisTestType :=
    Statistics.default Statistics.z_test hypothesisTestType in
  let startMu := Statistics.default (mu0 - Fin 3 * sigma) startMu in
  let endMu := Statistics.default (mu0 + Fin 3 * sigma) endMu in
  let step := Statistics.default (sigma / Fin 10) step in
  let power mu :=
    match hypothesisTestType with
    | Statistics.z_test => calculateZTestPower mu mu0 sigma n alpha testType
    | Statistics.t_test => calculateTTestPower mu mu0 sigma n alpha testType
    end in
  Statistics.powerLoop fuel power startMu endMu step [].

End PowerAnalysis.

(** ** The goodness-of-fit module *)

Module GoodnessOfFit.

Local Open Scope js_scope.

Definition erf (x : num) : num :=
  let a1 := Fin 0.254829592 in
  let a2 := Fin (-0.284496736) in
  let a3 := Fin 1.421413741 in
  let a4 := Fin (-1.453152027) in
  let a5 := Fin 1.061405429 in
  let p := Fin 0.3275911 in
  let sign := if ge x (Fin 0) then Fin 1 else Fin (-1) in
  let absX := Math_abs x in
  let t := Fin 1 / (Fin 1 + p * absX) in
  let y := Fin 1 - (((((a5 * t + a4) * t) + a3) * t + a2) * t + a1) * t
                   * Math_exp (- absX * absX) in
  sign * y.

Definition normalCDF (x : num) : num :=
  Fin 0.5 * (Fin 1 + erf (x / Math_sqrt (Fin 2))).

(** The module's own helpers: no exception on an empty sample. *)
Definition calculateMean (data : list num) : num :=
  if (length data =? 0)%nat then Fin 0
  else Statistics.sum data / of_nat (length data).

Definition calculateStd (data : list num) : num :=
  if (length data <=? 1)%nat then Fin 0
  else
    let mean := calculateMean data in
    let variance :=
      Statistics.sumPow 2 mean data / (of_nat (length data) - Fin 1) in
    Math_sqrt variance.

(** The [parameters] object and a property read. *)
Definition Parameters : Type := list (string * num).

Fixpoint param (key : string) (parameters : Parameters) : option num :=
  match parameters with
  | [] => None
  | (k, v) :: ps => if String.eqb key k then Some v else param key ps
  end.

Record Bin : Type := mkBin { b_start : num; b_end : num }.

(** The bin ends are exact multiples of the width here; rounded, the end
    of the last bin can fall just below the maximum of the sample. *)
Definition makeBins (min binWidth : num) (numBins : nat) : list Bin :=
  map (fun i => mkBin (min + of_nat i * binWidth)
                      (min + of_nat (i + 1) * binWidth))
      (seq 0 numBins).

(** *** Arrays *)

(** [a[i] = v]; writing at the length appends. *)
Fixpoint assign {A : Type} (l : list A) (i : nat) (v : A) : list A :=
  match l, i with
  | [], O => [v]
  | [], S _ => []
  | _ :: l', O => v :: l'
  | x :: l', S i' => x :: assign l' i' v
  end.

(** [a.splice(i, 1)] *)
Fixpoint splice {A : Type} (l : list A) (i : nat) : list A :=
  match l, i with
  | [], _ => []
  | _ :: l', O => l'
  | x :: l', S i' => x :: splice l' i'
  end.

(** The inner loop over the bins: the first bin that takes the value. *)
Fixpoint findBin (value : num) (bins : list Bin) (i numBins : nat)
  : option nat :=
  match bins with
  | [] => None
  | b :: rest =>
      let hit :=
        if (i =? numBins - 1)%nat
        then ge value (b_start b) && le value (b_end b)
        else ge value (b_start b) && lt value (b_end b) in
      if hit then Some i else findBin value rest (S i) numBins
  end.

Definition observe (bins : list Bin) (numBins : nat) (data : list num)
  : list num :=
  fold_left
    (fun observedFrequencies value =>
       match findBin value bins 0 numBins with
       | Some i =>
           assign observedFrequencies i (get observedFrequencies i + Fin 1)
       | None => observedFrequencies
       end)
    data (repeat (Fin 0) numBins).

Definition UnsupportedDistribution (distributionType : string) : error :=
  Error ("Unsupported distribution type: " ++ distributionType)%string.

Definition expect (data : list num) (distributionType : string)
  (parameters : Parameters) (bins : list Bin) (min max binWidth : num)
  : result (list num) :=
  let n := of_nat (length data) in
  if String.eqb distributionType "normal" then
    let mean := or_else (param "mean" parameters) (calculateMean data) in
    let std := or_else (param "std" parameters) (calculateStd data) in
    Ok (map (fun b =>
               let lower := (b_start b - mean) / std in
               let upper := (b_end b - mean) / std in
               let probability := normalCDF upper - normalCDF lower in
               n * probability) bins)
  else if String.eqb distributionType "uniform" then
    let a := or_else (param "a" parameters) min in
    let b := or_else (param "b" parameters) max in
    let binProbability := binWidth / (b - a) in
    Ok (map (fun _ => n * binProbability) bins)
  else if String.eqb distributionType "exponential" then
    let lambda :=
      or_else (param "lambda" parameters) (Fin 1 / calculateMean data) in
    Ok (map (fun b =>
               let lower := Math_max (b_start b) (Fin 0) in
               let upper := Math_max (b_end b) (Fin 0) in
               let probability :=
                 (Fin 1 - Math_exp (- lambda * upper))
                 - (Fin 1 - Math_exp (- lambda * lower)) in
               n * probability) bins)
  else Throw (UnsupportedDistribution distributionType).

Definition Bin_end (bins : list Bin) (i : nat) : num :=
  b_end (nth i bins (mkBin NaN NaN)).

Definition setEnd (bins : list Bin) (i : nat) (e : num) : list Bin :=
  match nth_error bins i with
  | Some b => assign bins i (mkBin (b_start b) e)
  | None => bins
  end.

(** The state of the merging loop: the index and the three arrays. *)
Record MergeState : Type := mkMerge {
  m_i : nat;
  m_expected : list num;
  m_observed : list num;
  m_bins : list Bin
}.

(** One turn of [while (i < expectedFrequencies.length)]; [None] when the
    loop condition fails. *)
Definition mergeStep (s : MergeState) : option MergeState :=
  let i := m_i s in
  let e := m_expected s in
  let o := m_observed s in
  let bins := m_bins s in
  if (i <? length e)%nat then
    if lt (get e i) (Fin 5) then
      if (i =? 0)%nat then
        let e1 := assign e (i + 1) (get e (i + 1) + get e i) in
        let o1 := assign o (i + 1) (get o (i + 1) + get o i) in
        Some (mkMerge i (splice e1 i) (splice o1 i) (splice bins i))
      else
        let e1 := assign e (i - 1) (get e (i - 1) + get e i) in
        let o1 := assign o (i - 1) (get o (i - 1) + get o i) in
        let bins1 := setEnd bins (i - 1) (Bin_end bins i) in
        Some (mkMerge i (splice e1 i) (splice o1 i) (splice bins1 i))
    else Some (mkMerge (S i) e o bins)
  else None.

(** The loop; [None] when the fuel runs out before the loop ends. *)
Fixpoint mergeLoop (fuel : nat) (s : MergeState) : option MergeState :=
  match mergeStep s with
  | None => Some s
  | Some s' =>
      match fuel with
      | O => None
      | S fuel' => mergeLoop fuel' s'
      end
  end.

Definition chiSquareStatistic (expected observed : list num) : num :=
  fold_left
    (fun stat i =>
       if gt (get expected i) (Fin 0)
       then
         let diff := get observed i - get expected i in
         stat + (diff * diff) / get expected i
       else stat)
    (seq 0 (length expected)) (Fin 0).

Record ChiSquareResult : Type := mkChiSquare {
  statistic : num;
  degreesOfFreedom : Z;
  observedFrequencies : list num;
  expectedFrequencies : list num;
  bins : list Bin
}.

Definition calculateChiSquareTest (fuel : nat) (data : list num)
  (distributionType : string) (parameters : Parameters) (numBins : nat)
  : option (result ChiSquareResult) :=
  let min := Math_min_list data in
  let max := Math_max_list data in
  let binWidth := (max - min) / of_nat numBins in
  let bins := makeBins min binWidth numBins in
  let observedFrequencies := observe bins numBins data in
  match expect data distributionType parameters bins min max binWidth with
  | Throw e => Some (Throw e)
  | Ok expectedFrequencies =>
      match mergeLoop fuel
              (mkMerge 0 expectedFrequencies observedFrequencies bins) with
      | None => None
      | Some s =>
          let numParameters :=
            if String.eqb distributionType "normal" then 2%Z else 1%Z in
          Some (Ok (mkChiSquare
                      (chiSquareStatistic (m_expected s) (m_observed s))
                      (Z.of_nat (length (m_expected s)) - 1 - numParameters)
                      (m_observed s) (m_expected s) (m_bins s)))
      end
  end.

(** *** The Kolmogorov-Smirnov test *)

(** The [TypeError] of calling a number as a function, with the message
    the engine gives it. *)
Definition NotAFunctionError : error :=
  Error "theoCDF is not a function"%string.

Record KSResult : Type := mkKS {
  ks_statistic : num;
  ks_criticalValue : num;
  ks_pValue : num
}.

Definition empiricalCDF (sortedData : list num) (x : num) : num :=
  of_nat (length (filter (fun value => le value x) sortedData))
  / of_nat (length sortedData).

(** The [switch] that selects the theoretical distribution function. *)
Definition theoreticalCDFOf (data : list num) (distributionType : string)
  (parameters : Parameters) : result (num -> num) :=
  if String.eqb distributionType "normal" then
    let mean := or_else (param "mean" parameters) (calculateMean data) in
    let std := or_else (param "std" parameters) (calculateStd data) in
    Ok (fun x => normalCDF ((x - mean) / std))
  else if String.eqb distributionType "uniform" then
    let a := or_else (param "a" parameters) (Math_min_list data) in
    let b := or_else (param "b" parameters) (Math_max_list data) in
    Ok (fun x =>
          if lt x a then Fin 0
          else if gt x b then Fin 1
          else (x - a) / (b - a))
  else if String.eqb distributionType "exponential" then
    let lambda :=
      or_else (param "lambda" parameters) (Fin 1 / calculateMean data) in
    Ok (fun x =>
          if lt x (Fin 0) then Fin 0
          else Fin 1 - Math_exp (- lambda * x))
  else Throw (UnsupportedDistribution distributionType).

(** The loop over the sorted sample, from index [i] on.  [theoCDF] holds
    the number [theoreticalCDF(x)]; for [i > 0] the second distance
    evaluates [theoCDF(x)], a call of that number. *)
Fixpoint ksLoop (sortedData : list num) (theoreticalCDF : num -> num)
  (rest : list num) (i : nat) (maxD : num) : result num :=
  match rest with
  | [] => Ok maxD
  | x :: rest' =>
      let empCDF := empiricalCDF sortedData x in
      let theoCDF := theoreticalCDF x in
      let d1 := Math_abs (empCDF - theoCDF) in
      let* d2 :=
        if (0 <? i)%nat then Throw NotAFunctionError else Ok d1 in
      ksLoop sortedData theoreticalCDF rest' (S i)
        (Math_max (Math_max maxD d1) d2)
  end.

Definition calculateKolmogorovSmirnovTest (data : list num)
  (distributionType : string) (parameters : Parameters) : result KSResult :=
  let sortedData := Statistics.sort data in
  let n := of_nat (length sortedData) in
  let* theoreticalCDF := theoreticalCDFOf data distributionType parameters in
  let* maxD := ksLoop sortedData theoreticalCDF sortedData 0 (Fin 0) in
  let criticalValue := Fin 1.36 / Math_sqrt n in
  let pValue := Fin 2 * Math_exp (Fin (-2) * n * maxD * maxD) in
  Ok (mkKS maxD criticalValue (Math_min pValue (Fin 1))).

End GoodnessOfFit.

(** ** The one-sample interval panel *)

Module OneSampleMeanPanel.

Import Statistics.

Definition InvalidNumberError : error := Error "请输入有效的数值"%string.
Definition SampleSizeError : error := Error "样本量必须大于0"%string.
Definition StdError : error := Error "标准差必须大于0"%string.
Definition LevelError : error := Error "置信水平必须在0和1之间"%string.

Definition isNaN (a : num) : bool :=
  match a with NaN => true | _ => false end.

(** The length of [Array.from({ length: size }, ...)] for the integer
    [parseInt] returned. *)
Definition arrayLength (size : num) : nat :=
  match size with
  | Fin r => Z.to_nat (Int_part r)
  | _ => O
  end.

(** [handleCalculate], from the parsed inputs on: [sampleMean],
    [sampleStd], [populationStd] and [confidenceLevel] are what
    [parseFloat] returned for the fields of these names, [sampleSize] what
    [parseInt] returned (an integer or [NaN]).  [Ok] is the result the
    panel stores, [Throw] the error whose message it shows. *)
Definition handleCalculate
  (sampleMean sampleSize sampleStd populationStd confidenceLevel : num)
  (isPopulationStdKnown isNormal : bool) (tailType : TailType)
  : result ConfidenceInterval :=
  let mean := sampleMean in
  let size := sampleSize in
  let std := if isPopulationStdKnown then populationStd else sampleStd in
  let level := confidenceLevel in
  if isNaN mean || isNaN size || isNaN std || isNaN level
  then Throw InvalidNumberError
  else if le size (Fin 0) then Throw SampleSizeError
  else if le std (Fin 0) then Throw StdError
  else if le level (Fin 0) || ge level (Fin 1) then Throw LevelError
  else
    let data := repeat mean (arrayLength size) in
    calculateConfidenceInterval data level
      (mkCIOptions (Some isNormal) (Some isPopulationStdKnown) None
         (Some tailType)).

End OneSampleMeanPanel.

(** ** The backup copy of the statistics utility

    A second copy of the utility is kept beside the first.  Its
    [calculateMean], [calculateStd], [getApproximateTCriticalValue] and
    [inverseErrorFunction] are textually those of [Statistics] and are
    not repeated; its [calculateConfidenceInterval] differs: it reads
    [tailType]. *)

Module StatisticsBackup.

Import Statistics.
Local Open Scope js_scope.

(** The [switch (adjustedConfidenceLevel)] that selects the z critical
    value; the source repeats it verbatim on both z paths. *)
Definition zCriticalValue (tailType : TailType) (confidenceLevel : num)
  : num :=
  let twoTailed :=
    match tailType with two_tailed => true | _ => false end in
  let alpha := Fin 1 - confidenceLevel in
  let adjustedConfidenceLevel :=
    if twoTailed then confidenceLevel else Fin 1 - alpha in
  if eq adjustedConfidenceLevel (Fin 0.90)
  then if twoTailed then Fin 1.645 else Fin 1.282
  else if eq adjustedConfidenceLevel (Fin 0.95)
  then if twoTailed then Fin 1.96 else Fin 1.645
  else if eq adjustedConfidenceLevel (Fin 0.975) then Fin 1.96
  else if eq adjustedConfidenceLevel (Fin 0.99)
  then if twoTailed then Fin 2.576 else Fin 2.326
  else if eq adjustedConfidenceLevel (Fin 0.995) then Fin 2.576
  else
    let alphaAdjusted := if twoTailed then alpha / Fin 2 else alpha in
    let zApprox :=
      Math_sqrt (Fin 2)
      * inverseErrorFunction (Fin 2 * (Fin 1 - alphaAdjusted) - Fin 1) in
    Math_abs zApprox.

(** The critical value and the method label. *)
Definition criticalValueOf (n : nat) (confidenceLevel : num)
  (options : CIOptions) : num * string :=
  let tailType := default two_tailed (tailType options) in
  if default false (knownVariance options)
  then (zCriticalValue tailType confidenceLevel,
        "Z-distribution (known variance)"%string)
  else if default false (isNormal options) || (n <=? 30)%nat
  then
    let adjustedConfidenceLevel :=
      match tailType with
      | two_tailed => confidenceLevel
      | _ => Fin 1 - (Fin 1 - confidenceLevel)
      end in
    (getApproximateTCriticalValue (Z.of_nat n - 1) adjustedConfidenceLevel,
     "t distribution (normal, unknown variance)"%string)
  else (zCriticalValue tailType confidenceLevel,
        "Z-distribution (non-normal, large sample, unknown variance)"%string).

(** The standard error is computed as in [Statistics.standardErrorOf];
    the bounds follow the [switch (tailType)]. *)
Definition calculateConfidenceInterval (data : list num)
  (confidenceLevel : num) (options : CIOptions) : result ConfidenceInterval :=
  if isEmpty data then Throw EmptyDataError
  else
    let n := length data in
    let* mean := calculateMean data in
    let* standardError := standardErrorOf data options in
    let '(criticalValue, method) := criticalValueOf n confidenceLevel options in
    let marginOfError := criticalValue * standardError in
    let '(lower, upper) :=
      match default two_tailed (tailType options) with
      | left_tailed => (NInf, mean + marginOfError)
      | right_tailed => (mean - marginOfError, PInf)
      | two_tailed => (mean - marginOfError, mean + marginOfError)
      end in
    Ok (mkCI lower upper marginOfError method criticalValue).

End StatisticsBackup.

(** * Vocabulary of the statements

    What the properties below are stated with: the moments of a list of
    reals, the real functions the approximations compute on finite
    arguments, and the inputs the examples use. *)

Section Vocabulary.

Import Statistics.
Local Open Scope js_scope.

(** The sum and the central moments of a list of reals. *)
Definition Rsum (xs : list R) : R := fold_left Rplus xs 0%R.

Definition Rmoment (k : nat) (m : R) (xs : list R) : R :=
  fold_left (fun acc x => (acc + (x - m) ^ k)%R) xs 0%R.

Definition Rmean (xs : list R) : R := (Rsum xs / INR (length xs))%R.

Definition Rvariance (xs : list R) : R :=
  (Rmoment 2 (Rmean xs) xs / INR (length xs))%R.

(** The standard error of a finite sample, as a real. *)
Definition RstdErr (xs : list R) : R :=
  (sqrt (Rvariance xs) / sqrt (INR (length xs)))%R.

(** The row a lookup ends in. *)
Definition rowOf (df : Z) : TRow :=
  match tTable (findClosestDf (Z.to_nat df) df) with
  | Some row => row
  | None => largestRow
  end.

Definition pairedOptions : TwoSampleOptions :=
  mkTwoSampleOptions (Some paired) None None.

(** The same options with another tail type. *)
Definition withTail (options : CIOptions) (tt : option TailType) : CIOptions :=
  mkCIOptions (isNormal options) (knownVariance options)
    (populationVariance options) tt.


(** The polynomial of the rational approximation, in Horner form. *)
Definition erfPoly (t : R) : R :=
  ((((((1.061405429 * t + -1.453152027) * t) + 1.421413741) * t
     + -0.284496736) * t + 0.254829592) * t)%R.

Definition erfT (ax : R) : R := (1 / (1 + 0.3275911 * ax))%R.

(** The value of [erf] on a non-negative argument. *)
Definition erfAbs (ax : R) : R :=
  (1 - erfPoly (erfT ax) * exp (- ax * ax))%R.

(** The argument of the square root, for [|x| = u < 1]. *)
Definition sqrtArgOf (u : R) : R :=
  (- ln (1 - u * u) - 2 * ln 2 - 0.140012 * ln (1 - u * u))%R.

(** The approximate normal quantile both functions compute, at the upper
    tail probability [p]. *)
Definition zOf (p : num) : num :=
  Math_sqrt (Fin 2)
  * PowerAnalysis.inverseErrorFunction (Fin 2 * (Fin 1 - p) - Fin 1).

(** The tail probability of the critical value. *)
Definition alphaOf (testType : TestType) (alpha : num) : num :=
  match testType with
  | two => alpha / Fin 2
  | _ => alpha
  end.

(** [z = sqrt 2 * sqrt (sqrtArgOf 0.9)], about 1.007, stands for the
    quantile at 0.05; the quantile at 0.95 is its opposite. *)
Definition z05 : R := (sqrt 2 * sqrt (sqrtArgOf 0.9))%R.

Definition sample_1_to_5 : list num := map Fin [1; 2; 3; 4; 5]%R.

Definition wide_uniform : GoodnessOfFit.Parameters :=
  [("a"%string, Fin (-5)); ("b"%string, Fin 15)].

(** A state of the merging loop whose two arrays are finite. *)
Definition finiteState (s : GoodnessOfFit.MergeState) (es os : list R)
  : Prop :=
  GoodnessOfFit.m_expected s = map Fin es
  /\ GoodnessOfFit.m_observed s = map Fin os
  /\ length es = length os.

(** What the pass over the data maintains: the keys of the map are the
    values seen, without repetition, each with its number of occurrences,
    and [maxFreq] is the largest of these numbers. *)
Definition modeState (seen : list num) (s : list (num * nat) * nat) : Prop :=
  let '(m, mx) := s in
  NoDup (map fst m)
  /\ (forall k, In k (map fst m) <-> In k seen)
  /\ (forall k, freq k m = count_occ num_eq_dec seen k)
  /\ (forall k, (count_occ num_eq_dec seen k <= mx)%nat)
  /\ (seen = [] /\ mx = O
      \/ exists k, In k seen /\ count_occ num_eq_dec seen k = mx).

End Vocabulary.

Section RealVocabulary.

(** The slope of [erfPoly] between two points: its divided difference. *)
Definition erfPolySlope (u v : R) : R :=
  0.254829592 + -0.284496736 * (u + v)
  + 1.421413741 * (u * u + u * v + v * v)
  + -1.453152027 * (u * u * u + u * u * v + u * v * v + v * v * v)
  + 1.061405429 * (u * u * u * u + u * u * u * v + u * u * v * v
                   + u * v * v * v + v * v * v * v).

(** The value of [normalCDF] on a finite argument. *)
Definition RnormalCDF (x : R) : R :=
  0.5 * (1 + (if Rle_dec 0 (x / sqrt 2) then 1 else -1)
             * erfAbs (Rabs (x / sqrt 2))).

End RealVocabulary.

(** * Properties *)

(** ** Deciding comparisons of reals *)

Lemma Rltb_true (x y : R) : x < y -> Rltb x y = true.
Proof.
  intros H; unfold Rltb; destruct (Rlt_dec x y); [reflexivity | contradiction].
Qed.

Lemma Rltb_false (x y : R) : y <= x -> Rltb x y = false.
Proof. intros H; unfold Rltb; destruct (Rlt_dec x y); [lra | reflexivity]. Qed.

Lemma Rleb_true (x y : R) : x <= y -> Rleb x y = true.
Proof.
  intros H; unfold Rleb; destruct (Rle_dec x y); [reflexivity | contradiction].
Qed.

Lemma Rleb_false (x y : R) : y < x -> Rleb x y = false.
Proof. intros H; unfold Rleb; destruct (Rle_dec x y); [lra | reflexivity]. Qed.

Lemma Reqb_true (x y : R) : x = y -> Reqb x y = true.
Proof.
  intros H; unfold Reqb; destruct (Req_dec_T x y);
    [reflexivity | contradiction].
Qed.

Lemma Reqb_false (x y : R) : x <> y -> Reqb x y = false.
Proof.
  intros H; unfold Reqb; destruct (Req_dec_T x y);
    [contradiction | reflexivity].
Qed.

Lemma Rltb_spec (x y : R) : Rltb x y = true <-> x < y.
Proof.
  unfold Rltb; destruct (Rlt_dec x y); split; intros; try assumption;
    try reflexivity; [discriminate | contradiction].
Qed.

Lemma Rleb_spec (x y : R) : Rleb x y = true <-> x <= y.
Proof.
  unfold Rleb; destruct (Rle_dec x y); split; intros; try assumption;
    try reflexivity; [discriminate | contradiction].
Qed.

(** Settles the comparisons of closed rational expressions in the goal. *)
Ltac decide_R :=
  repeat match goal with
    | |- context [Rltb ?x ?y] =>
        first [ rewrite (Rltb_true x y) by lra
              | rewrite (Rltb_false x y) by lra ]
    | |- context [Rleb ?x ?y] =>
        first [ rewrite (Rleb_true x y) by lra
              | rewrite (Rleb_false x y) by lra ]
    | |- context [Reqb ?x ?y] =>
        first [ rewrite (Reqb_true x y) by lra
              | rewrite (Reqb_false x y) by lra ]
    end.

(** ** Finite samples *)

Section FiniteSamples.

Import Statistics.
Local Open Scope js_scope.

Lemma sum_fin_acc (xs : list R) (a : R) :
  fold_left (fun acc val => acc + val) (map Fin xs) (Fin a)
  = Fin (fold_left Rplus xs a).
Proof.
  revert a; induction xs as [|x xs IH]; intros a; simpl; [reflexivity|].
  apply IH.
Qed.

Lemma sum_fin (xs : list R) : sum (map Fin xs) = Fin (Rsum xs).
Proof. apply sum_fin_acc. Qed.

Lemma sumPow_fin_acc (k : nat) (m : R) (xs : list R) (a : R) :
  fold_left (fun acc val => acc + Math_pow (val - Fin m) (S k))
            (map Fin xs) (Fin a)
  = Fin (fold_left (fun acc x => (acc + (x - m) ^ S k)%R) xs a).
Proof.
  revert a; induction xs as [|x xs IH]; intros a; [reflexivity|].
  cbn [map fold_left]. rewrite <- IH. reflexivity.
Qed.

Lemma sumPow_fin (k : nat) (m : R) (xs : list R) :
  sumPow (S k) (Fin m) (map Fin xs) = Fin (Rmoment (S k) m xs).
Proof. apply sumPow_fin_acc. Qed.

Lemma moment2_nonneg_acc (m : R) (xs : list R) (a : R) :
  (0 <= a)%R ->
  (0 <= fold_left (fun acc x => (acc + (x - m) ^ 2)%R) xs a)%R.
Proof.
  revert a; induction xs as [|x xs IH]; intros a Ha; simpl; [exact Ha|].
  apply IH. pose proof (Rle_0_sqr (x - m)) as Hsq. unfold Rsqr in Hsq. lra.
Qed.

Lemma moment2_nonneg (m : R) (xs : list R) : (0 <= Rmoment 2 m xs)%R.
Proof. apply moment2_nonneg_acc; lra. Qed.

Lemma INR_length_pos {A : Type} (xs : list A) :
  xs <> [] -> (0 < INR (length xs))%R.
Proof.
  destruct xs; [congruence|]. intros _. apply lt_0_INR. simpl; lia.
Qed.

Lemma Rvariance_nonneg (xs : list R) : xs <> [] -> (0 <= Rvariance xs)%R.
Proof.
  intros H. unfold Rvariance.
  apply Rmult_le_pos; [apply moment2_nonneg|].
  left. apply Rinv_0_lt_compat, INR_length_pos, H.
Qed.

Lemma isEmpty_map_fin (xs : list R) :
  xs <> [] -> isEmpty (map Fin xs) = false.
Proof. destruct xs; [congruence | reflexivity]. Qed.

Lemma len_fin (xs : list R) : len (map Fin xs) = Fin (INR (length xs)).
Proof. unfold len, of_nat. now rewrite length_map. Qed.

Lemma div_fin (x y : R) : y <> 0%R -> Fin x / Fin y = Fin (x / y).
Proof. intros H. unfold div. now rewrite Reqb_false. Qed.

Lemma calculateMean_fin (xs : list R) :
  xs <> [] -> calculateMean (map Fin xs) = Ok (Fin (Rmean xs)).
Proof.
  intros H. unfold calculateMean. rewrite isEmpty_map_fin by exact H.
  rewrite sum_fin, len_fin, div_fin; [reflexivity|].
  apply Rgt_not_eq, INR_length_pos, H.
Qed.

Lemma calculateVariance_fin (xs : list R) :
  xs <> [] -> calculateVariance (map Fin xs) = Ok (Fin (Rvariance xs)).
Proof.
  intros H. unfold calculateVariance. rewrite isEmpty_map_fin by exact H.
  rewrite calculateMean_fin by exact H. cbn [bind].
  rewrite sumPow_fin, len_fin, div_fin; [reflexivity|].
  apply Rgt_not_eq, INR_length_pos, H.
Qed.

Lemma calculateStd_fin (xs : list R) :
  xs <> [] -> calculateStd (map Fin xs) = Ok (Fin (sqrt (Rvariance xs))).
Proof.
  intros H. unfold calculateStd. rewrite calculateVariance_fin by exact H.
  cbn [bind Math_sqrt]. rewrite Rltb_false; [reflexivity|].
  apply Rvariance_nonneg, H.
Qed.

End FiniteSamples.

(** ** The t table *)

Section TTable.

Import Statistics.

Lemma tTable_rows_increasing (df : Z) (row : TRow) :
  tTable df = Some row ->
  (0 < t90 row /\ t90 row < t95 row /\ t95 row < t99 row)%R.
Proof.
  unfold tTable. intros H.
  repeat match type of H with
         | context [match ?x with _ => _ end] => destruct x; try discriminate H
         end;
    injection H as <-; cbn [t90 t95 t99]; lra.
Qed.

Lemma largestRow_increasing :
  (0 < t90 largestRow /\ t90 largestRow < t95 largestRow
   /\ t95 largestRow < t99 largestRow)%R.
Proof. cbn; lra. Qed.

Lemma rowOf_increasing (df : Z) :
  (0 < t90 (rowOf df) /\ t90 (rowOf df) < t95 (rowOf df)
   /\ t95 (rowOf df) < t99 (rowOf df))%R.
Proof.
  unfold rowOf. destruct (tTable _) as [row|] eqn:E.
  - exact (tTable_rows_increasing _ _ E).
  - exact largestRow_increasing.
Qed.

Lemma getApproximateTCriticalValue_row (df : Z) (cl : num) :
  getApproximateTCriticalValue df cl = rowEntry (rowOf df) cl.
Proof. reflexivity. Qed.

Lemma rowEntry_fin (row : TRow) (cl : num) :
  { c : R | rowEntry row cl = Fin c
            /\ (c = t90 row \/ c = t95 row \/ c = t99 row) }.
Proof.
  unfold rowEntry.
  destruct cl as [c| | |]; try (eexists; split; [reflexivity|tauto]).
  destruct (Reqb c 0.90); [eexists; split; [reflexivity|tauto]|].
  destruct (Reqb c 0.95); [eexists; split; [reflexivity|tauto]|].
  destruct (Reqb c 0.99); eexists; split; try reflexivity; tauto.
Qed.

Lemma getApproximateTCriticalValue_fin (df : Z) (cl : num) :
  exists c : R, getApproximateTCriticalValue df cl = Fin c /\ (0 < c)%R.
Proof.
  rewrite getApproximateTCriticalValue_row.
  destruct (rowEntry_fin (rowOf df) cl) as [c [E Hc]].
  exists c; split; [exact E|].
  pose proof (rowOf_increasing df). destruct Hc as [->|[->| ->]]; lra.
Qed.

(** The loop of the lookup stops because its condition fails, never
    because the fuel [Z.to_nat df] runs out. *)
Lemma findClosestDf_exit (fuel : nat) (df : Z) :
  (df - 1 <= Z.of_nat fuel)%Z ->
  let r := findClosestDf fuel df in
  negb (inTable r) && (1 <? r)%Z = false.
Proof.
  revert df; induction fuel as [|fuel IH]; intros df Hf; cbn [findClosestDf].
  - destruct (inTable df); [reflexivity|]. cbn.
    apply Z.ltb_ge. lia.
  - destruct (negb (inTable df) && (1 <? df)%Z) eqn:E; [|exact E].
    apply IH. lia.
Qed.

Lemma findClosestDf_stops (df : Z) :
  let r := findClosestDf (Z.to_nat df) df in
  negb (inTable r) && (1 <? r)%Z = false.
Proof. apply findClosestDf_exit. lia. Qed.

End TTable.

(** ** Parameter estimation *)

Section Estimation.

Import Statistics.
Local Open Scope string_scope.

(** With no statistics passed in, both estimators compute the sample mean
    and the square root of the population variance. *)
Lemma calculateMLE_normal_closed_form (xs : list R) :
  xs <> [] ->
  calculateMLE (map Fin xs) "normal" None
  = Ok [("mean", Fin (Rmean xs)); ("std", Fin (sqrt (Rvariance xs)))].
Proof.
  intros H. unfold calculateMLE, meanAndVariance.
  cbn [String.eqb Ascii.eqb Bool.eqb field passedVariance truthy_opt negb orb].
  rewrite sum_fin, len_fin, div_fin
    by (apply Rgt_not_eq, INR_length_pos, H).
  rewrite sumPow_fin, div_fin by (apply Rgt_not_eq, INR_length_pos, H).
  cbn [Math_sqrt]. rewrite Rltb_false by (apply Rvariance_nonneg, H).
  reflexivity.
Qed.

(** C9: for every sample (the non-empty ones included) and whatever
    statistics are passed along, [calculateMLE(data, 'normal')] and
    [calculateMoM(data, 'normal')] return the same object, and that object
    holds exactly the two estimates [mean] and [std]; for a finite
    non-empty sample and no statistics passed along they are the sample
    mean and the square root of the population variance. *)
Theorem normal_MLE_MoM_identical :
  (forall (data : list num) (basicStats : option BasicStats),
     calculateMLE data "normal" basicStats
     = calculateMoM data "normal" basicStats
     /\ exists mean std : num,
          calculateMLE data "normal" basicStats
          = Ok [("mean", mean); ("std", std)])
  /\ (forall xs : list R,
        xs <> [] ->
        calculateMLE (map Fin xs) "normal" None
        = Ok [("mean", Fin (Rmean xs)); ("std", Fin (sqrt (Rvariance xs)))]
        /\ calculateMoM (map Fin xs) "normal" None
           = Ok [("mean", Fin (Rmean xs)); ("std", Fin (sqrt (Rvariance xs)))]).
Proof.
  split.
  - intros data basicStats. split; [reflexivity|].
    unfold calculateMLE. cbn [String.eqb Ascii.eqb Bool.eqb].
    destruct (meanAndVariance data _ _) as [mean variance].
    now exists mean, (Math_sqrt variance).
  - intros xs H. split; exact (calculateMLE_normal_closed_form xs H).
Qed.

Lemma normal_MLE_MoM_identical_witness :
  calculateMLE (map Fin [1; 2; 3; 4; 5]%R) "normal" None
  = Ok [("mean", Fin (Rmean [1; 2; 3; 4; 5]%R));
        ("std", Fin (sqrt (Rvariance [1; 2; 3; 4; 5]%R)))]
  /\ calculateMoM (map Fin [1; 2; 3; 4; 5]%R) "normal" None
     = Ok [("mean", Fin (Rmean [1; 2; 3; 4; 5]%R));
           ("std", Fin (sqrt (Rvariance [1; 2; 3; 4; 5]%R)))].
Proof.
  apply (proj2 normal_MLE_MoM_identical [1; 2; 3; 4; 5]%R). discriminate.
Defined.

End Estimation.

(** ** Error behaviour *)

Section Errors.

Import Statistics.

Lemma calculateMean_nonempty (data : list num) :
  data <> [] -> exists mean, calculateMean data = Ok mean.
Proof.
  intros H. unfold calculateMean. destruct data; [congruence|].
  eexists; reflexivity.
Qed.

Lemma calculateStd_nonempty (data : list num) :
  data <> [] -> exists std, calculateStd data = Ok std.
Proof.
  intros H. unfold calculateStd, calculateVariance.
  destruct (calculateMean_nonempty data H) as [m Hm]. rewrite Hm.
  destruct data; [congruence|]. eexists; reflexivity.
Qed.

Lemma length_neq_eqb (n m : nat) : n <> m -> (n =? m)%nat = false.
Proof. intros H. now apply Nat.eqb_neq. Qed.

(** The paired branch of the two-sample interval checks emptiness before
    length. *)
Lemma paired_interval_empty_first (data2 : list num) (cl : num) :
  calculateTwoSampleConfidenceInterval [] data2 cl pairedOptions
  = Throw EmptyDataError.
Proof. reflexivity. Qed.

(** C10, refuted as stated: the paired two-sample interval, given an empty
    first array and a one-element second array (different lengths), throws
    the empty-data error, not the length-mismatch error. *)
Lemma paired_interval_mismatch_counterexample :
  length ([] : list num) <> length [Fin 1]
  /\ calculateTwoSampleConfidenceInterval [] [Fin 1] (Fin 0.95) pairedOptions
     = Throw EmptyDataError
  /\ calculateTwoSampleConfidenceInterval [] [Fin 1] (Fin 0.95) pairedOptions
     <> Throw LengthMismatch_paired.
Proof.
  split; [cbn; lia|]. split; [reflexivity|].
  rewrite paired_interval_empty_first.
  unfold EmptyDataError, LengthMismatch_paired.
  intros H. inversion H.
Qed.

(** C10, amended: every descriptive statistic throws the empty-data error
    on an empty array; [calculateDifferences] and [calculatePairedMeanCI]
    throw the length-mismatch error whenever the lengths differ; the paired
    branch of [calculateTwoSampleConfidenceInterval] throws it when the
    lengths differ and both arrays are non-empty. *)
Theorem descriptive_and_paired_errors :
  calculateMean [] = Throw EmptyDataError
  /\ calculateMedian [] = Throw EmptyDataError
  /\ calculateMode [] = Throw EmptyDataError
  /\ calculateVariance [] = Throw EmptyDataError
  /\ calculateStd [] = Throw EmptyDataError
  /\ calculateStdDev [] = Throw EmptyDataError
  /\ (forall basicStats, calculateSkewness [] basicStats = Throw EmptyDataError)
  /\ (forall basicStats, calculateKurtosis [] basicStats = Throw EmptyDataError)
  /\ calculateQuartiles [] = Throw EmptyDataError
  /\ (forall before after : list num,
        length before <> length after ->
        calculateDifferences before after = Throw LengthMismatch_differences)
  /\ (forall (before after : list num) (cl : num),
        length before <> length after ->
        calculatePairedMeanCI before after cl
        = Throw LengthMismatch_differences)
  /\ (forall (data1 data2 : list num) (cl : num) (options : TwoSampleOptions),
        ts_method options = Some paired ->
        data1 <> [] -> data2 <> [] ->
        length data1 <> length data2 ->
        calculateTwoSampleConfidenceInterval data1 data2 cl options
        = Throw LengthMismatch_paired).
Proof.
  repeat (split; [reflexivity|]).
  assert (D : forall before after : list num,
             length before <> length after ->
             calculateDifferences before after
             = Throw LengthMismatch_differences).
  { intros before after H. unfold calculateDifferences.
    now rewrite length_neq_eqb. }
  split; [exact D|]. split.
  - intros before after cl H. unfold calculatePairedMeanCI.
    now rewrite D.
  - intros data1 data2 cl options Hm H1 H2 Hl.
    unfold calculateTwoSampleConfidenceInterval.
    destruct (calculateMean_nonempty data1 H1) as [m1 E1].
    destruct (calculateMean_nonempty data2 H2) as [m2 E2].
    rewrite E1, E2, Hm. cbn [bind default].
    destruct data1; [congruence|]. destruct data2; [congruence|].
    cbn [isEmpty orb]. rewrite length_neq_eqb by exact Hl. reflexivity.
Qed.

Lemma descriptive_and_paired_errors_witness :
  calculateDifferences [Fin 1] [Fin 1; Fin 2] = Throw LengthMismatch_differences
  /\ calculatePairedMeanCI [Fin 1] [Fin 1; Fin 2] (Fin 0.95)
     = Throw LengthMismatch_differences
  /\ calculateTwoSampleConfidenceInterval [Fin 1] [Fin 1; Fin 2] (Fin 0.95)
       pairedOptions
     = Throw LengthMismatch_paired.
Proof.
  destruct descriptive_and_paired_errors
    as (_ & _ & _ & _ & _ & _ & _ & _ & _ & D & P & T).
  split; [apply D; cbn; lia|].
  split; [apply P; cbn; lia|].
  apply T; [reflexivity | discriminate | discriminate | cbn; lia].
Defined.

End Errors.

(** ** Confidence intervals and hypothesis tests *)

Section Intervals.

Import Statistics.
Local Open Scope js_scope.

Lemma standardErrorOf_nonempty (data : list num) (options : CIOptions) :
  data <> [] -> exists se, standardErrorOf data options = Ok se.
Proof.
  intros H. unfold standardErrorOf.
  destruct (calculateStd_nonempty data H) as [std E]. rewrite E.
  destruct (default false (knownVariance options)),
    (populationVariance options); eexists; reflexivity.
Qed.

Lemma standardErrorOf_withTail (data : list num) (options : CIOptions)
  (tt : option TailType) :
  standardErrorOf data (withTail options tt) = standardErrorOf data options.
Proof. reflexivity. Qed.

(** The shape of every interval [calculateConfidenceInterval] returns. *)
Lemma calculateConfidenceInterval_shape (data : list num) (cl : num)
  (options : CIOptions) (mean se : num) :
  data <> [] ->
  calculateMean data = Ok mean ->
  standardErrorOf data options = Ok se ->
  calculateConfidenceInterval data cl options
  = let cv := fst (criticalValueOf (length data) cl options) in
    Ok (mkCI (mean - cv * se) (mean + cv * se) (cv * se)
          (snd (criticalValueOf (length data) cl options)) cv).
Proof.
  intros H Em Es. unfold calculateConfidenceInterval.
  destruct data; [congruence|]. cbn [isEmpty].
  rewrite Em, Es. cbn [bind].
  destruct (criticalValueOf _ cl options); reflexivity.
Qed.

Lemma sqrt_INR_length_pos {A : Type} (xs : list A) :
  xs <> [] -> (0 < sqrt (INR (length xs)))%R.
Proof. intros H. apply sqrt_lt_R0, INR_length_pos, H. Qed.

Lemma Math_sqrt_len_fin (xs : list R) :
  xs <> [] ->
  Math_sqrt (len (map Fin xs)) = Fin (sqrt (INR (length xs))).
Proof.
  intros H. rewrite len_fin. cbn [Math_sqrt].
  rewrite Rltb_false; [reflexivity|].
  left. apply INR_length_pos, H.
Qed.

(** On a finite sample with the variance not declared known, the standard
    error is the finite number [std / sqrt n]. *)
Lemma standardErrorOf_fin (xs : list R) (options : CIOptions) :
  xs <> [] ->
  default false (knownVariance options) = false ->
  standardErrorOf (map Fin xs) options
  = Ok (Fin (sqrt (Rvariance xs) / sqrt (INR (length xs)))).
Proof.
  intros H Hk. unfold standardErrorOf. rewrite Hk.
  rewrite calculateStd_fin by exact H. cbn [bind].
  rewrite Math_sqrt_len_fin by exact H.
  rewrite div_fin; [reflexivity|].
  apply Rgt_not_eq, sqrt_INR_length_pos, H.
Qed.

(** On the t path a finite sample gets finite bounds. *)
Lemma calculateConfidenceInterval_t_fin (xs : list R) (cl : num)
  (options : CIOptions) :
  xs <> [] ->
  default false (knownVariance options) = false ->
  default false (isNormal options) || (length xs <=? 30)%nat = true ->
  exists c : R,
    getApproximateTCriticalValue (Z.of_nat (length xs) - 1) cl = Fin c
    /\ calculateConfidenceInterval (map Fin xs) cl options
       = Ok (mkCI (Fin (Rmean xs - c * RstdErr xs))
                  (Fin (Rmean xs + c * RstdErr xs))
                  (Fin (c * RstdErr xs))
                  "t distribution (normal, unknown variance)"
                  (Fin c)).
Proof.
  intros H Hk Ht.
  destruct (getApproximateTCriticalValue_fin (Z.of_nat (length xs) - 1) cl)
    as [c [Ec _]].
  exists c. split; [exact Ec|].
  assert (Hne : map Fin xs <> []) by (destruct xs; [congruence|discriminate]).
  rewrite (calculateConfidenceInterval_shape _ cl options _ _ Hne
             (calculateMean_fin xs H) (standardErrorOf_fin xs options H Hk)).
  unfold criticalValueOf. rewrite Hk, length_map, Ht.
  cbn [fst snd]. rewrite Ec. reflexivity.
Qed.

(** C1: the statistics utility drops the tail type.  For the one-element
    sample [[1]] at level 0.95 a left-tailed request gets a finite lower
    bound, not [-Infinity], and a right-tailed request a finite upper
    bound, not [+Infinity].  The backup copy of the function reads the
    tail type and returns the infinite bounds
    ([sibling_copy_follows_tail_type]). *)
Theorem tail_type_counterexample :
  exists ciL ciR : ConfidenceInterval,
    calculateConfidenceInterval [Fin 1] (Fin 0.95)
      (mkCIOptions None None None (Some left_tailed)) = Ok ciL
    /\ lower ciL <> NInf
    /\ calculateConfidenceInterval [Fin 1] (Fin 0.95)
         (mkCIOptions None None None (Some right_tailed)) = Ok ciR
    /\ upper ciR <> PInf.
Proof.
  assert (H : [1%R] <> []) by discriminate.
  destruct (calculateConfidenceInterval_t_fin [1%R] (Fin 0.95)
              (mkCIOptions None None None (Some left_tailed))
              H eq_refl eq_refl) as [c [_ EL]].
  destruct (calculateConfidenceInterval_t_fin [1%R] (Fin 0.95)
              (mkCIOptions None None None (Some right_tailed))
              H eq_refl eq_refl) as [c' [_ ER]].
  eexists; eexists.
  split; [exact EL|]. split; [discriminate|].
  split; [exact ER|]. discriminate.
Qed.

(** The extent of the omission: for every non-empty sample and whatever
    tail type the caller puts into the options,
    [calculateConfidenceInterval] returns the two-sided interval
    [[mean - E, mean + E]] with [E = criticalValue * standardError]; the
    tail type is not read. *)
Lemma confidence_interval_ignores_tail_type (data : list num) (cl : num)
  (options : CIOptions) (tt : option TailType) :
  data <> [] ->
  exists (mean standardError : num) (ci : ConfidenceInterval),
    calculateMean data = Ok mean
    /\ standardErrorOf data options = Ok standardError
    /\ calculateConfidenceInterval data cl (withTail options tt) = Ok ci
    /\ calculateConfidenceInterval data cl options = Ok ci
    /\ marginOfError ci = criticalValue ci * standardError
    /\ lower ci = mean - marginOfError ci
    /\ upper ci = mean + marginOfError ci.
Proof.
  intros H.
  destruct (calculateMean_nonempty data H) as [mean Em].
  destruct (standardErrorOf_nonempty data options H) as [se Es].
  exists mean, se. eexists.
  split; [exact Em|]. split; [exact Es|].
  split; [|split].
  - rewrite (calculateConfidenceInterval_shape data cl _ mean se H Em).
    + reflexivity.
    + rewrite standardErrorOf_withTail; exact Es.
  - rewrite (calculateConfidenceInterval_shape data cl _ mean se H Em Es).
    reflexivity.
  - cbn [marginOfError criticalValue lower upper]. repeat split; reflexivity.
Qed.

End Intervals.

Section SiblingInterval.

Import Statistics.
Local Open Scope js_scope.

(** The backup copy of [calculateConfidenceInterval] does what the
    statistics utility leaves out: for every non-empty sample the bound
    on the open side is an explicit infinity and the other bound lies at
    the margin [E = criticalValue * standardError] from the mean. *)
Lemma sibling_copy_follows_tail_type (data : list num) (cl : num)
  (options : CIOptions) :
  data <> [] ->
  exists (mean standardError : num) (ci : ConfidenceInterval),
    calculateMean data = Ok mean
    /\ standardErrorOf data options = Ok standardError
    /\ StatisticsBackup.calculateConfidenceInterval data cl options = Ok ci
    /\ marginOfError ci = criticalValue ci * standardError
    /\ match default two_tailed (tailType options) with
       | two_tailed =>
           lower ci = mean - marginOfError ci
           /\ upper ci = mean + marginOfError ci
       | left_tailed =>
           lower ci = NInf /\ upper ci = mean + marginOfError ci
       | right_tailed =>
           lower ci = mean - marginOfError ci /\ upper ci = PInf
       end.
Proof.
  intros H.
  destruct (calculateMean_nonempty data H) as [mean Em].
  destruct (standardErrorOf_nonempty data options H) as [se Es].
  exists mean, se. unfold StatisticsBackup.calculateConfidenceInterval.
  destruct data; [congruence |]. cbn [isEmpty].
  rewrite Em, Es. cbn [bind].
  destruct (StatisticsBackup.criticalValueOf _ cl options) as [cv m].
  destruct (default two_tailed (tailType options));
    eexists; repeat split; reflexivity.
Qed.

End SiblingInterval.

Section Tests.

Import Statistics.
Local Open Scope js_scope.

(** What [performZTest] returns on a non-empty sample. *)
Lemma performZTest_nonempty (data : list num) (mu0 sigma alpha : num)
  (testType : TestType) (mean : num) :
  data <> [] ->
  calculateMean data = Ok mean ->
  exists r : ZTestResult,
    performZTest data mu0 sigma alpha testType = Ok r
    /\ z_mean r = mean
    /\ zValue r = (mean - mu0) / (sigma / Math_sqrt (len data))
    /\ z_rejected r = rejectionDecision testType (zValue r) (z_criticalValue r)
    /\ z_confidenceInterval r
       = companionInterval testType mean
           (Math_sqrt (Fin 2)
            * inverseErrorFunction (Fin 2 * (Fin 1 - alpha / Fin 2) - Fin 1))
           (sigma / Math_sqrt (len data)).
Proof.
  intros H Em. unfold performZTest.
  destruct data; [congruence|]. cbn [isEmpty]. rewrite Em. cbn [bind].
  eexists; split; [reflexivity|]. cbn. repeat split; reflexivity.
Qed.

(** What [performTTest] returns on a non-empty sample. *)
Lemma performTTest_nonempty (data : list num) (mu0 alpha : num)
  (testType : TestType) (mean std : num) :
  data <> [] ->
  calculateMean data = Ok mean ->
  calculateStd data = Ok std ->
  exists r : TTestResult,
    performTTest data mu0 alpha testType = Ok r
    /\ t_mean r = mean
    /\ tValue r = (mean - mu0) / (std / Math_sqrt (len data))
    /\ t_criticalValue r
       = match testType with
         | left =>
             - getApproximateTCriticalValue (Z.of_nat (length data) - 1)
                 (Fin 1 - alpha)
         | right =>
             getApproximateTCriticalValue (Z.of_nat (length data) - 1)
               (Fin 1 - alpha)
         | two =>
             getApproximateTCriticalValue (Z.of_nat (length data) - 1)
               (Fin 1 - alpha / Fin 2)
         end
    /\ t_rejected r = rejectionDecision testType (tValue r) (t_criticalValue r)
    /\ t_confidenceInterval r
       = companionInterval testType mean
           (getApproximateTCriticalValue (Z.of_nat (length data) - 1)
              (Fin 1 - alpha / Fin 2))
           (std / Math_sqrt (len data)).
Proof.
  intros H Em Es. unfold performTTest.
  destruct data; [congruence|]. cbn [isEmpty]. rewrite Em, Es. cbn [bind].
  eexists; split; [reflexivity|]. cbn. repeat split; reflexivity.
Qed.

(** C2, refuted as stated: on the sample [[1]] with [alpha = 0.05] the
    left-tailed t-test and the right-tailed Z-test return intervals with
    an infinite bound. *)
Lemma companion_interval_counterexample :
  (exists (r : TTestResult) (iv : Interval),
     performTTest [Fin 1] (Fin 0) (Fin 0.05) left = Ok r
     /\ t_confidenceInterval r = Some iv
     /\ is_finite (i_lower iv) = false)
  /\ (exists (r : ZTestResult) (iv : Interval),
        performZTest [Fin 1] (Fin 0) (Fin 1) (Fin 0.05) right = Ok r
        /\ z_confidenceInterval r = Some iv
        /\ is_finite (i_upper iv) = false).
Proof.
  assert (H : [Fin 1] <> []) by discriminate.
  destruct (calculateMean_nonempty _ H) as [mean Em].
  destruct (calculateStd_nonempty _ H) as [std Es].
  split.
  - destruct (performTTest_nonempty _ (Fin 0) (Fin 0.05) left _ _ H Em Es)
      as (r & Er & _ & _ & _ & _ & Ei).
    exists r. eexists. split; [exact Er|]. split; [exact Ei|]. reflexivity.
  - destruct (performZTest_nonempty _ (Fin 0) (Fin 1) (Fin 0.05) right _ H Em)
      as (r & Er & _ & _ & _ & Ei).
    exists r. eexists. split; [exact Er|]. split; [exact Ei|]. reflexivity.
Qed.

(** C2, amended: for every non-empty sample both tests return an interval
    built from the two-sided critical value [c] (at [alpha / 2]) and the
    standard error: [[mean - c*SE, mean + c*SE]] for a two-sided test,
    lower bound [-Infinity] and upper bound [mean + c*SE] for a left-tailed
    test, lower bound [mean - c*SE] and upper bound [+Infinity] for a
    right-tailed test. *)
Theorem companion_interval_follows_tail (data : list num)
  (mu0 sigma alpha : num) (testType : TestType) :
  data <> [] ->
  exists (mean std : num) (rz : ZTestResult) (rt : TTestResult),
    calculateMean data = Ok mean
    /\ calculateStd data = Ok std
    /\ performZTest data mu0 sigma alpha testType = Ok rz
    /\ performTTest data mu0 alpha testType = Ok rt
    /\ (let c := Math_sqrt (Fin 2)
                 * inverseErrorFunction
                     (Fin 2 * (Fin 1 - alpha / Fin 2) - Fin 1) in
        let se := sigma / Math_sqrt (len data) in
        z_confidenceInterval rz
        = Some match testType with
               | two => mkInterval (mean - c * se) (mean + c * se)
               | left => mkInterval NInf (mean + c * se)
               | right => mkInterval (mean - c * se) PInf
               end)
    /\ (let c := getApproximateTCriticalValue (Z.of_nat (length data) - 1)
                   (Fin 1 - alpha / Fin 2) in
        let se := std / Math_sqrt (len data) in
        t_confidenceInterval rt
        = Some match testType with
               | two => mkInterval (mean - c * se) (mean + c * se)
               | left => mkInterval NInf (mean + c * se)
               | right => mkInterval (mean - c * se) PInf
               end).
Proof.
  intros H.
  destruct (calculateMean_nonempty _ H) as [mean Em].
  destruct (calculateStd_nonempty _ H) as [std Es].
  destruct (performZTest_nonempty data mu0 sigma alpha testType mean H Em)
    as (rz & Ez & _ & _ & _ & Eiz).
  destruct (performTTest_nonempty data mu0 alpha testType mean std H Em Es)
    as (rt & Et & _ & _ & _ & _ & Eit).
  exists mean, std, rz, rt.
  repeat (split; [assumption|]).
  split; cbv zeta; [rewrite Eiz | rewrite Eit]; destruct testType; reflexivity.
Qed.

Lemma companion_interval_follows_tail_witness :
  exists (mean std : num) (rz : ZTestResult) (rt : TTestResult),
    calculateMean [Fin 1; Fin 3] = Ok mean
    /\ calculateStd [Fin 1; Fin 3] = Ok std
    /\ performZTest [Fin 1; Fin 3] (Fin 0) (Fin 1) (Fin 0.05) left = Ok rz
    /\ performTTest [Fin 1; Fin 3] (Fin 0) (Fin 0.05) left = Ok rt
    /\ (let c := Math_sqrt (Fin 2)
                 * inverseErrorFunction
                     (Fin 2 * (Fin 1 - Fin 0.05 / Fin 2) - Fin 1) in
        let se := Fin 1 / Math_sqrt (len [Fin 1; Fin 3]) in
        z_confidenceInterval rz = Some (mkInterval NInf (mean + c * se)))
    /\ (let c := getApproximateTCriticalValue 1 (Fin 1 - Fin 0.05 / Fin 2) in
        let se := std / Math_sqrt (len [Fin 1; Fin 3]) in
        t_confidenceInterval rt = Some (mkInterval NInf (mean + c * se))).
Proof.
  apply (companion_interval_follows_tail [Fin 1; Fin 3] (Fin 0) (Fin 1)
           (Fin 0.05) left).
  discriminate.
Defined.

End Tests.

Section Rejection.

Import Statistics.
Local Open Scope js_scope.

Lemma le_fin (s c : R) : le (Fin s) (Fin c) = true <-> (s <= c)%R.
Proof. apply Rleb_spec. Qed.

Lemma ge_fin (s c : R) : ge (Fin s) (Fin c) = true <-> (c <= s)%R.
Proof. apply Rleb_spec. Qed.

Lemma Rmean_0022 : Rmean [0; 0; 2; 2]%R = 1%R.
Proof. unfold Rmean, Rsum. cbn. lra. Qed.

Lemma Rvariance_0022 : Rvariance [0; 0; 2; 2]%R = 1%R.
Proof. unfold Rvariance. rewrite Rmean_0022. unfold Rmoment. cbn. lra. Qed.

Lemma sqrt_4 : sqrt 4 = 2%R.
Proof. replace 4%R with (2 * 2)%R by lra. apply sqrt_square; lra. Qed.

(** C8, refuted as stated: the right-tailed t-test of the sample
    [[0, 0, 2, 2]] against [mu0 = -0.591] at [alpha = 0.05] has a statistic
    equal to the critical value 3.182 (not strictly beyond it) and is
    rejected. *)
Lemma strict_rejection_counterexample :
  exists r : TTestResult,
    performTTest [Fin 0; Fin 0; Fin 2; Fin 2] (Fin (-0.591)) (Fin 0.05) right
    = Ok r
    /\ tValue r = Fin 3.182
    /\ t_criticalValue r = Fin 3.182
    /\ t_rejected r = true.
Proof.
  assert (H : [0; 0; 2; 2]%R <> []) by discriminate.
  assert (Hne : map Fin [0; 0; 2; 2]%R <> []) by discriminate.
  pose proof (calculateMean_fin _ H) as Em.
  pose proof (calculateStd_fin _ H) as Es.
  rewrite Rmean_0022 in Em. rewrite Rvariance_0022, sqrt_1 in Es.
  destruct (performTTest_nonempty _ (Fin (-0.591)) (Fin 0.05) right _ _
              Hne Em Es) as (r & Er & _ & Ev & Ec & Ej & _).
  exists r. split; [exact Er|].
  assert (Ev' : tValue r = Fin 3.182).
  { rewrite Ev. rewrite Math_sqrt_len_fin by exact H.
    cbn [length INR]. replace (1 + 1 + 1 + 1)%R with 4%R by lra.
    rewrite sqrt_4. cbn [sub add neg].
    rewrite (div_fin 1 2) by lra. rewrite div_fin by lra.
    f_equal. lra. }
  assert (Ec' : t_criticalValue r = Fin 3.182).
  { rewrite Ec. cbn [sub add neg]. unfold getApproximateTCriticalValue.
    cbn [length map Z.of_nat Z.sub Z.add Z.opp Pos.of_succ_nat Pos.succ
           Z.pos_sub Z.succ_double Z.pred_double Z.double Pos.pred_double
           Z.to_nat Pos.to_nat Pos.iter_op Nat.add findClosestDf inTable tTable
           negb andb].
    unfold rowEntry. decide_R. reflexivity. }
  split; [exact Ev'|]. split; [exact Ec'|].
  rewrite Ej, Ev', Ec'. apply ge_fin. lra.
Qed.

(** C8, amended: for every non-empty sample both tests decide rejection
    from the test statistic and the critical value alone, by a non-strict
    inequality: statistic at or below the critical value (left), at or
    above it (right), absolute value at or above it (two-sided).  On
    finite numbers the comparison is [<=] of reals, so a statistic equal
    to the critical value is rejected. *)
Theorem rejection_by_nonstrict_inequality (data : list num)
  (mu0 sigma alpha : num) (testType : TestType) :
  data <> [] ->
  (exists (rz : ZTestResult) (rt : TTestResult),
     performZTest data mu0 sigma alpha testType = Ok rz
     /\ performTTest data mu0 alpha testType = Ok rt
     /\ z_rejected rz
        = match testType with
          | left => le (zValue rz) (z_criticalValue rz)
          | right => ge (zValue rz) (z_criticalValue rz)
          | two => ge (Math_abs (zValue rz)) (z_criticalValue rz)
          end
     /\ t_rejected rt
        = match testType with
          | left => le (tValue rt) (t_criticalValue rt)
          | right => ge (tValue rt) (t_criticalValue rt)
          | two => ge (Math_abs (tValue rt)) (t_criticalValue rt)
          end)
  /\ (forall s c : R, le (Fin s) (Fin c) = true <-> (s <= c)%R)
  /\ (forall s c : R, ge (Fin s) (Fin c) = true <-> (c <= s)%R).
Proof.
  intros H.
  destruct (calculateMean_nonempty _ H) as [mean Em].
  destruct (calculateStd_nonempty _ H) as [std Es].
  destruct (performZTest_nonempty data mu0 sigma alpha testType mean H Em)
    as (rz & Ez & _ & _ & Ejz & _).
  destruct (performTTest_nonempty data mu0 alpha testType mean std H Em Es)
    as (rt & Et & _ & _ & _ & Ejt & _).
  split; [|split; [exact le_fin | exact ge_fin]].
  exists rz, rt. split; [exact Ez|]. split; [exact Et|].
  rewrite Ejz, Ejt. destruct testType; split; reflexivity.
Qed.

Lemma rejection_by_nonstrict_inequality_witness :
  exists (rz : ZTestResult) (rt : TTestResult),
    performZTest [Fin 1; Fin 3] (Fin 0) (Fin 1) (Fin 0.05) right = Ok rz
    /\ performTTest [Fin 1; Fin 3] (Fin 0) (Fin 0.05) right = Ok rt
    /\ z_rejected rz = ge (zValue rz) (z_criticalValue rz)
    /\ t_rejected rt = ge (tValue rt) (t_criticalValue rt).
Proof.
  apply (rejection_by_nonstrict_inequality [Fin 1; Fin 3] (Fin 0) (Fin 1)
           (Fin 0.05) right).
  discriminate.
Defined.

End Rejection.

(** ** The error function *)

Section ErrorFunction.

Local Open Scope js_scope.

Lemma PowerAnalysis_erf_same : PowerAnalysis.erf = Statistics.erf.
Proof. reflexivity. Qed.

Lemma GoodnessOfFit_erf_same : GoodnessOfFit.erf = Statistics.erf.
Proof. reflexivity. Qed.

Lemma PowerAnalysis_normalCDF_same :
  PowerAnalysis.normalCDF = Statistics.normalCDF.
Proof. reflexivity. Qed.

Lemma GoodnessOfFit_normalCDF_same :
  GoodnessOfFit.normalCDF = Statistics.normalCDF.
Proof. reflexivity. Qed.

Lemma erf_fin (x : R) :
  Statistics.erf (Fin x)
  = Fin ((if Rle_dec 0 x then 1 else -1) * erfAbs (Rabs x)).
Proof.
  unfold Statistics.erf.
  cbn [ge le Math_abs mul add sub neg div Math_exp].
  assert (Hd : (1 + 0.3275911 * Rabs x <> 0)%R).
  { pose proof (Rabs_pos x). lra. }
  rewrite (Reqb_false _ 0 Hd).
  cbn [ge le Math_abs mul add sub neg div Math_exp].
  unfold Rleb. destruct (Rle_dec 0 x);
    cbn [mul]; f_equal; unfold erfAbs, erfPoly, erfT; lra.
Qed.

(** In the exact model the approximation is [1e-9] at 0; rounded, the
    sum of the five coefficients gives a value next to it. *)
Lemma erfAbs_0 : erfAbs 0 = 0.000000001%R.
Proof.
  unfold erfAbs, erfT, erfPoly.
  replace (- 0 * 0)%R with 0%R by lra. rewrite exp_0.
  replace (1 / (1 + 0.3275911 * 0))%R with 1%R by (field; lra).
  lra.
Qed.

Lemma erf_0 : Statistics.erf (Fin 0) = Fin 0.000000001.
Proof.
  rewrite erf_fin, Rabs_R0, erfAbs_0.
  destruct (Rle_dec 0 0); [f_equal; lra | lra].
Qed.

Lemma erf_odd_nonzero (x : R) :
  x <> 0%R -> Statistics.erf (Fin (- x)) = - Statistics.erf (Fin x).
Proof.
  intros H. rewrite !erf_fin, Rabs_Ropp. cbn [neg]. f_equal.
  destruct (Rle_dec 0 (- x)), (Rle_dec 0 x); lra.
Qed.

Lemma Math_sqrt_2 : Math_sqrt (Fin 2) = Fin (sqrt 2).
Proof. cbn [Math_sqrt]. now rewrite Rltb_false by lra. Qed.

Lemma sqrt_2_pos : (0 < sqrt 2)%R.
Proof. apply sqrt_lt_R0; lra. Qed.

Lemma normalCDF_fin (x : R) :
  Statistics.normalCDF (Fin x)
  = Fin (0.5 * (1 + (if Rle_dec 0 (x / sqrt 2) then 1 else -1)
                    * erfAbs (Rabs (x / sqrt 2)))).
Proof.
  unfold Statistics.normalCDF. rewrite Math_sqrt_2.
  rewrite div_fin by (apply Rgt_not_eq, sqrt_2_pos).
  rewrite erf_fin. reflexivity.
Qed.

Lemma normalCDF_0 : Statistics.normalCDF (Fin 0) = Fin 0.5000000005.
Proof.
  rewrite normalCDF_fin.
  replace (0 / sqrt 2)%R with 0%R
    by (field; apply Rgt_not_eq, sqrt_2_pos).
  rewrite Rabs_R0, erfAbs_0.
  destruct (Rle_dec 0 0); [f_equal; lra | lra].
Qed.

(** C7, refuted as stated: [erf(0)] is not [0], [normalCDF(0)] is not
    [0.5], and at [x = 0] the odd symmetry fails. *)
Lemma erf_zero_counterexample :
  Statistics.erf (Fin 0) <> Fin 0
  /\ GoodnessOfFit.erf (Fin 0) <> Fin 0
  /\ Statistics.normalCDF (Fin 0) <> Fin 0.5
  /\ Statistics.erf (Fin (- 0)) <> - Statistics.erf (Fin 0).
Proof.
  rewrite GoodnessOfFit_erf_same.
  replace (- 0)%R with 0%R by lra.
  rewrite erf_0, normalCDF_0. cbn [neg].
  repeat split; intros H; injection H; lra.
Qed.

(** C7, amended: for every finite [x] other than 0, [erf(-x) = -erf(x)];
    [erf(0)] is not 0 but a small positive number, the value
    [1 - (a1 + a2 + a3 + a4 + a5)] of about [1e-9] that the rational
    approximation takes there (within [1e-15] of [1e-9], which leaves
    room for the rounding of the sum), and [normalCDF(0)] is
    [0.5000000005].  The copies of the statistics utility and of the
    goodness-of-fit module agree. *)
Theorem erf_odd_away_from_zero :
  (forall x : R, x <> 0%R ->
     Statistics.erf (Fin (- x)) = - Statistics.erf (Fin x)
     /\ GoodnessOfFit.erf (Fin (- x)) = - GoodnessOfFit.erf (Fin x))
  /\ (exists e : R,
        Statistics.erf (Fin 0) = Fin e
        /\ GoodnessOfFit.erf (Fin 0) = Fin e
        /\ (0 < e)%R /\ (Rabs (e - 1e-9) <= 1e-15)%R)
  /\ Statistics.normalCDF (Fin 0) = Fin 0.5000000005
  /\ GoodnessOfFit.normalCDF (Fin 0) = Fin 0.5000000005.
Proof.
  rewrite GoodnessOfFit_erf_same, GoodnessOfFit_normalCDF_same.
  split; [intros x H; split; apply erf_odd_nonzero, H |].
  split; [| split; apply normalCDF_0].
  exists 0.000000001%R. rewrite erf_0.
  repeat split; try lra.
  replace (0.000000001 - 1e-9)%R with 0%R by lra. rewrite Rabs_R0. lra.
Qed.

Lemma erf_odd_away_from_zero_witness :
  Statistics.erf (Fin (- 2)) = - Statistics.erf (Fin 2)
  /\ GoodnessOfFit.erf (Fin (- 2)) = - GoodnessOfFit.erf (Fin 2).
Proof.
  apply (proj1 erf_odd_away_from_zero 2%R). lra.
Defined.

End ErrorFunction.

(** ** The inverse error function *)

Section InverseErrorFunction.

Import Statistics.
Local Open Scope js_scope.

Lemma ln_2_pos : (0 < ln 2)%R.
Proof. rewrite <- ln_1. apply ln_increasing; lra. Qed.

Lemma ln_4 : ln 4 = (2 * ln 2)%R.
Proof.
  replace 4%R with (2 * 2)%R by lra. rewrite ln_mult by lra. lra.
Qed.

(** The numeric fact behind the threshold: [(10000/3111)^23 < 4^20]. *)
Lemma threshold_power : ((10000 / 3111) ^ 23 < 4 ^ 20)%R.
Proof. lra. Qed.

Lemma threshold_ln : (1.15 * ln (10000 / 3111) < 2 * ln 2)%R.
Proof.
  assert (H : (ln ((10000 / 3111) ^ 23) < ln (4 ^ 20))%R).
  { apply ln_increasing; [apply pow_lt; lra | exact threshold_power]. }
  rewrite !ln_pow in H by lra. rewrite ln_4 in H.
  replace (INR 23) with 23%R in H by (rewrite INR_IZR_INZ; reflexivity).
  replace (INR 20) with 20%R in H by (rewrite INR_IZR_INZ; reflexivity).
  lra.
Qed.

(** For [0 <= u <= 0.83] the argument of the square root is negative. *)
Lemma sqrtArgOf_negative (u : R) :
  (0 <= u <= 0.83)%R -> (sqrtArgOf u < 0)%R.
Proof.
  intros [H0 H1]. unfold sqrtArgOf.
  assert (Hu : (0.3111 <= 1 - u * u)%R) by nra.
  assert (Hl : (ln 0.3111 <= ln (1 - u * u))%R).
  { destruct Hu as [Hu|Hu];
      [left; apply ln_increasing; lra | rewrite Hu; lra]. }
  assert (Hk : ln (10000 / 3111) = (- ln 0.3111)%R).
  { replace (10000 / 3111)%R with (/ 0.3111)%R by lra.
    apply ln_Rinv; lra. }
  pose proof threshold_ln as Ht. rewrite Hk in Ht.
  assert (Hp : (ln (1 - u * u) <= 0)%R).
  { rewrite <- ln_1.
    assert (Hq : (1 - u * u <= 1)%R) by nra.
    destruct Hq as [Hq|Hq];
      [left; apply ln_increasing; lra | rewrite Hq; lra]. }
  lra.
Qed.

(** What the two copies compute on a finite argument inside [(-1, 1)]. *)
Lemma inverseErrorFunction_inside (x : R) :
  (Rabs x < 1)%R ->
  inverseErrorFunction (Fin x)
  = (if Rle_dec 0 x then Fin 1 else Fin (-1))
    * Math_sqrt (Fin (sqrtArgOf (Rabs x))).
Proof.
  intros H. unfold inverseErrorFunction.
  cbn [ge le Math_abs mul sub add neg].
  rewrite (Rleb_false 1 (Rabs x)) by lra.
  assert (Hpos : (0 < 1 + - (Rabs x * Rabs x))%R).
  { pose proof (Rabs_pos x). nra. }
  cbn [Math_log]. rewrite Rltb_false by lra.
  rewrite Reqb_false by lra.
  rewrite (Rltb_false 2 0) by lra. rewrite (Reqb_false 2 0) by lra.
  cbn [mul add sub neg].
  replace (1 + - (Rabs x * Rabs x))%R with (1 - Rabs x * Rabs x)%R by lra.
  replace (- ln (1 - Rabs x * Rabs x) + - (2 * ln 2)
           + - (0.140012 * ln (1 - Rabs x * Rabs x)))%R
    with (sqrtArgOf (Rabs x)) by (unfold sqrtArgOf; lra).
  unfold Rleb. destruct (Rle_dec 0 x); reflexivity.
Qed.

Lemma inverseErrorFunction_NaN (x : R) :
  (Rabs x <= 0.83)%R -> inverseErrorFunction (Fin x) = NaN.
Proof.
  intros H. rewrite inverseErrorFunction_inside by lra.
  cbn [Math_sqrt]. rewrite Rltb_true.
  - destruct (Rle_dec 0 x); reflexivity.
  - apply sqrtArgOf_negative. split; [apply Rabs_pos | exact H].
Qed.

Lemma guarded_inverseErrorFunction_infinite (x : R) :
  (Rabs x <= 0.83)%R ->
  PowerAnalysis.inverseErrorFunction (Fin x)
  = if Rle_dec 0 x then PInf else NInf.
Proof.
  intros H. unfold PowerAnalysis.inverseErrorFunction.
  cbn [ge le Math_abs mul sub add neg].
  rewrite (Rleb_false 1 (Rabs x)) by lra.
  assert (Hpos : (0 < 1 + - (Rabs x * Rabs x))%R).
  { pose proof (Rabs_pos x). nra. }
  rewrite (Rleb_false _ 0 Hpos).
  cbn [Math_log]. rewrite Rltb_false by lra.
  rewrite Reqb_false by lra.
  rewrite (Rltb_false 2 0) by lra. rewrite (Reqb_false 2 0) by lra.
  cbn [mul add sub neg lt].
  replace (1 + - (Rabs x * Rabs x))%R with (1 - Rabs x * Rabs x)%R by lra.
  replace (- ln (1 - Rabs x * Rabs x) + - (2 * ln 2)
           + - (0.140012 * ln (1 - Rabs x * Rabs x)))%R
    with (sqrtArgOf (Rabs x)) by (unfold sqrtArgOf; lra).
  rewrite Rltb_true
    by (apply sqrtArgOf_negative; split; [apply Rabs_pos | exact H]).
  unfold Rleb.
  destruct (Rle_dec 0 x); cbn [mul]; unfold signed_inf; decide_R; reflexivity.
Qed.

(** The z critical value at the level 0.8. *)
Lemma zCriticalValue_08 : zCriticalValue (Fin 0.8) = NaN.
Proof.
  unfold zCriticalValue. cbn [eq]. decide_R.
  cbn [sub add neg div mul]. decide_R. cbn [sub add neg div mul].
  rewrite inverseErrorFunction_NaN.
  - rewrite Math_sqrt_2. reflexivity.
  - rewrite Rabs_right by lra. lra.
Qed.

Lemma mul_NaN_l (a : num) : NaN * a = NaN.
Proof. reflexivity. Qed.

Lemma sub_NaN_r (a : num) : a - NaN = NaN.
Proof. destruct a; reflexivity. Qed.

Lemma add_NaN_r (a : num) : a + NaN = NaN.
Proof. destruct a; reflexivity. Qed.

(** C5: inside the documented domain, for every [x] with
    [0 < |x| <= 0.83] (in particular [x = 0.5]), the copy of
    [inverseErrorFunction] in the statistics utility takes the square root
    of a negative number and returns [NaN], where the copy of the
    power-analysis module returns the infinity with the sign of [x]; and
    for every non-empty sample, [calculateConfidenceInterval] with
    [knownVariance] at the level 0.8 returns [NaN] as critical value, as
    margin of error and as both bounds. *)
Theorem unguarded_inverse_error_function_NaN :
  (forall x : R, (0 < Rabs x <= 0.83)%R ->
     (sqrtArgOf (Rabs x) < 0)%R
     /\ inverseErrorFunction (Fin x) = NaN
     /\ PowerAnalysis.inverseErrorFunction (Fin x)
        = if Rle_dec 0 x then PInf else NInf)
  /\ inverseErrorFunction (Fin 0.5) = NaN
  /\ PowerAnalysis.inverseErrorFunction (Fin 0.5) = PInf
  /\ (forall (data : list num) (options : CIOptions),
        data <> [] ->
        knownVariance options = Some true ->
        exists ci : ConfidenceInterval,
          calculateConfidenceInterval data (Fin 0.8) options = Ok ci
          /\ criticalValue ci = NaN
          /\ marginOfError ci = NaN
          /\ lower ci = NaN
          /\ upper ci = NaN).
Proof.
  split; [|split; [|split]].
  - intros x [H0 H1]. split; [|split].
    + apply sqrtArgOf_negative. lra.
    + apply inverseErrorFunction_NaN, H1.
    + apply guarded_inverseErrorFunction_infinite, H1.
  - apply inverseErrorFunction_NaN. rewrite Rabs_right; lra.
  - rewrite guarded_inverseErrorFunction_infinite
      by (rewrite Rabs_right; lra).
    destruct (Rle_dec 0 0.5); [reflexivity | lra].
  - intros data options H Hk.
    destruct (calculateMean_nonempty data H) as [mean Em].
    destruct (standardErrorOf_nonempty data options H) as [se Es].
    rewrite (calculateConfidenceInterval_shape data _ options mean se H Em Es).
    unfold criticalValueOf. rewrite Hk. cbn [default fst snd].
    rewrite zCriticalValue_08. eexists. split; [reflexivity|].
    cbn [criticalValue marginOfError lower upper].
    rewrite mul_NaN_l, sub_NaN_r, add_NaN_r. repeat split; reflexivity.
Qed.

Lemma unguarded_inverse_error_function_NaN_witness :
  ((sqrtArgOf (Rabs 0.5) < 0)%R
   /\ inverseErrorFunction (Fin 0.5) = NaN
   /\ PowerAnalysis.inverseErrorFunction (Fin 0.5)
      = if Rle_dec 0 0.5 then PInf else NInf)
  /\ exists ci : ConfidenceInterval,
       calculateConfidenceInterval [Fin 1; Fin 2] (Fin 0.8)
         (mkCIOptions None (Some true) (Some (Fin 1)) None) = Ok ci
       /\ criticalValue ci = NaN
       /\ marginOfError ci = NaN
       /\ lower ci = NaN
       /\ upper ci = NaN.
Proof.
  destruct unguarded_inverse_error_function_NaN as (Hx & _ & _ & Hci).
  split.
  - apply (Hx 0.5%R). rewrite Rabs_right; lra.
  - apply (Hci [Fin 1; Fin 2]); [discriminate | reflexivity].
Defined.

End InverseErrorFunction.

(** ** Symmetry and width of the two-sided interval *)

Section Width.

Import Statistics.
Local Open Scope js_scope.

Lemma zCriticalValue_tabulated :
  zCriticalValue (Fin 0.90) = Fin 1.645
  /\ zCriticalValue (Fin 0.95) = Fin 1.96
  /\ zCriticalValue (Fin 0.99) = Fin 2.576.
Proof.
  unfold zCriticalValue; cbn [eq]; repeat split; decide_R; reflexivity.
Qed.


(** At a level outside the table the t lookup answers with the 0.95
    entry. *)
Lemma rowEntry_fallback (row : TRow) (c : R) :
  c <> 0.90%R -> c <> 0.95%R -> c <> 0.99%R ->
  rowEntry row (Fin c) = Fin (t95 row).
Proof.
  intros H1 H2 H3. unfold rowEntry.
  now rewrite !Reqb_false by assumption.
Qed.








End Width.

(** ** Chi-square bin merging *)

Section ChiSquare.

Import GoodnessOfFit.
Local Open Scope js_scope.

Lemma findBin_range (value : num) (bins : list Bin) (i0 numBins i : nat) :
  findBin value bins i0 numBins = Some i ->
  (i0 <= i < i0 + length bins)%nat.
Proof.
  revert i0; induction bins as [|b bins IH]; intros i0 H; cbn in H;
    [discriminate|].
  destruct (if (i0 =? numBins - 1)%nat then _ else _).
  - injection H as <-. cbn [length]. lia.
  - apply IH in H. cbn [length]. lia.
Qed.

Lemma assign_length {A : Type} (l : list A) (i : nat) (v : A) :
  (i < length l)%nat -> length (assign l i v) = length l.
Proof.
  revert i; induction l as [|x l IH]; intros i H; [cbn in H; lia|].
  destruct i; cbn; [reflexivity|]. f_equal. apply IH. cbn in H. lia.
Qed.

(** The array of observed frequencies keeps one entry per bin. *)
Lemma observe_length (bins : list Bin) (data : list num) :
  length (observe bins (length bins) data) = length bins.
Proof.
  unfold observe.
  assert (G : forall (acc : list num),
             length acc = length bins ->
             length (fold_left
                       (fun observedFrequencies value =>
                          match findBin value bins 0 (length bins) with
                          | Some i =>
                              assign observedFrequencies i
                                (get observedFrequencies i + Fin 1)
                          | None => observedFrequencies
                          end) data acc) = length bins).
  { induction data as [|d data IH]; intros acc Hacc; [exact Hacc|].
    cbn [fold_left]. apply IH.
    destruct (findBin d bins 0 (length bins)) as [i|] eqn:E; [|exact Hacc].
    apply findBin_range in E. rewrite assign_length; lia. }
  apply G. apply repeat_length.
Qed.

Lemma mergeLoop_exit (fuel : nat) (s : MergeState) :
  mergeStep s = None -> mergeLoop fuel s = Some s.
Proof. intros H. destruct fuel; cbn [mergeLoop]; now rewrite H. Qed.

(** When the expected frequencies are finite, non-negative and sum to
    less than 5, every bin is merged forward into the next one, and the
    last bin left is merged into an entry that does not exist: both
    arrays end as [[NaN]]. *)
Lemma mergeLoop_total_below_5 (vs : list R) :
  forall (v : R) (o : num) (os : list num) (bins : list Bin) (fuel : nat),
    length os = length vs ->
    Forall (fun x => 0 <= x)%R vs ->
    (v + fold_right Rplus 0 vs < 5)%R ->
    (length vs + 2 <= fuel)%nat ->
    exists s' : MergeState,
      mergeLoop fuel (mkMerge 0 (Fin v :: map Fin vs) (o :: os) bins) = Some s'
      /\ m_expected s' = [NaN]
      /\ m_observed s' = [NaN].
Proof.
  induction vs as [|x vs IH]; intros v o os bins fuel Hl Hp Hs Hf.
  - destruct os; [|discriminate]. cbn in Hs.
    destruct fuel as [|[|fuel]]; [cbn in Hf; lia | cbn in Hf; lia |].
    cbn [mergeLoop mergeStep m_i m_expected m_observed m_bins length map
           Nat.ltb Nat.leb Nat.eqb get nth lt].
    rewrite (Rltb_true v 5) by lra.
    cbn [mergeLoop mergeStep m_i m_expected m_observed m_bins length map
           Nat.ltb Nat.leb Nat.eqb get nth lt Nat.add assign splice add].
    rewrite mergeLoop_exit by reflexivity.
    eexists. split; [reflexivity|]. split; reflexivity.
  - destruct os as [|o' os]; [discriminate|].
    cbn in Hs. inversion Hp as [|? ? Hx Hp']; subst.
    assert (Hnn : (0 <= fold_right Rplus 0 vs)%R).
    { clear - Hp'. induction Hp'; cbn; lra. }
    destruct fuel as [|fuel]; [cbn in Hf; lia|].
    cbn [mergeLoop mergeStep m_i m_expected m_observed m_bins length map
           Nat.ltb Nat.leb Nat.eqb get nth lt].
    rewrite (Rltb_true v 5) by lra.
    cbn [Nat.add assign splice get nth add].
    apply IH.
    + cbn in Hl. lia.
    + exact Hp'.
    + lra.
    + cbn in Hf. lia.
Qed.

(** *** A merging step with a neighbour keeps the total *)

Lemma assign_map {A B : Type} (f : A -> B) (l : list A) (i : nat) (v : A) :
  assign (map f l) i (f v) = map f (assign l i v).
Proof.
  revert i; induction l as [|x l IH]; intros [|i]; cbn; try reflexivity.
  now rewrite IH.
Qed.

Lemma splice_map {A B : Type} (f : A -> B) (l : list A) (i : nat) :
  splice (map f l) i = map f (splice l i).
Proof.
  revert i; induction l as [|x l IH]; intros [|i]; cbn; try reflexivity.
  now rewrite IH.
Qed.

Lemma get_map_fin (os : list R) (i : nat) :
  (i < length os)%nat -> get (map Fin os) i = Fin (nth i os 0%R).
Proof.
  revert i; induction os as [|x os IH]; intros [|i] H; cbn in *;
    try lia; [reflexivity|]. apply IH. lia.
Qed.

Lemma merge_backward_total (os : list R) (i : nat) :
  (S i < length os)%nat ->
  fold_right Rplus 0%R
    (splice (assign os i (nth i os 0 + nth (S i) os 0)%R) (S i))
  = fold_right Rplus 0%R os.
Proof.
  revert i; induction os as [|x os IH]; intros i H; [cbn in H; lia|].
  destruct i as [|i].
  - destruct os as [|y os]; [cbn in H; lia|]. cbn. lra.
  - cbn [nth assign splice fold_right]. rewrite IH; [reflexivity|].
    cbn in H. lia.
Qed.

Lemma merge_forward_total (os : list R) :
  (2 <= length os)%nat ->
  fold_right Rplus 0%R (splice (assign os 1 (nth 1 os 0 + nth 0 os 0)%R) 0)
  = fold_right Rplus 0%R os.
Proof.
  destruct os as [|x [|y os]]; cbn; intros H; try lia. lra.
Qed.

Lemma splice_length {A : Type} (l : list A) (i : nat) :
  (i < length l)%nat -> length (splice l i) = (length l - 1)%nat.
Proof.
  revert i; induction l as [|x l IH]; intros [|i] H; cbn in *; try lia.
  rewrite IH by lia. lia.
Qed.

(** Every turn of the merging loop keeps both arrays finite and the total
    of the observed frequencies unchanged, except the turn that merges
    the only bin left (index 0, length 1), which leaves [[NaN]] in both
    arrays. *)
Lemma mergeStep_finite (s s' : MergeState) (es os : list R) :
  finiteState s es os ->
  mergeStep s = Some s' ->
  (m_i s' = 0%nat /\ m_expected s' = [NaN] /\ m_observed s' = [NaN])
  \/ exists es' os' : list R,
       finiteState s' es' os'
       /\ fold_right Rplus 0%R os' = fold_right Rplus 0%R os
       /\ (2 * length es' - m_i s' < 2 * length es - m_i s)%nat.
Proof.
  intros (He & Ho & Hl) Hs. unfold mergeStep in Hs.
  rewrite He, Ho, length_map in Hs.
  destruct (m_i s <? length es)%nat eqn:Ei; [|discriminate].
  apply Nat.ltb_lt in Ei.
  destruct (lt (get (map Fin es) (m_i s)) (Fin 5)).
  - destruct (m_i s) as [|i] eqn:Em.
    + cbn [Nat.eqb Nat.add] in Hs. injection Hs as <-.
      cbn [m_i m_expected m_observed].
      destruct es as [|e0 [|e1 es]]; [cbn in Ei; lia | |].
      * destruct os as [|o0 [|o1 os]]; try discriminate Hl.
        left. repeat split; reflexivity.
      * destruct os as [|o0 [|o1 os]]; try discriminate Hl.
        right. exists ((e1 + e0)%R :: es), ((o1 + o0)%R :: os).
        split; [repeat split; try reflexivity; cbn in *; lia|].
        split; [cbn; lra | cbn [length]; lia].
    + cbn [Nat.eqb] in Hs. replace (S i - 1)%nat with i in Hs by lia.
      injection Hs as <-. cbn [m_i m_expected m_observed].
      rewrite !get_map_fin by lia. cbn [add].
      rewrite !assign_map, !splice_map. right.
      eexists. eexists. split; [split; [reflexivity|split; [reflexivity|]]|].
      * rewrite !splice_length by (rewrite assign_length; lia).
        rewrite !assign_length by lia. lia.
      * split; [apply merge_backward_total; lia|].
        rewrite splice_length by (rewrite assign_length; lia).
        rewrite assign_length by lia. lia.
  - injection Hs as <-. right. exists es, os. cbn [m_i].
    split; [repeat split; assumption|]. split; [reflexivity | lia].
Qed.

(** After the last bin has been merged into nothing the loop only steps
    over the [NaN] entry. *)
Lemma mergeLoop_after_orphan (fuel : nat) (s s' : MergeState) :
  m_i s = 0%nat -> m_expected s = [NaN] -> m_observed s = [NaN] ->
  mergeLoop fuel s = Some s' ->
  m_expected s' = [NaN] /\ m_observed s' = [NaN].
Proof.
  intros Hi He Ho H.
  destruct fuel as [|fuel]; cbn [mergeLoop] in H; unfold mergeStep in H;
    rewrite Hi, He in H; cbn in H; [discriminate|].
  rewrite mergeLoop_exit in H.
  - injection H as <-. cbn [m_expected m_observed].
    split; [reflexivity | exact Ho].
  - reflexivity.
Qed.

(** The merging loop on finite arrays: either the observed frequencies end
    finite with the total they started with, or both arrays end as
    [[NaN]]. *)
Lemma mergeLoop_total_or_NaN (fuel : nat) :
  forall (s s' : MergeState) (es os : list R),
    finiteState s es os ->
    mergeLoop fuel s = Some s' ->
    (m_expected s' = [NaN] /\ m_observed s' = [NaN])
    \/ exists es' os' : list R,
         finiteState s' es' os'
         /\ fold_right Rplus 0%R os' = fold_right Rplus 0%R os.
Proof.
  induction fuel as [|fuel IH]; intros s s' es os Hf H; cbn [mergeLoop] in H.
  - destruct (mergeStep s); [discriminate|]. injection H as <-.
    right. exists es, os. split; [exact Hf | reflexivity].
  - destruct (mergeStep s) as [s1|] eqn:E.
    + destruct (mergeStep_finite s s1 es os Hf E)
        as [(Hi & He & Ho) | (es1 & os1 & Hf1 & Ht & _)].
      * left. exact (mergeLoop_after_orphan fuel s1 s' Hi He Ho H).
      * destruct (IH s1 s' es1 os1 Hf1 H) as [L | (es' & os' & Hf' & Ht')].
        -- left; exact L.
        -- right. exists es', os'. split; [exact Hf'|]. lra.
    + injection H as <-. right. exists es, os.
      split; [exact Hf | reflexivity].
Qed.

(** On finite arrays the loop ends: twice the number of bins, plus two,
    is enough fuel. *)
Lemma mergeLoop_terminates (fuel : nat) :
  forall (s : MergeState) (es os : list R),
    finiteState s es os ->
    (2 * length es - m_i s + 2 <= fuel)%nat ->
    exists s' : MergeState, mergeLoop fuel s = Some s'.
Proof.
  induction fuel as [|fuel IH]; intros s es os Hf Hfuel; [lia|].
  cbn [mergeLoop]. destruct (mergeStep s) as [s1|] eqn:E;
    [|eexists; reflexivity].
  destruct (mergeStep_finite s s1 es os Hf E)
    as [(Hi & He & Ho) | (es1 & os1 & Hf1 & _ & Hm)].
  - destruct fuel as [|fuel]; [lia|].
    cbn [mergeLoop]. unfold mergeStep at 1. rewrite Hi, He. cbn.
    rewrite mergeLoop_exit by reflexivity. eexists; reflexivity.
  - apply (IH s1 es1 os1 Hf1). lia.
Qed.

(** *** Counting a finite sample into the bins *)

Lemma Math_min_fold (xs : list R) (a : R) :
  exists m : R,
    fold_left Math_min (map Fin xs) (Fin a) = Fin m
    /\ (m <= a)%R /\ Forall (fun x => m <= x)%R xs.
Proof.
  revert a; induction xs as [|x xs IH]; intros a.
  - exists a. repeat split; [lra | constructor].
  - cbn [map fold_left Math_min lt].
    destruct (Rlt_dec x a) as [H|H].
    + rewrite (Rltb_true x a H).
      destruct (IH x) as (m & E & Hm & Hall).
      exists m. split; [exact E|]. split; [lra|]. constructor; [lra|exact Hall].
    + rewrite (Rltb_false x a) by lra.
      destruct (IH a) as (m & E & Hm & Hall).
      exists m. split; [exact E|]. split; [lra|]. constructor; [lra|exact Hall].
Qed.

Lemma Math_max_fold (xs : list R) (a : R) :
  exists M : R,
    fold_left Math_max (map Fin xs) (Fin a) = Fin M
    /\ (a <= M)%R /\ Forall (fun x => x <= M)%R xs.
Proof.
  revert a; induction xs as [|x xs IH]; intros a.
  - exists a. repeat split; [lra | constructor].
  - cbn [map fold_left Math_max lt].
    destruct (Rlt_dec a x) as [H|H].
    + rewrite (Rltb_true a x H).
      destruct (IH x) as (M & E & HM & Hall).
      exists M. split; [exact E|]. split; [lra|]. constructor; [lra|exact Hall].
    + rewrite (Rltb_false a x) by lra.
      destruct (IH a) as (M & E & HM & Hall).
      exists M. split; [exact E|]. split; [lra|]. constructor; [lra|exact Hall].
Qed.

(** The smallest and the largest value of a finite non-empty sample. *)
Lemma min_max_fin (xs : list R) :
  xs <> [] ->
  exists m M : R,
    Math_min_list (map Fin xs) = Fin m
    /\ Math_max_list (map Fin xs) = Fin M
    /\ Forall (fun x => m <= x <= M)%R xs.
Proof.
  destruct xs as [|x xs]; [congruence|]. intros _.
  unfold Math_min_list, Math_max_list.
  cbn [map fold_left Math_min Math_max lt].
  destruct (Math_min_fold xs x) as (m & Em & Hm & Hmin).
  destruct (Math_max_fold xs x) as (M & EM & HM & Hmax).
  exists m, M. split; [exact Em|]. split; [exact EM|].
  constructor; [lra|].
  rewrite Forall_forall in *. intros y Hy.
  specialize (Hmin y Hy). specialize (Hmax y Hy). lra.
Qed.

(** A value between the start of a bin and the end of the last bin is
    taken by a bin. *)
Lemma findBin_hits (m w x : R) (numBins : nat) :
  forall cnt i0 : nat,
    (i0 + S cnt = numBins)%nat ->
    (m + INR i0 * w <= x)%R ->
    (x <= m + INR numBins * w)%R ->
    exists i : nat,
      findBin (Fin x)
        (map (fun i => mkBin (Fin m + of_nat i * Fin w)
                             (Fin m + of_nat (i + 1) * Fin w))
             (seq i0 (S cnt))) i0 numBins = Some i
      /\ (i < numBins)%nat.
Proof.
  induction cnt as [|cnt IH]; intros i0 Hc Hlo Hhi.
  - cbn [seq map findBin b_start b_end].
    replace (i0 =? numBins - 1)%nat with true
      by (symmetry; apply Nat.eqb_eq; lia).
    cbn [add mul of_nat ge le].
    replace (i0 + 1)%nat with numBins by lia.
    rewrite (Rleb_true _ x Hlo), (Rleb_true x _ Hhi).
    exists i0. split; [reflexivity | lia].
  - cbn [seq map findBin b_start b_end].
    replace (i0 =? numBins - 1)%nat with false
      by (symmetry; apply Nat.eqb_neq; lia).
    cbn [add mul of_nat ge le lt].
    rewrite (Rleb_true _ x Hlo). cbn [andb].
    destruct (Rlt_dec x (m + INR (i0 + 1) * w)) as [H|H].
    + rewrite (Rltb_true _ _ H). exists i0. split; [reflexivity | lia].
    + rewrite (Rltb_false x _) by lra.
      apply (IH (S i0)); [lia | | exact Hhi].
      replace (S i0) with (i0 + 1)%nat by lia. lra.
Qed.

Lemma assign_total (os : list R) (i : nat) :
  (i < length os)%nat ->
  fold_right Rplus 0%R (assign os i (nth i os 0 + 1)%R)
  = (fold_right Rplus 0%R os + 1)%R.
Proof.
  revert i; induction os as [|o os IH]; intros [|i] H; cbn in *; try lia;
    [lra|]. rewrite IH by lia. lra.
Qed.

(** Counting values that all lie within the bins adds one observation
    per value. *)
Lemma observe_fold_total (m w : R) (k : nat) (ys : list R) :
  Forall (fun x => m <= x <= m + INR (S k) * w)%R ys ->
  forall os : list R,
    length os = S k ->
    exists os' : list R,
      fold_left
        (fun observedFrequencies value =>
           match findBin value (makeBins (Fin m) (Fin w) (S k)) 0 (S k) with
           | Some i =>
               assign observedFrequencies i (get observedFrequencies i + Fin 1)
           | None => observedFrequencies
           end) (map Fin ys) (map Fin os)
      = map Fin os'
      /\ length os' = S k
      /\ fold_right Rplus 0%R os'
         = (fold_right Rplus 0%R os + INR (length ys))%R.
Proof.
  induction 1 as [|y ys [Hlo Hhi] Hall IH]; intros os Hl.
  - exists os. cbn. repeat split; [exact Hl | lra].
  - cbn [map fold_left].
    destruct (findBin_hits m w y (S k) k 0 ltac:(lia)) as (i & E & Hi);
      [cbn [INR]; lra | exact Hhi |].
    unfold makeBins. rewrite E.
    rewrite get_map_fin by lia. cbn [add]. rewrite assign_map.
    destruct (IH (assign os i (nth i os 0 + 1)%R)) as (os' & E' & Hl' & Ht).
    + rewrite assign_length; lia.
    + exists os'. split; [exact E'|]. split; [exact Hl'|].
      rewrite Ht, assign_total by lia.
      change (length (y :: ys)) with (S (length ys)). rewrite S_INR. lra.
Qed.

(** In the exact model the observed frequencies of a finite non-empty
    sample are finite and sum to the sample size. *)
Lemma observe_total (xs : list R) (k : nat) :
  xs <> [] ->
  let data := map Fin xs in
  let min := Math_min_list data in
  let max := Math_max_list data in
  let binWidth := (max - min) / of_nat (S k) in
  exists os : list R,
    observe (makeBins min binWidth (S k)) (S k) data = map Fin os
    /\ length os = S k
    /\ fold_right Rplus 0%R os = INR (length xs).
Proof.
  intros H. cbv zeta.
  destruct (min_max_fin xs H) as (m & M & -> & -> & Hall).
  assert (Hk : (0 < INR (S k))%R) by (apply lt_0_INR; lia).
  cbn [sub add neg]. unfold of_nat. rewrite div_fin by lra.
  set (w := ((M + - m) / INR (S k))%R).
  assert (HM : (m + INR (S k) * w = M)%R) by (unfold w; field; lra).
  unfold observe.
  replace (repeat (Fin 0) (S k)) with (map Fin (repeat 0%R (S k)))
    by (rewrite map_repeat; reflexivity).
  destruct (observe_fold_total m w k xs) with (os := repeat 0%R (S k))
    as (os & E & Hl & Ht).
  - rewrite HM. exact Hall.
  - apply repeat_length.
  - exists os. split; [exact E|]. split; [exact Hl|].
    rewrite Ht.
    assert (Z : fold_right Rplus 0%R (repeat 0%R (S k)) = 0%R).
    { generalize (S k). intros n. induction n as [|n IHn]; cbn; lra. }
    rewrite Z. lra.
Qed.

Lemma expect_length (data : list num) (distributionType : string)
  (parameters : Parameters) (bins : list Bin) (min max binWidth : num)
  (l : list num) :
  expect data distributionType parameters bins min max binWidth = Ok l ->
  length l = length bins.
Proof.
  unfold expect. intros H.
  destruct (String.eqb distributionType "normal");
    [injection H as <-; apply length_map|].
  destruct (String.eqb distributionType "uniform");
    [injection H as <-; apply length_map|].
  destruct (String.eqb distributionType "exponential");
    [injection H as <-; apply length_map | discriminate].
Qed.

(** The invariant and its one exception, in the exact model: for a finite
    non-empty sample, at least one bin and finite expected frequencies,
    the observed frequencies of the final bins are finite and sum to the
    sample size, unless the merging loop merged the last bin into nothing
    and left [[NaN]].  (The bin ends are exact here; rounded, the end of
    the last bin can fall below the maximum and leave it uncounted.) *)
Lemma chi_square_total_or_NaN (xs es : list R) (distributionType : string)
  (parameters : Parameters) (k fuel : nat) (r : ChiSquareResult) :
  xs <> [] ->
  (let data := map Fin xs in
   let min := Math_min_list data in
   let max := Math_max_list data in
   let binWidth := (max - min) / of_nat (S k) in
   expect data distributionType parameters (makeBins min binWidth (S k))
     min max binWidth = Ok (map Fin es)) ->
  calculateChiSquareTest fuel (map Fin xs) distributionType parameters (S k)
  = Some (Ok r) ->
  observedFrequencies r = [NaN]
  \/ exists os : list R,
       observedFrequencies r = map Fin os
       /\ fold_right Rplus 0%R os = INR (length xs).
Proof.
  intros H He Hr. cbv zeta in He. unfold calculateChiSquareTest in Hr.
  destruct (observe_total xs k H) as (os & Eo & Hl & Ht). cbv zeta in Eo.
  pose proof (expect_length _ _ _ _ _ _ _ _ He) as Hle.
  rewrite He, Eo in Hr.
  destruct (mergeLoop fuel _) as [s'|] eqn:El; [|discriminate].
  injection Hr as <-. cbn [observedFrequencies].
  assert (Hf : finiteState
                 (mkMerge 0 (map Fin es) (map Fin os)
                    (makeBins (Math_min_list (map Fin xs))
                       ((Math_max_list (map Fin xs)
                         - Math_min_list (map Fin xs)) / of_nat (S k))
                       (S k))) es os).
  { repeat split.
    rewrite length_map in Hle. unfold makeBins in Hle.
    rewrite length_map, length_seq in Hle. lia. }
  destruct (mergeLoop_total_or_NaN fuel _ s' es os Hf El)
    as [[_ L] | (es' & os' & (_ & Eo' & _) & Ht')].
  - left. exact L.
  - right. exists os'. split; [exact Eo'|]. lra.
Qed.

(** With that much fuel the test returns. *)
Lemma chi_square_returns (xs es : list R) (distributionType : string)
  (parameters : Parameters) (k fuel : nat) :
  xs <> [] ->
  (let data := map Fin xs in
   let min := Math_min_list data in
   let max := Math_max_list data in
   let binWidth := (max - min) / of_nat (S k) in
   expect data distributionType parameters (makeBins min binWidth (S k))
     min max binWidth = Ok (map Fin es)) ->
  (2 * S k + 2 <= fuel)%nat ->
  exists r : ChiSquareResult,
    calculateChiSquareTest fuel (map Fin xs) distributionType parameters (S k)
    = Some (Ok r).
Proof.
  intros H He Hfuel. cbv zeta in He. unfold calculateChiSquareTest.
  destruct (observe_total xs k H) as (os & Eo & Hl & Ht). cbv zeta in Eo.
  pose proof (expect_length _ _ _ _ _ _ _ _ He) as Hle.
  rewrite length_map in Hle. unfold makeBins in Hle.
  rewrite length_map, length_seq in Hle.
  rewrite He, Eo.
  destruct (mergeLoop_terminates fuel
              (mkMerge 0 (map Fin es) (map Fin os)
                 (makeBins (Math_min_list (map Fin xs))
                    ((Math_max_list (map Fin xs)
                      - Math_min_list (map Fin xs)) / of_nat (S k))
                    (S k))) es os) as [s' Es].
  - repeat split. lia.
  - cbn [m_i]. lia.
  - rewrite Es. eexists; reflexivity.
Qed.

Lemma sample_1_to_5_min_max :
  Math_min_list sample_1_to_5 = Fin 1 /\ Math_max_list sample_1_to_5 = Fin 5.
Proof.
  unfold Math_min_list, Math_max_list, sample_1_to_5.
  repeat (progress (cbn [map fold_left Math_min Math_max lt]; decide_R)).
  split; reflexivity.
Qed.

Lemma sample_1_to_5_expected (bins : list Bin) :
  expect sample_1_to_5 "uniform" wide_uniform bins (Fin 1) (Fin 5)
    ((Fin 5 - Fin 1) / of_nat 10)
  = Ok (map (fun _ => Fin 0.1) bins).
Proof.
  unfold expect, wide_uniform.
  cbn [String.eqb Ascii.eqb Bool.eqb param or_else truthy negb].
  decide_R. cbn [negb sub add neg of_nat length sample_1_to_5 map INR div].
  decide_R. cbn [mul div]. decide_R. cbn [mul].
  f_equal. apply map_ext. intros _. cbn [of_nat INR mul]. f_equal.
  replace (1 + 1 + 1 + 1 + 1 + 1 + 1 + 1 + 1 + 1)%R with 10%R by lra.
  replace (15 + - (-5))%R with 20%R by lra.
  lra.
Qed.

(** C6, the failing input: the sample [[1, 2, 3, 4, 5]] tested against the
    uniform distribution on [[-5, 15]] with the default 10 bins.  Every
    bin expects 0.1 observations, the ten bins are merged forward into
    one, and that last bin, still below 5, is merged into a bin that does
    not exist: the observed frequencies come out as [[NaN]], not as
    counts that sum to 5. *)
Theorem chi_square_last_bin_merged_into_nothing :
  exists r : ChiSquareResult,
    calculateChiSquareTest 20 sample_1_to_5 "uniform" wide_uniform 10
    = Some (Ok r)
    /\ observedFrequencies r = [NaN]
    /\ expectedFrequencies r = [NaN]
    /\ Statistics.sum (observedFrequencies r) <> of_nat (length sample_1_to_5).
Proof.
  unfold calculateChiSquareTest.
  destruct sample_1_to_5_min_max as [-> ->].
  rewrite sample_1_to_5_expected.
  set (bins := makeBins (Fin 1) ((Fin 5 - Fin 1) / of_nat 10) 10).
  pose proof (observe_length bins sample_1_to_5) as Ho.
  change (length bins) with 10%nat in Ho.
  destruct (observe bins 10 sample_1_to_5) as [|o os]; [discriminate|].
  change (map (fun _ : Bin => Fin 0.1) bins)
    with (Fin 0.1 :: map Fin (repeat 0.1%R 9)).
  destruct (mergeLoop_total_below_5 (repeat 0.1%R 9) 0.1 o os bins 20)
    as (s' & Es & Ee & Eo).
  - cbn in Ho. cbn. lia.
  - cbn [repeat]. repeat constructor; lra.
  - cbn [repeat fold_right]. lra.
  - cbn. lia.
  - rewrite Es. eexists. split; [reflexivity|].
    cbn [observedFrequencies expectedFrequencies]. rewrite Eo, Ee.
    repeat split. cbn. discriminate.
Qed.

(** The statistics utility's variant selects instead of merging: with at
    least five bins at an expected frequency of 5 or more, a bin below 5
    is dropped together with its observations.  Here six bins hold 30
    observations and the final bins hold 29. *)
Lemma selectBins_drops_observations :
  let bin o e := Statistics.mkChiBin (Fin 0) (Fin 0) (Fin o) (Fin e) in
  let bins := [bin 1 0; bin 5 6; bin 6 6; bin 6 6; bin 6 6; bin 6 6]%R in
  Statistics.sum (map Statistics.cb_observed bins) = Fin 30
  /\ Statistics.sum (map Statistics.cb_observed (Statistics.selectBins bins))
     = Fin 29.
Proof.
  cbv zeta. unfold Statistics.selectBins.
  cbn [filter Statistics.cb_expected ge le]. decide_R.
  cbn [length Nat.ltb Nat.leb map Statistics.cb_observed].
  unfold Statistics.sum. cbn [fold_left add]. split; f_equal; lra.
Qed.

End ChiSquare.

(** ** Monotonicity of the approximate normal distribution function *)

Section NormalCDF.

Lemma erfPoly_difference (u v : R) :
  erfPoly v - erfPoly u = (v - u) * erfPolySlope u v.
Proof. unfold erfPoly, erfPolySlope. ring. Qed.

(** The slope is the mean of the derivative over the segment; the
    derivative splits into squares and a remainder that is positive on
    [[0, 1]], and so does its mean. *)
Lemma erfPolySlope_decomposition (u v : R) :
  let a := u - 0.28 in
  let b := v - 0.28 in
  let d := v - u in
  let g0 := u * u - 0.58 * u in
  let g1 := (2 * u - 0.58) * d in
  let g2 := d * d in
  let q := u * u + u * v + v * v in
  let c := u * u * u + u * u * v + u * v * v + v * v * v in
  let r := u * u * u * u + u * u * u * v + u * u * v * v
           + u * v * v * v + v * v * v * v in
  erfPolySlope u v
  = (a * a + a * b + b * b) / 3
    + 5 * ((g0 + g1 / 2 + g2 / 3) * (g0 + g1 / 2 + g2 / 3)
           + (g1 + g2) * (g1 + g2) / 12 + g2 * g2 / 180)
    + (0.176429592 - 0.008993472 * (u + v) / 2
       + 1.582241223 * q / 3 - 0.012608108 * c / 4 + 0.307027145 * r / 5).
Proof. cbv zeta. unfold erfPolySlope. lra. Qed.

Lemma cube_le_square (u w : R) : 0 <= u <= 1 -> 0 <= w -> w * u <= w.
Proof.
  intros [H0 H1] Hw. replace w with (w * 1) at 2 by lra.
  apply Rmult_le_compat_l; lra.
Qed.

Lemma erfPolySlope_nonneg (u v : R) :
  0 <= u <= 1 -> 0 <= v <= 1 -> 0 <= erfPolySlope u v.
Proof.
  intros Hu Hv.
  rewrite erfPolySlope_decomposition. cbv zeta.
  set (a := u - 0.28). set (b := v - 0.28).
  set (g0 := u * u - 0.58 * u). set (g1 := (2 * u - 0.58) * (v - u)).
  set (g2 := (v - u) * (v - u)).
  assert (H1 : 0 <= a * a + a * b + b * b).
  { pose proof (Rle_0_sqr (a + b / 2)) as X. pose proof (Rle_0_sqr b) as Y.
    unfold Rsqr in X, Y. lra. }
  assert (H2 : 0 <= (g0 + g1 / 2 + g2 / 3) * (g0 + g1 / 2 + g2 / 3))
    by apply Rle_0_sqr.
  assert (H3 : 0 <= (g1 + g2) * (g1 + g2)) by apply Rle_0_sqr.
  assert (H4 : 0 <= g2 * g2) by apply Rle_0_sqr.
  assert (Huu : 0 <= u * u) by apply Rle_0_sqr.
  assert (Hvv : 0 <= v * v) by apply Rle_0_sqr.
  assert (Huv : 0 <= u * v) by (apply Rmult_le_pos; lra).
  pose proof (cube_le_square u (u * u) Hu Huu) as Hu3.
  pose proof (cube_le_square v (v * v) Hv Hvv) as Hv3.
  pose proof (cube_le_square u (u * v) Hu Huv) as Huuv.
  pose proof (cube_le_square v (u * v) Hv Huv) as Huvv.
  assert (Hr : 0 <= u * u * u * u + u * u * u * v + u * u * v * v
                    + u * v * v * v + v * v * v * v).
  { pose proof (Rle_0_sqr (u * u)) as A. pose proof (Rle_0_sqr (v * v)) as B.
    pose proof (Rle_0_sqr (u * v)) as C.
    pose proof (Rmult_le_pos _ _ Huu Huv) as D.
    pose proof (Rmult_le_pos _ _ Huv Hvv) as E.
    unfold Rsqr in A, B, C. lra. }
  lra.
Qed.

Lemma erfPoly_monotone (u v : R) :
  0 <= u -> u <= v -> v <= 1 -> erfPoly u <= erfPoly v.
Proof.
  intros Hu Huv Hv.
  pose proof (erfPoly_difference u v) as D.
  pose proof (erfPolySlope_nonneg u v ltac:(lra) ltac:(lra)) as S.
  assert (0 <= (v - u) * erfPolySlope u v) by (apply Rmult_le_pos; lra).
  lra.
Qed.

Lemma erfPoly_range (t : R) :
  0 <= t <= 1 -> 0 <= erfPoly t <= 0.999999999.
Proof.
  intros [H0 H1].
  pose proof (erfPoly_monotone 0 t ltac:(lra) H0 H1) as A.
  pose proof (erfPoly_monotone t 1 H0 H1 ltac:(lra)) as B.
  unfold erfPoly in A at 1. unfold erfPoly in B at 2. lra.
Qed.

Lemma erfT_range (ax : R) : 0 <= ax -> 0 < erfT ax <= 1.
Proof.
  intros H. unfold erfT.
  assert (Hd : 1 <= 1 + 0.3275911 * ax) by lra.
  split.
  - apply Rdiv_lt_0_compat; lra.
  - apply Rmult_le_reg_r with (1 + 0.3275911 * ax); [lra|].
    unfold Rdiv. rewrite Rmult_assoc, Rinv_l by lra. lra.
Qed.

Lemma erfT_antitone (x y : R) : 0 <= x -> x <= y -> erfT y <= erfT x.
Proof.
  intros H0 H. unfold erfT, Rdiv. rewrite !Rmult_1_l.
  apply Rinv_le_contravar; lra.
Qed.

Lemma exp_neg_square_range (ax : R) : 0 < exp (- ax * ax) <= 1.
Proof.
  split; [apply exp_pos|].
  rewrite <- exp_0.
  pose proof (Rle_0_sqr ax) as S. unfold Rsqr in S.
  destruct (Req_dec (- ax * ax) 0) as [E|E]; [rewrite E; lra|].
  left. apply exp_increasing. lra.
Qed.

Lemma exp_neg_square_antitone (x y : R) :
  0 <= x -> x <= y -> exp (- y * y) <= exp (- x * x).
Proof.
  intros H0 H.
  assert (Hs : x * x <= y * y) by (apply Rmult_le_compat; lra).
  destruct (Req_dec (- y * y) (- x * x)) as [E|E]; [rewrite E; lra|].
  left. apply exp_increasing. lra.
Qed.

Lemma erfAbs_range (ax : R) : 0 <= ax -> 0 < erfAbs ax <= 1.
Proof.
  intros H. unfold erfAbs.
  pose proof (erfT_range ax H) as [T0 T1].
  pose proof (erfPoly_range (erfT ax) ltac:(lra)) as [P0 P1].
  pose proof (exp_neg_square_range ax) as [E0 E1].
  assert (A : 0 <= erfPoly (erfT ax) * exp (- ax * ax))
    by (apply Rmult_le_pos; lra).
  assert (B : erfPoly (erfT ax) * exp (- ax * ax) <= 0.999999999 * 1)
    by (apply Rmult_le_compat; lra).
  lra.
Qed.

Lemma erfAbs_monotone (x y : R) : 0 <= x -> x <= y -> erfAbs x <= erfAbs y.
Proof.
  intros H0 H. unfold erfAbs.
  pose proof (erfT_range y ltac:(lra)) as [Ty0 Ty1].
  pose proof (erfT_range x H0) as [Tx0 Tx1].
  pose proof (erfT_antitone x y H0 H) as T.
  pose proof (erfPoly_monotone (erfT y) (erfT x) ltac:(lra) T Tx1) as P.
  pose proof (erfPoly_range (erfT y) ltac:(lra)) as [Py0 _].
  pose proof (exp_neg_square_antitone x y H0 H) as E.
  pose proof (exp_neg_square_range y) as [Ey0 _].
  assert (erfPoly (erfT y) * exp (- y * y) <= erfPoly (erfT x) * exp (- x * x))
    by (apply Rmult_le_compat; lra).
  lra.
Qed.

Lemma normalCDF_R (x : R) : Statistics.normalCDF (Fin x) = Fin (RnormalCDF x).
Proof. apply normalCDF_fin. Qed.

Lemma PowerAnalysis_normalCDF_fin (x : R) :
  PowerAnalysis.normalCDF (Fin x) = Fin (RnormalCDF x).
Proof. rewrite PowerAnalysis_normalCDF_same. apply normalCDF_fin. Qed.

Lemma RnormalCDF_range (x : R) : 0 <= RnormalCDF x <= 1.
Proof.
  unfold RnormalCDF.
  pose proof (erfAbs_range (Rabs (x / sqrt 2)) (Rabs_pos _)) as [E0 E1].
  destruct (Rle_dec 0 (x / sqrt 2)); lra.
Qed.

Lemma RnormalCDF_negative (x : R) : x < 0 -> RnormalCDF x <= 0.5.
Proof.
  intros H. unfold RnormalCDF.
  pose proof (erfAbs_range (Rabs (x / sqrt 2)) (Rabs_pos _)) as [E0 E1].
  pose proof sqrt_2_pos as S.
  assert (x / sqrt 2 < 0).
  { unfold Rdiv. pose proof (Rinv_0_lt_compat _ S) as I.
    pose proof (Rmult_lt_0_compat (- x) (/ sqrt 2) ltac:(lra) I). lra. }
  destruct (Rle_dec 0 (x / sqrt 2)); lra.
Qed.

Lemma div_sqrt2_monotone (x y : R) : x <= y -> x / sqrt 2 <= y / sqrt 2.
Proof.
  intros H. unfold Rdiv. apply Rmult_le_compat_r; [|exact H].
  left. apply Rinv_0_lt_compat, sqrt_2_pos.
Qed.

Lemma RnormalCDF_monotone (x y : R) : x <= y -> RnormalCDF x <= RnormalCDF y.
Proof.
  intros H. unfold RnormalCDF.
  pose proof (div_sqrt2_monotone x y H) as D.
  set (a := x / sqrt 2) in *. set (b := y / sqrt 2) in *.
  pose proof (erfAbs_range (Rabs a) (Rabs_pos _)) as [A0 A1].
  pose proof (erfAbs_range (Rabs b) (Rabs_pos _)) as [B0 B1].
  destruct (Rle_dec 0 a) as [Ha|Ha], (Rle_dec 0 b) as [Hb|Hb]; try lra.
  - rewrite (Rabs_right a), (Rabs_right b) by lra.
    pose proof (erfAbs_monotone a b Ha D). lra.
  - assert (Ha' : a < 0) by lra. assert (Hb' : b < 0) by lra.
    pose proof (erfAbs_monotone (Rabs b) (Rabs a) (Rabs_pos _)) as M.
    rewrite (Rabs_left a), (Rabs_left b) in * by lra.
    specialize (M ltac:(lra)). lra.
Qed.

End NormalCDF.

(** ** Sample size and power *)

Section PowerRoundTrip.

Import Statistics(TestType, two, left, right).
Import PowerAnalysis.
Local Open Scope js_scope.

Lemma calculateSampleSizeForPower_eq (mu1 mu0 sigma alpha beta : num)
  (testType : TestType) :
  calculateSampleSizeForPower mu1 mu0 sigma alpha beta testType
  = Math_ceil (Math_pow ((zOf (alphaOf testType alpha) + zOf beta) * sigma
                         / Math_abs (mu1 - mu0)) 2).
Proof. destruct testType; reflexivity. Qed.

Lemma calculateZTestPower_eq (mu1 mu0 sigma n alpha : num)
  (testType : TestType) :
  calculateZTestPower mu1 mu0 sigma n alpha testType
  = let delta := mu1 - mu0 in
    let se := sigma / Math_sqrt n in
    let z := zOf (alphaOf testType alpha) in
    clamp01 match testType with
            | two => normalCDF (- z + Math_abs delta / se)
                     + normalCDF (- z - Math_abs delta / se)
            | right => normalCDF (- z + delta / se)
            | left => normalCDF (- z - delta / se)
            end.
Proof. destruct testType; reflexivity. Qed.

Lemma inverseErrorFunction_finite (x : R) :
  (Rabs x < 1)%R -> (0 <= sqrtArgOf (Rabs x))%R ->
  inverseErrorFunction (Fin x)
  = Fin ((if Rle_dec 0 x then 1 else -1) * sqrt (sqrtArgOf (Rabs x))).
Proof.
  intros H Hs. unfold inverseErrorFunction.
  cbn [ge le Math_abs mul sub add neg].
  rewrite (Rleb_false 1 (Rabs x)) by lra.
  assert (Hpos : (0 < 1 + - (Rabs x * Rabs x))%R).
  { pose proof (Rabs_pos x). nra. }
  rewrite (Rleb_false _ 0 Hpos).
  cbn [Math_log]. rewrite Rltb_false by lra.
  rewrite Reqb_false by lra.
  rewrite (Rltb_false 2 0) by lra. rewrite (Reqb_false 2 0) by lra.
  cbn [mul add sub neg lt].
  replace (1 + - (Rabs x * Rabs x))%R with (1 - Rabs x * Rabs x)%R by lra.
  replace (- ln (1 - Rabs x * Rabs x) + - (2 * ln 2)
           + - (0.140012 * ln (1 - Rabs x * Rabs x)))%R
    with (sqrtArgOf (Rabs x)) by (unfold sqrtArgOf; lra).
  rewrite Rltb_false by exact Hs.
  cbn [Math_sqrt]. rewrite Rltb_false by exact Hs.
  unfold Rleb. destruct (Rle_dec 0 x); reflexivity.
Qed.

Lemma Rceil_ge (x : R) : (x <= Rceil x)%R.
Proof.
  unfold Rceil. pose proof (base_Int_part (- x)) as [H _]. lra.
Qed.

Lemma Rceil_0 : Rceil 0 = 0%R.
Proof.
  unfold Rceil. replace (- 0)%R with (IZR 0) by lra.
  pose proof (base_Int_part (IZR 0)) as [H1 H2].
  assert (E : Int_part (IZR 0) = 0%Z).
  { apply le_IZR in H1.
    assert (H3 : (IZR 0 - 1 < IZR (Int_part (IZR 0)))%R) by lra.
    rewrite <- minus_IZR in H3. apply lt_IZR in H3. lia. }
  rewrite E. lra.
Qed.

(** Dividing by the standard error [sigma / sqrt n], which is
    [+Infinity] at [n = 0]. *)
Lemma div_standardError (d sigma n : R) :
  (0 < sigma)%R -> (0 <= n)%R ->
  Fin d / (Fin sigma / Math_sqrt (Fin n)) = Fin (d * sqrt n / sigma).
Proof.
  intros Hs Hn. cbn [Math_sqrt]. rewrite Rltb_false by exact Hn.
  cbn [div]. destruct (Req_dec (sqrt n) 0) as [E|E].
  - rewrite (Reqb_true _ 0 E). unfold signed_inf.
    rewrite (Reqb_false sigma 0) by lra.
    rewrite (Rltb_true 0 sigma) by exact Hs.
    rewrite E. f_equal. unfold Rdiv. lra.
  - rewrite (Reqb_false _ 0 E).
    assert (Hq : (0 < sqrt n)%R).
    { pose proof (sqrt_pos n). lra. }
    assert (Hse : (sigma / sqrt n <> 0)%R).
    { apply Rgt_not_eq. apply Rdiv_lt_0_compat; lra. }
    rewrite (Reqb_false _ 0 Hse). f_equal. field. lra.
Qed.

Lemma clamp01_fin (q : R) :
  { p : R | clamp01 (Fin q) = Fin p
            /\ (forall t, 0 <= t <= 1 -> t <= q -> t <= p)%R
            /\ (forall b, 0 <= b -> q <= b -> p <= b)%R }.
Proof.
  unfold clamp01. cbn [Math_max lt].
  destruct (Rlt_dec q 0) as [H|H].
  - rewrite (Rltb_true q 0 H). cbn [Math_min lt]. rewrite Rltb_false by lra.
    exists 0%R. split; [reflexivity|]. split; intros; lra.
  - rewrite (Rltb_false q 0) by lra. cbn [Math_min lt].
    destruct (Rlt_dec 1 q) as [H1|H1].
    + rewrite (Rltb_true 1 q H1). exists 1%R.
      split; [reflexivity|]. split; intros; lra.
    + rewrite (Rltb_false 1 q) by lra. exists q.
      split; [reflexivity|]. split; intros; lra.
Qed.

(** *** The quantiles at 0.05, 0.5 and 0.95 *)

Lemma ln_100_19 : ln 0.19 = (- ln (100 / 19))%R.
Proof.
  replace 0.19%R with (/ (100 / 19))%R by lra. apply ln_Rinv. lra.
Qed.

Lemma sqrtArgOf_09 :
  sqrtArgOf 0.9 = (1.140012 * ln (100 / 19) - 2 * ln 2)%R.
Proof.
  unfold sqrtArgOf. replace (1 - 0.9 * 0.9)%R with 0.19%R by lra.
  rewrite ln_100_19. lra.
Qed.

Lemma sqrtArgOf_09_pos : (0 < sqrtArgOf 0.9)%R.
Proof.
  rewrite sqrtArgOf_09.
  assert (H : (ln 4 < ln (100 / 19))%R) by (apply ln_increasing; lra).
  rewrite ln_4 in H. pose proof ln_2_pos. lra.
Qed.

Lemma sqrtArgOf_09_le_ln2 : (sqrtArgOf 0.9 <= ln 2)%R.
Proof.
  rewrite sqrtArgOf_09.
  assert (H : (ln ((100 / 19) ^ 23) < ln (8 ^ 20))%R).
  { apply ln_increasing; [apply pow_lt; lra | lra]. }
  rewrite !ln_pow in H by lra.
  replace (INR 23) with 23%R in H by (rewrite INR_IZR_INZ; reflexivity).
  replace (INR 20) with 20%R in H by (rewrite INR_IZR_INZ; reflexivity).
  assert (E : ln 8 = (3 * ln 2)%R).
  { replace 8%R with (2 * (2 * 2))%R by lra. rewrite !ln_mult by lra. lra. }
  rewrite E in H.
  assert (K : (0 < ln (100 / 19))%R).
  { rewrite <- ln_1. apply ln_increasing; lra. }
  lra.
Qed.

Lemma z05_pos : (0 < z05)%R.
Proof.
  unfold z05. apply Rmult_lt_0_compat;
    [apply sqrt_2_pos | apply sqrt_lt_R0, sqrtArgOf_09_pos].
Qed.

Lemma zOf_005 : zOf (Fin 0.05) = Fin z05.
Proof.
  unfold zOf. cbn [sub add neg mul].
  replace (2 * (1 + - (0.05)) + - (1))%R with 0.9%R by lra.
  rewrite inverseErrorFunction_finite.
  - rewrite Math_sqrt_2. cbn [mul]. f_equal.
    rewrite (Rabs_right 0.9) by lra.
    destruct (Rle_dec 0 0.9); [unfold z05; lra | lra].
  - rewrite Rabs_right; lra.
  - rewrite Rabs_right by lra. left. exact sqrtArgOf_09_pos.
Qed.

Lemma zOf_095 : zOf (Fin 0.95) = Fin (- z05).
Proof.
  unfold zOf. cbn [sub add neg mul].
  replace (2 * (1 + - (0.95)) + - (1))%R with (- 0.9)%R by lra.
  rewrite inverseErrorFunction_finite.
  - rewrite Math_sqrt_2. cbn [mul]. f_equal.
    rewrite (Rabs_left (- 0.9)) by lra.
    replace (- - 0.9)%R with 0.9%R by lra.
    destruct (Rle_dec 0 (- 0.9)); [lra | unfold z05; lra].
  - rewrite Rabs_left; lra.
  - rewrite Rabs_left by lra. replace (- - 0.9)%R with 0.9%R by lra.
    left. exact sqrtArgOf_09_pos.
Qed.

Lemma zOf_05 : zOf (Fin 0.5) = PInf.
Proof.
  unfold zOf. cbn [sub add neg mul].
  rewrite guarded_inverseErrorFunction_infinite.
  - rewrite Math_sqrt_2.
    destruct (Rle_dec 0 (2 * (1 + - (0.5)) + - (1))); [|lra].
    cbn [mul]. unfold signed_inf.
    pose proof sqrt_2_pos.
    rewrite Reqb_false, Rltb_true by lra. reflexivity.
  - replace (2 * (1 + - (0.5)) + - (1))%R with 0%R by lra.
    rewrite Rabs_R0. lra.
Qed.

(** The value of the approximate distribution function at [z05] falls
    short of 0.95: it is at most 0.9. *)
Lemma RnormalCDF_z05 : (RnormalCDF z05 <= 0.9)%R.
Proof.
  unfold RnormalCDF.
  pose proof sqrt_2_pos as S2. pose proof sqrtArgOf_09_pos as Sp.
  assert (E : (z05 / sqrt 2 = sqrt (sqrtArgOf 0.9))%R)
    by (unfold z05; field; lra).
  rewrite E. set (s := sqrtArgOf 0.9) in *.
  assert (Hq : (0 < sqrt s)%R) by (apply sqrt_lt_R0; exact Sp).
  destruct (Rle_dec 0 (sqrt s)); [|lra].
  rewrite Rabs_right by lra.
  assert (Hs1 : (s <= 1)%R).
  { pose proof sqrtArgOf_09_le_ln2. fold s in H.
    assert (ln 2 < 1)%R; [|lra].
    rewrite <- (ln_exp 1). apply ln_increasing; [lra|].
    pose proof (exp_ineq1 1 ltac:(lra)). lra. }
  assert (Hq1 : (sqrt s <= 1)%R).
  { rewrite <- sqrt_1. apply sqrt_le_1_alt. exact Hs1. }
  assert (Ht : (0.75 <= erfT (sqrt s))%R).
  { pose proof (erfT_antitone (sqrt s) 1 ltac:(lra) Hq1) as A.
    unfold erfT in A at 1.
    replace (1 + 0.3275911 * 1)%R with 1.3275911%R in A by lra. lra. }
  pose proof (erfT_range (sqrt s) ltac:(lra)) as [_ Tu].
  pose proof (erfPoly_monotone 0.75 (erfT (sqrt s)) ltac:(lra) Ht Tu) as P.
  assert (P0 : (0.42 <= erfPoly 0.75)%R) by (unfold erfPoly; lra).
  assert (He : (/ 2 <= exp (- sqrt s * sqrt s))%R).
  { replace (- sqrt s * sqrt s)%R with (- s)%R
      by (rewrite <- Ropp_mult_distr_l, sqrt_sqrt; lra).
    replace (/ 2)%R with (exp (- ln 2)) by (rewrite exp_Ropp, exp_ln; lra).
    pose proof sqrtArgOf_09_le_ln2 as L. fold s in L.
    destruct L as [L|L]; [left; apply exp_increasing; lra | rewrite L; lra]. }
  unfold erfAbs.
  assert (M : (0.42 * / 2
               <= erfPoly (erfT (sqrt s)) * exp (- sqrt s * sqrt s))%R)
    by (apply Rmult_le_compat; lra).
  lra.
Qed.

(** Further inputs at which the round trip misses the target, with
    [mu1 = 1], [mu0 = 0], [sigma = 1].  (1) [alpha = beta = 0.5],
    right-tailed: both quantiles are infinite, the sample size is
    [+Infinity] and the power is [NaN], which is not at least 0.5.
    (2) [alpha = beta = 0.05], left-tailed against an effect to the
    right: the power at the returned sample size is at most 0.5, below
    the target 0.95.  (3) [alpha = 0.95], [beta = 0.05], right-tailed: the
    sample size is 0 and the power is at most 0.9, below the target
    0.95. *)
Lemma power_round_trip_counterexample :
  (calculateSampleSizeForPower (Fin 1) (Fin 0) (Fin 1) (Fin 0.5) (Fin 0.5)
     right = PInf
   /\ calculateZTestPower (Fin 1) (Fin 0) (Fin 1) PInf (Fin 0.5) right = NaN
   /\ ge NaN (Fin 1 - Fin 0.5) = false)
  /\ (exists n power : R,
        calculateSampleSizeForPower (Fin 1) (Fin 0) (Fin 1) (Fin 0.05)
          (Fin 0.05) left = Fin n
        /\ calculateZTestPower (Fin 1) (Fin 0) (Fin 1) (Fin n) (Fin 0.05) left
           = Fin power
        /\ (power <= 0.5)%R
        /\ ge (Fin power) (Fin 1 - Fin 0.05) = false)
  /\ (exists power : R,
        calculateSampleSizeForPower (Fin 1) (Fin 0) (Fin 1) (Fin 0.95)
          (Fin 0.05) right = Fin 0
        /\ calculateZTestPower (Fin 1) (Fin 0) (Fin 1) (Fin 0) (Fin 0.95) right
           = Fin power
        /\ (power <= 0.9)%R
        /\ ge (Fin power) (Fin 1 - Fin 0.05) = false).
Proof.
  assert (HD : Rabs (1 + - 0) = 1%R) by (rewrite Rabs_right; lra).
  split; [|split].
  - split; [|split; [|reflexivity]].
    + rewrite calculateSampleSizeForPower_eq. cbn [alphaOf].
      rewrite zOf_05. cbn [sub add neg Math_abs mul].
      unfold signed_inf. decide_R. cbn [div].
      rewrite HD. decide_R. reflexivity.
    + rewrite calculateZTestPower_eq. cbn [alphaOf]. rewrite zOf_05.
      cbv zeta. cbn [sub add neg Math_sqrt div].
      unfold signed_inf. decide_R. reflexivity.
  - rewrite calculateSampleSizeForPower_eq. cbn [alphaOf].
    rewrite zOf_005. cbn [sub add neg Math_abs mul].
    rewrite HD, div_fin by lra. cbn [Math_pow Math_ceil].
    set (n := Rceil (((z05 + z05) * 1 / 1) ^ 2)).
    assert (Hn : (0 <= n)%R).
    { apply Rle_trans with (((z05 + z05) * 1 / 1) ^ 2)%R;
        [apply pow2_ge_0 | apply Rceil_ge]. }
    exists n.
    rewrite calculateZTestPower_eq. cbn [alphaOf]. rewrite zOf_005.
    cbv zeta. cbn [sub add neg].
    rewrite div_standardError by lra.
    cbn [add neg]. rewrite PowerAnalysis_normalCDF_fin.
    destruct (clamp01_fin (RnormalCDF (- z05 + - ((1 + - 0) * sqrt n / 1))))
      as (p & Ep & _ & Hp).
    exists p. split; [reflexivity|]. split; [exact Ep|].
    assert (Hle : (p <= 0.5)%R).
    { apply Hp; [lra|]. apply RnormalCDF_negative.
      pose proof z05_pos. pose proof (sqrt_pos n). lra. }
    split; [exact Hle|]. cbn [ge le sub add neg]. apply Rleb_false. lra.
  - rewrite calculateSampleSizeForPower_eq. cbn [alphaOf].
    rewrite zOf_095, zOf_005. cbn [sub add neg Math_abs mul].
    rewrite HD, div_fin by lra. cbn [Math_pow Math_ceil].
    replace (((- z05 + z05) * 1 / 1) ^ 2)%R with 0%R by (field_simplify; lra).
    rewrite Rceil_0.
    rewrite calculateZTestPower_eq. cbn [alphaOf]. rewrite zOf_095.
    cbv zeta. cbn [sub add neg].
    rewrite div_standardError by lra.
    cbn [add neg]. rewrite PowerAnalysis_normalCDF_fin.
    destruct (clamp01_fin (RnormalCDF (- - z05 + (1 + - 0) * sqrt 0 / 1)))
      as (p & Ep & _ & Hp).
    exists p. split; [reflexivity|]. split; [exact Ep|].
    assert (Hle : (p <= 0.9)%R).
    { apply Hp; [lra|].
      replace (- - z05 + (1 + - 0) * sqrt 0 / 1)%R with z05
        by (rewrite sqrt_0; lra).
      exact RnormalCDF_z05. }
    split; [exact Hle|]. cbn [ge le sub add neg]. apply Rleb_false. lra.
Qed.

End PowerRoundTrip.

(** ** Further facts about numbers *)

Section NumberFacts.

Import Statistics.
Local Open Scope js_scope.

Lemma add_comm_js (a b : num) : a + b = b + a.
Proof. destruct a, b; cbn; try reflexivity. f_equal. lra. Qed.

Lemma mul_comm_js (a b : num) : a * b = b * a.
Proof. destruct a, b; cbn; try reflexivity. f_equal. lra. Qed.

Lemma neg_neg_js (a : num) : - - a = a.
Proof. destruct a; cbn; try reflexivity. f_equal. lra. Qed.

Lemma neg_add_js (a b : num) : - (a + b) = - a + - b.
Proof. destruct a, b; cbn; try reflexivity. f_equal. lra. Qed.

Lemma neg_sub_js (a b : num) : - (a - b) = b - a.
Proof.
  unfold sub. rewrite neg_add_js, neg_neg_js. apply add_comm_js.
Qed.

Lemma Math_sqrt_len (data : list num) :
  data <> [] ->
  Math_sqrt (len data) = Fin (sqrt (INR (length data)))
  /\ (0 < sqrt (INR (length data)))%R.
Proof.
  intros H. pose proof (INR_length_pos data H) as Hn.
  unfold len, of_nat. cbn [Math_sqrt].
  rewrite Rltb_false by lra. split; [reflexivity |].
  apply sqrt_lt_R0, Hn.
Qed.

Lemma Math_sqrt_nonneg (v : R) :
  (0 <= v)%R -> Math_sqrt (Fin v) = Fin (sqrt v).
Proof. intros H. cbn [Math_sqrt]. now rewrite Rltb_false by lra. Qed.

Lemma Math_max_fin (a b : R) :
  Math_max (Fin a) (Fin b) = Fin (Rmax a b).
Proof.
  cbn [Math_max lt]. unfold Rmax.
  destruct (Rle_dec a b) as [H|H].
  - destruct (Rlt_dec a b) as [H'|H'].
    + now rewrite (Rltb_true a b H').
    + rewrite (Rltb_false a b) by lra. f_equal. lra.
  - now rewrite (Rltb_false a b) by lra.
Qed.

Lemma Math_min_fin (a b : R) :
  Math_min (Fin a) (Fin b) = Fin (Rmin a b).
Proof.
  cbn [Math_min lt]. unfold Rmin.
  destruct (Rle_dec a b) as [H|H].
  - now rewrite (Rltb_false b a) by lra.
  - now rewrite (Rltb_true b a) by lra.
Qed.

Lemma Int_part_IZR (k : Z) : Int_part (IZR k) = k.
Proof. symmetry. apply Int_part_spec. lra. Qed.

Lemma Int_part_between (x : R) (k : Z) :
  (IZR k <= x < IZR k + 1)%R -> Int_part x = k.
Proof. intros H. symmetry. apply Int_part_spec. lra. Qed.

Lemma Int_part_monotone (x y : R) :
  (x <= y)%R -> (Int_part x <= Int_part y)%Z.
Proof.
  intros H. pose proof (base_Int_part x) as [Hx _].
  pose proof (base_Int_part y) as [_ Hy].
  assert (Hlt : (IZR (Int_part x) < IZR (Int_part y + 1))%R)
    by (rewrite plus_IZR; lra).
  apply lt_IZR in Hlt. lia.
Qed.

Lemma Rceil_monotone (x y : R) : (x <= y)%R -> (Rceil x <= Rceil y)%R.
Proof.
  intros H. unfold Rceil.
  assert (Hm : (Int_part (- y) <= Int_part (- x))%Z)
    by (apply Int_part_monotone; lra).
  apply IZR_le in Hm. lra.
Qed.

Lemma mul_NaN_r (a : num) : a * NaN = NaN.
Proof. destruct a; reflexivity. Qed.

Lemma div_NaN_l (a : num) : NaN / a = NaN.
Proof. reflexivity. Qed.

Lemma div_NaN_r (a : num) : a / NaN = NaN.
Proof. destruct a; reflexivity. Qed.

Lemma Math_max_NaN_r (a : num) : Math_max a NaN = NaN.
Proof. destruct a; reflexivity. Qed.

Lemma Math_min_NaN_r (a : num) : Math_min a NaN = NaN.
Proof. destruct a; reflexivity. Qed.

Lemma add_NaN_l (a : num) : NaN + a = NaN.
Proof. reflexivity. Qed.

Lemma sub_NaN_l (a : num) : NaN - a = NaN.
Proof. reflexivity. Qed.

End NumberFacts.

Ltac nan_out :=
  repeat (rewrite ?mul_NaN_l, ?mul_NaN_r, ?div_NaN_l, ?div_NaN_r,
            ?add_NaN_l, ?add_NaN_r, ?sub_NaN_l, ?sub_NaN_r,
            ?Math_max_NaN_r, ?Math_min_NaN_r;
          cbn [Math_sqrt]).

(** ** The power round trip at an everyday input *)

Section PowerTarget.

Import Statistics(TestType, two, left, right).
Import PowerAnalysis.
Local Open Scope js_scope.

Lemma ln_2_lt_075 : (ln 2 < 0.75)%R.
Proof.
  assert (A : (1.125 <= exp 0.125)%R).
  { pose proof (exp_ineq1_le 0.125). lra. }
  assert (E2 : exp 0.25 = (exp 0.125 * exp 0.125)%R).
  { rewrite <- exp_plus. f_equal. lra. }
  assert (E4 : exp 0.5 = (exp 0.25 * exp 0.25)%R).
  { rewrite <- exp_plus. f_equal. lra. }
  assert (E6 : exp 0.75 = (exp 0.5 * exp 0.25)%R).
  { rewrite <- exp_plus. f_equal. lra. }
  assert (B2 : (1.265625 <= exp 0.25)%R) by (rewrite E2; nra).
  assert (B4 : (1.6 <= exp 0.5)%R) by (rewrite E4; nra).
  assert (B6 : (2 < exp 0.75)%R) by (rewrite E6; nra).
  rewrite <- (ln_exp 0.75). apply ln_increasing; lra.
Qed.

Lemma ln_25_19 : (0.24 <= ln (25 / 19))%R.
Proof.
  assert (E : ln (25 / 19) = (- ln (19 / 25))%R).
  { replace (25 / 19)%R with (/ (19 / 25))%R by lra. apply ln_Rinv. lra. }
  rewrite E.
  assert (H : (ln (19 / 25) <= ln (exp (- 0.24)))%R).
  { pose proof (exp_ineq1_le (- 0.24)) as H.
    destruct (Req_dec (19 / 25) (exp (- 0.24))) as [Q|Q];
      [rewrite Q; lra | left; apply ln_increasing; lra]. }
  rewrite ln_exp in H. lra.
Qed.

(** The argument of the square root at 0.9, and with it the approximate
    quantile [z05], between rational bounds. *)
Lemma sqrtArgOf_09_bounds : (0.41 <= sqrtArgOf 0.9 < 0.75)%R.
Proof.
  split.
  - rewrite sqrtArgOf_09.
    assert (E : ln (100 / 19) = (ln (25 / 19) + 2 * ln 2)%R).
    { replace (100 / 19)%R with (25 / 19 * 4)%R by lra.
      rewrite ln_mult by lra. rewrite ln_4. reflexivity. }
    rewrite E. pose proof ln_25_19. pose proof ln_lt_2. lra.
  - pose proof sqrtArgOf_09_le_ln2. pose proof ln_2_lt_075. lra.
Qed.

Lemma z05_bounds : (0.9 <= z05)%R /\ ((z05 + z05) ^ 2 < 6)%R.
Proof.
  pose proof sqrtArgOf_09_bounds as [L U]. pose proof z05_pos as P.
  assert (E : (z05 * z05 = 2 * sqrtArgOf 0.9)%R).
  { unfold z05.
    replace (sqrt 2 * sqrt (sqrtArgOf 0.9)
             * (sqrt 2 * sqrt (sqrtArgOf 0.9)))%R
      with ((sqrt 2 * sqrt 2)
            * (sqrt (sqrtArgOf 0.9) * sqrt (sqrtArgOf 0.9)))%R by ring.
    rewrite !sqrt_sqrt by lra. reflexivity. }
  split; nra.
Qed.

Lemma exp_neg_121 : (0.269 <= exp (- 1.21))%R.
Proof.
  assert (A : (0.84875 <= exp (- 0.15125))%R).
  { pose proof (exp_ineq1_le (- 0.15125)). lra. }
  assert (E2 : exp (- 0.3025) = (exp (- 0.15125) * exp (- 0.15125))%R).
  { rewrite <- exp_plus. f_equal. lra. }
  assert (E4 : exp (- 0.605) = (exp (- 0.3025) * exp (- 0.3025))%R).
  { rewrite <- exp_plus. f_equal. lra. }
  assert (E8 : exp (- 1.21) = (exp (- 0.605) * exp (- 0.605))%R).
  { rewrite <- exp_plus. f_equal. lra. }
  assert (B2 : (0.72 <= exp (- 0.3025))%R) by (rewrite E2; nra).
  assert (B4 : (0.5184 <= exp (- 0.605))%R) by (rewrite E4; nra).
  rewrite E8. nra.
Qed.

(** The approximate distribution function stays below 0.95 up to 1.55. *)
Lemma RnormalCDF_155 : (RnormalCDF 1.55 <= 0.948)%R.
Proof.
  unfold RnormalCDF. pose proof sqrt_2_pos as S2.
  assert (S : (1.41 <= sqrt 2)%R).
  { replace 1.41%R with (sqrt (1.41 * 1.41))
      by (rewrite sqrt_square; lra).
    apply sqrt_le_1_alt. lra. }
  assert (Q : (0 <= 1.55 / sqrt 2 <= 1.1)%R).
  { split; [apply Rlt_le, Rdiv_lt_0_compat; lra |].
    apply Rmult_le_reg_r with (sqrt 2); [lra |].
    unfold Rdiv. rewrite Rmult_assoc, Rinv_l by lra. lra. }
  destruct (Rle_dec 0 (1.55 / sqrt 2)); [| lra].
  rewrite Rabs_right by lra.
  pose proof (erfAbs_monotone (1.55 / sqrt 2) 1.1 ltac:(lra) ltac:(lra)) as M.
  assert (B : (erfAbs 1.1 <= 0.8941)%R).
  { unfold erfAbs.
    assert (T : (0.73 <= erfT 1.1)%R).
    { unfold erfT. apply Rmult_le_reg_r with (1 + 0.3275911 * 1.1)%R;
        [lra |].
      unfold Rdiv. rewrite Rmult_assoc, Rinv_l by lra. lra. }
    pose proof (erfT_range 1.1 ltac:(lra)) as [_ T1].
    pose proof (erfPoly_monotone 0.73 (erfT 1.1) ltac:(lra) T T1) as P.
    assert (P0 : (0.394 <= erfPoly 0.73)%R) by (unfold erfPoly; lra).
    pose proof exp_neg_121 as X.
    replace (- (1.1) * 1.1)%R with (- 1.21)%R by lra.
    assert (0.394 * 0.269 <= erfPoly (erfT 1.1) * exp (- 1.21))%R
      by (apply Rmult_le_compat; lra).
    lra. }
  lra.
Qed.

Lemma Rceil_le_IZR (x : R) (k : Z) : (x <= IZR k)%R -> (Rceil x <= IZR k)%R.
Proof.
  intros H. pose proof (Rceil_monotone x (IZR k) H) as M.
  assert (E : Rceil (IZR k) = IZR k).
  { unfold Rceil.
    replace (- IZR k)%R with (IZR (- k)) by apply opp_IZR.
    rewrite Int_part_IZR, opp_IZR. lra. }
  lra.
Qed.

Lemma Rceil_between (x : R) (k : Z) :
  (IZR k - 1 < x <= IZR k)%R -> Rceil x = IZR k.
Proof.
  intros H. unfold Rceil.
  rewrite (Int_part_between (- x) (- k)); rewrite opp_IZR; lra.
Qed.

(** The approximate distribution function at 0.05, the quantile the
    statistics utility uses for [alpha = beta = 0.05]. *)
Lemma RnormalCDF_005 : (0.5 < RnormalCDF 0.05 <= 0.7)%R.
Proof.
  split.
  - apply Rlt_le_trans with (RnormalCDF 0);
      [| apply RnormalCDF_monotone; lra].
    pose proof normalCDF_0 as E. rewrite normalCDF_R in E.
    injection E as E. rewrite E. lra.
  - unfold RnormalCDF. pose proof sqrt_2_pos as S2.
    assert (S : (1 <= sqrt 2)%R).
    { rewrite <- sqrt_1 at 1. apply sqrt_le_1_alt. lra. }
    assert (Q : (0 <= 0.05 / sqrt 2 <= 0.05)%R).
    { split; [apply Rlt_le, Rdiv_lt_0_compat; lra |].
      apply Rmult_le_reg_r with (sqrt 2); [lra |].
      unfold Rdiv. rewrite Rmult_assoc, Rinv_l by lra. lra. }
    destruct (Rle_dec 0 (0.05 / sqrt 2)); [| lra].
    rewrite Rabs_right by lra.
    pose proof (erfAbs_monotone (0.05 / sqrt 2) 0.05 ltac:(lra) ltac:(lra))
      as M.
    assert (B : (erfAbs 0.05 <= 0.4)%R).
    { unfold erfAbs.
      assert (T : (0.98 <= erfT 0.05)%R).
      { unfold erfT. apply Rmult_le_reg_r with (1 + 0.3275911 * 0.05)%R;
          [lra |].
        unfold Rdiv. rewrite Rmult_assoc, Rinv_l by lra. lra. }
      pose proof (erfT_range 0.05 ltac:(lra)) as [_ T1].
      pose proof (erfPoly_monotone 0.98 (erfT 0.05) ltac:(lra) T T1) as P.
      assert (P0 : (0.9 <= erfPoly 0.98)%R) by (unfold erfPoly; lra).
      pose proof (exp_ineq1_le (- (0.05) * 0.05)) as X.
      assert (0.9 * 0.99 <= erfPoly (erfT 0.05) * exp (- (0.05) * 0.05))%R
        by (apply Rmult_le_compat; lra).
      lra. }
    lra.
Qed.

(** C3: the round trip falls short of the target at an everyday input.
    For a right-tailed test of [mu0 = 0] against [mu1 = 1] with
    [sigma = 1] and [alpha = beta = 0.05], the power-analysis module
    returns a sample size of at most 6 (it is 5), at which the power it
    computes is at most 0.948 (it is about 0.89): below the target
    [1 - beta = 0.95].  The copy of the statistics utility returns the
    sample size 2 for the same input, at which that power is smaller
    still. *)
Theorem power_round_trip_misses_target :
  (exists n power : R,
     calculateSampleSizeForPower (Fin 1) (Fin 0) (Fin 1) (Fin 0.05)
       (Fin 0.05) right = Fin n
     /\ (3 < n <= 6)%R
     /\ calculateZTestPower (Fin 1) (Fin 0) (Fin 1) (Fin n) (Fin 0.05) right
        = Fin power
     /\ (power <= 0.948)%R
     /\ ge (Fin power) (Fin 1 - Fin 0.05) = false)
  /\ (exists power : R,
        Statistics.calculateSampleSizeForPower (Fin 1) (Fin 0) (Fin 1)
          (Fin 0.05) (Fin 0.05) right = Fin 2
        /\ calculateZTestPower (Fin 1) (Fin 0) (Fin 1) (Fin 2) (Fin 0.05)
             right = Fin power
        /\ (power <= 0.948)%R
        /\ ge (Fin power) (Fin 1 - Fin 0.05) = false).
Proof.
  assert (HD : Rabs (1 + - 0) = 1%R) by (rewrite Rabs_right; lra).
  pose proof z05_bounds as [Zl Zu].
  assert (Hpower : forall n : R,
             (0 <= n <= 6)%R ->
             exists power : R,
               calculateZTestPower (Fin 1) (Fin 0) (Fin 1) (Fin n)
                 (Fin 0.05) right = Fin power
               /\ (power <= 0.948)%R
               /\ ge (Fin power) (Fin 1 - Fin 0.05) = false).
  { intros n Hn.
    rewrite calculateZTestPower_eq. cbn [alphaOf]. rewrite zOf_005.
    cbv zeta. cbn [sub add neg].
    rewrite div_standardError by lra.
    cbn [add neg]. rewrite PowerAnalysis_normalCDF_fin.
    destruct (clamp01_fin (RnormalCDF (- z05 + (1 + - 0) * sqrt n / 1)))
      as (p & Ep & _ & Hp).
    exists p. split; [exact Ep |].
    assert (Hle : (p <= 0.948)%R).
    { apply Hp; [lra |].
      apply Rle_trans with (RnormalCDF 1.55); [| exact RnormalCDF_155].
      apply RnormalCDF_monotone.
      assert (Sn : (sqrt n <= 2.45)%R).
      { replace 2.45%R with (sqrt (2.45 * 2.45))
          by (rewrite sqrt_square; lra).
        apply sqrt_le_1_alt. lra. }
      lra. }
    split; [exact Hle |]. cbn [ge le sub add neg]. apply Rleb_false. lra. }
  split.
  - rewrite calculateSampleSizeForPower_eq. cbn [alphaOf].
    rewrite zOf_005. cbn [sub add neg Math_abs mul].
    rewrite HD, div_fin by lra. cbn [Math_pow Math_ceil].
    set (n := Rceil (((z05 + z05) * 1 / 1) ^ 2)).
    assert (Hq : (((z05 + z05) * 1 / 1) ^ 2 = (z05 + z05) ^ 2)%R)
      by (f_equal; field).
    assert (Hn : (3 < n <= 6)%R).
    { split.
      - apply Rlt_le_trans with (((z05 + z05) * 1 / 1) ^ 2)%R;
          [rewrite Hq; nra | apply Rceil_ge].
      - unfold n. apply (Rceil_le_IZR _ 6). rewrite Hq. lra. }
    destruct (Hpower n ltac:(lra)) as (p & Ep & Hp).
    exists n, p. split; [reflexivity |]. split; [exact Hn |].
    split; [exact Ep | exact Hp].
  - destruct (Hpower 2%R ltac:(lra)) as (p & Ep & Hp).
    exists p. split; [| split; [exact Ep | exact Hp]].
    unfold Statistics.calculateSampleSizeForPower.
    rewrite normalCDF_R. cbn [sub add neg Math_abs mul].
    rewrite HD, div_fin by lra. cbn [Math_pow Math_ceil]. f_equal.
    pose proof RnormalCDF_005 as [L U].
    apply (Rceil_between _ 2). nra.
Qed.

End PowerTarget.

(** * Further properties of the embedded code *)

(** ** Sorting a finite sample *)

Section Sorting.

Import Statistics.
Local Open Scope js_scope.

Lemma insert_sorted_fin (x : R) (ys : list R) :
  StronglySorted Rle ys ->
  exists zs : list R,
    insert_sorted (Fin x) (map Fin ys) = map Fin zs
    /\ Permutation (x :: ys) zs /\ StronglySorted Rle zs.
Proof.
  induction ys as [|y ys IH]; intros Hs.
  - exists [x]. repeat split; [apply Permutation_refl | repeat constructor].
  - cbn [map insert_sorted le]. destruct (Rle_dec x y) as [Hxy|Hxy].
    + rewrite (Rleb_true x y Hxy). exists (x :: y :: ys).
      repeat split; [apply Permutation_refl |].
      constructor; [exact Hs |].
      constructor; [exact Hxy |].
      apply StronglySorted_inv in Hs. destruct Hs as [_ Hall].
      eapply Forall_impl; [| exact Hall]. intros a Ha. cbv beta in Ha. lra.
    + rewrite (Rleb_false x y) by lra.
      pose proof (StronglySorted_inv Hs) as [Hs' Hall].
      destruct (IH Hs') as (zs & Ez & Pz & Sz).
      exists (y :: zs). rewrite Ez. repeat split.
      * eapply perm_trans; [apply perm_swap | apply perm_skip; exact Pz].
      * constructor; [exact Sz |].
        eapply Permutation_Forall; [exact Pz |].
        constructor; [lra | exact Hall].
Qed.

Lemma sort_fin (xs : list R) :
  exists ys : list R,
    sort (map Fin xs) = map Fin ys
    /\ Permutation xs ys /\ StronglySorted Rle ys.
Proof.
  induction xs as [|x xs (ys & Ey & Py & Sy)].
  - exists []. repeat split; constructor.
  - unfold sort in *. cbn [map fold_right]. rewrite Ey.
    destruct (insert_sorted_fin x ys Sy) as (zs & Ez & Pz & Sz).
    exists zs. repeat split; [exact Ez | | exact Sz].
    eapply perm_trans; [apply perm_skip; exact Py | exact Pz].
Qed.

(** A sorted list is determined by its elements. *)
Lemma sorted_permutation_unique (l1 l2 : list R) :
  StronglySorted Rle l1 -> StronglySorted Rle l2 -> Permutation l1 l2 ->
  l1 = l2.
Proof.
  revert l2. induction l1 as [|a l1 IH]; intros l2 S1 S2 P.
  - apply Permutation_nil in P. now subst.
  - destruct l2 as [|b l2].
    + apply Permutation_sym, Permutation_nil in P. discriminate.
    + pose proof (StronglySorted_inv S1) as [S1' A1].
      pose proof (StronglySorted_inv S2) as [S2' A2].
      assert (Hab : a = b).
      { assert (Ia : In a (b :: l2))
          by (eapply Permutation_in; [exact P | now left]).
        assert (Ib : In b (a :: l1))
          by (eapply Permutation_in;
              [apply Permutation_sym; exact P | now left]).
        rewrite Forall_forall in A1, A2.
        destruct Ia as [Ia|Ia]; [now symmetry |].
        destruct Ib as [Ib|Ib]; [exact Ib |].
        specialize (A1 b Ib). specialize (A2 a Ia). lra. }
      subst b. f_equal. apply IH; [exact S1' | exact S2' |].
      eapply Permutation_cons_inv; exact P.
Qed.

Lemma sort_permutation_invariant (xs xs' : list R) :
  Permutation xs xs' -> sort (map Fin xs) = sort (map Fin xs').
Proof.
  intros P.
  destruct (sort_fin xs) as (ys & Ey & Py & Sy).
  destruct (sort_fin xs') as (ys' & Ey' & Py' & Sy').
  rewrite Ey, Ey'. f_equal.
  apply sorted_permutation_unique; [exact Sy | exact Sy' |].
  eapply perm_trans; [apply Permutation_sym; exact Py |].
  eapply perm_trans; [exact P | exact Py'].
Qed.

Lemma sorted_nth_le (ys : list R) (i j : nat) :
  StronglySorted Rle ys -> (i <= j)%nat -> (j < length ys)%nat ->
  (nth i ys 0 <= nth j ys 0)%R.
Proof.
  intros Hs. revert i j. induction Hs as [|a ys Hs IH Hall]; intros i j Hij Hj.
  - cbn in Hj. lia.
  - destruct i as [|i], j as [|j]; cbn [nth]; cbn [length] in Hj.
    + lra.
    + rewrite Forall_forall in Hall. apply Hall, nth_In. lia.
    + lia.
    + apply IH; lia.
Qed.

Lemma count_le_sorted (ys : list R) (k : nat) (v : R) :
  StronglySorted Rle ys -> (k < length ys)%nat -> (nth k ys 0 <= v)%R ->
  (S k <= length (filter (fun x => Rleb x v) ys))%nat.
Proof.
  intros Hs. revert k.
  induction Hs as [|a ys Hs IH Hall]; intros k Hk Hv; cbn [length] in Hk.
  - lia.
  - assert (Ha : (a <= v)%R).
    { destruct k as [|k]; cbn [nth] in Hv; [exact Hv |].
      rewrite Forall_forall in Hall.
      assert (a <= nth k ys 0)%R by (apply Hall, nth_In; lia). lra. }
    cbn [filter]. rewrite (Rleb_true a v Ha). cbn [length].
    destruct k as [|k]; [lia |].
    cbn [nth] in Hv. assert (Hk' : (k < length ys)%nat) by lia.
    specialize (IH k Hk' Hv). lia.
Qed.

Lemma filter_all (f : R -> bool) (ys : list R) :
  Forall (fun x => f x = true) ys -> filter f ys = ys.
Proof.
  induction 1 as [|a ys Ha _ IH]; cbn [filter]; [reflexivity |].
  now rewrite Ha, IH.
Qed.

Lemma count_ge_sorted (ys : list R) (k : nat) (v : R) :
  StronglySorted Rle ys -> (k < length ys)%nat -> (v <= nth k ys 0)%R ->
  (length ys - k <= length (filter (fun x => Rleb v x) ys))%nat.
Proof.
  intros Hs. revert k.
  induction Hs as [|a ys Hs IH Hall]; intros k Hk Hv; cbn [length] in Hk.
  - lia.
  - destruct k as [|k]; cbn [nth] in Hv.
    + rewrite filter_all; [lia |].
      constructor; [apply Rleb_true; exact Hv |].
      eapply Forall_impl; [| exact Hall].
      intros x Hx. cbv beta in Hx. apply Rleb_true. lra.
    + assert (Hk' : (k < length ys)%nat) by lia.
      specialize (IH k Hk' Hv). cbn [filter length].
      destruct (Rleb v a); cbn [length]; lia.
Qed.

Lemma filter_length_permutation (f : R -> bool) (l1 l2 : list R) :
  Permutation l1 l2 -> length (filter f l1) = length (filter f l2).
Proof.
  induction 1 as [| x l l' _ IH | x y l | l l' l'' _ IH1 _ IH2];
    cbn [filter].
  - reflexivity.
  - destruct (f x); cbn [length]; now rewrite IH.
  - destruct (f x), (f y); reflexivity.
  - now rewrite IH1.
Qed.

End Sorting.

(** ** Median, quartiles and mode *)

Section OrderStatistics.

Import Statistics.
Local Open Scope js_scope.

Lemma sort_length_fin (xs ys : list R) :
  Permutation xs ys -> length ys = length xs.
Proof. intros P. symmetry. apply Permutation_length, P. Qed.

Lemma calculateMedian_sorted (xs ys : list R) :
  xs <> [] -> sort (map Fin xs) = map Fin ys -> length ys = length xs ->
  calculateMedian (map Fin xs)
  = Ok (Fin (if Nat.eqb (length xs mod 2) 0
             then (nth (length xs / 2 - 1) ys 0 + nth (length xs / 2) ys 0) / 2
             else nth (length xs / 2) ys 0)%R).
Proof.
  intros Hne Es El. unfold calculateMedian.
  rewrite isEmpty_map_fin by exact Hne. rewrite Es, length_map, El.
  assert (Hpos : (0 < length xs)%nat)
    by (destruct xs; [contradiction | cbn; lia]).
  assert (Hhalf : (length xs / 2 < length xs)%nat)
    by (apply Nat.div_lt; lia).
  destruct (Nat.eqb (length xs mod 2) 0) eqn:Ev.
  - rewrite !get_map_fin by lia. cbn [add]. rewrite div_fin by lra.
    reflexivity.
  - rewrite get_map_fin by lia. reflexivity.
Qed.

(** X1: the median splits the sample.  For a non-empty sample of finite
    numbers of magnitude at most [1e100] (so that the sum of the two
    middle observations cannot overflow) [calculateMedian] returns a
    finite number [m] such that at least half of the observations are at
    most [m] and at least half are at least [m]; the result does not
    depend on the order of the observations. *)
Theorem median_splits_the_sample (xs : list R) :
  xs <> [] ->
  Forall (fun x => Rabs x <= 1e100)%R xs ->
  exists m : R,
    calculateMedian (map Fin xs) = Ok (Fin m)
    /\ (length xs <= 2 * length (filter (fun x => Rleb x m) xs))%nat
    /\ (length xs <= 2 * length (filter (fun x => Rleb m x) xs))%nat
    /\ forall xs' : list R,
         Permutation xs xs' -> calculateMedian (map Fin xs') = Ok (Fin m).
Proof.
  intros Hne _.
  destruct (sort_fin xs) as (ys & Es & P & Hs).
  pose proof (sort_length_fin xs ys P) as El.
  rewrite (calculateMedian_sorted xs ys Hne Es El).
  eexists. split; [reflexivity |].
  assert (Hpos : (0 < length xs)%nat)
    by (destruct xs; [contradiction | cbn; lia]).
  assert (Hhalf : (length xs / 2 < length xs)%nat)
    by (apply Nat.div_lt; lia).
  pose proof (Nat.div_mod_eq (length xs) 2) as Hdm.
  pose proof (Nat.mod_upper_bound (length xs) 2) as Hmb.
  rewrite !(filter_length_permutation _ xs ys P).
  split; [| split].
  - destruct (Nat.eqb (length xs mod 2) 0) eqn:Ev.
    + apply Nat.eqb_eq in Ev.
      pose proof (sorted_nth_le ys (length xs / 2 - 1) (length xs / 2) Hs)
        as Hle.
      pose proof (count_le_sorted ys (length xs / 2 - 1)
                    ((nth (length xs / 2 - 1) ys 0
                      + nth (length xs / 2) ys 0) / 2) Hs) as Hc.
      rewrite El in Hle, Hc.
      assert (nth (length xs / 2 - 1) ys 0 <= nth (length xs / 2) ys 0)%R
        by (apply Hle; lia).
      assert (Hc1 := Hc ltac:(lia) ltac:(lra)).
      lia.
    + pose proof (count_le_sorted ys (length xs / 2)
                    (nth (length xs / 2) ys 0) Hs) as Hc.
      rewrite El in Hc.
      assert (Hc1 := Hc ltac:(lia) ltac:(lra)).
      apply Nat.eqb_neq in Ev. lia.
  - destruct (Nat.eqb (length xs mod 2) 0) eqn:Ev.
    + apply Nat.eqb_eq in Ev.
      pose proof (sorted_nth_le ys (length xs / 2 - 1) (length xs / 2) Hs)
        as Hle.
      pose proof (count_ge_sorted ys (length xs / 2)
                    ((nth (length xs / 2 - 1) ys 0
                      + nth (length xs / 2) ys 0) / 2) Hs) as Hc.
      rewrite El in Hle, Hc.
      assert (nth (length xs / 2 - 1) ys 0 <= nth (length xs / 2) ys 0)%R
        by (apply Hle; lia).
      assert (Hc1 := Hc ltac:(lia) ltac:(lra)).
      lia.
    + pose proof (count_ge_sorted ys (length xs / 2)
                    (nth (length xs / 2) ys 0) Hs) as Hc.
      rewrite El in Hc.
      assert (Hc1 := Hc ltac:(lia) ltac:(lra)).
      lia.
  - intros xs' P'.
    assert (Hne' : xs' <> []).
    { intros ->. apply Permutation_sym, Permutation_nil in P'.
      contradiction. }
    assert (Es' : sort (map Fin xs') = map Fin ys)
      by (rewrite <- (sort_permutation_invariant xs xs' P'); exact Es).
    assert (El' : length ys = length xs')
      by (rewrite El; apply Permutation_length, P').
    rewrite (calculateMedian_sorted xs' ys Hne' Es' El').
    rewrite <- (Permutation_length P'). reflexivity.
Qed.

Lemma median_splits_the_sample_witness :
  exists m : R,
    calculateMedian (map Fin [3; 1; 2]%R) = Ok (Fin m)
    /\ (3 <= 2 * length (filter (fun x => Rleb x m) [3; 1; 2]%R))%nat
    /\ (3 <= 2 * length (filter (fun x => Rleb m x) [3; 1; 2]%R))%nat
    /\ forall xs' : list R,
         Permutation [3; 1; 2]%R xs' ->
         calculateMedian (map Fin xs') = Ok (Fin m).
Proof.
  apply (median_splits_the_sample [3; 1; 2]%R); [discriminate |].
  repeat (constructor; [rewrite Rabs_right; lra |]). constructor.
Defined.

End OrderStatistics.

Section Quartiles.

Import Statistics.
Local Open Scope js_scope.



End Quartiles.

Section Mode.

Import Statistics.

Lemma freq_bump (x k : num) (m : list (num * nat)) :
  freq k (bump x m)
  = if num_eq_dec k x then S (freq x m) else freq k m.
Proof.
  induction m as [|[k' c] m IH]; cbn [bump freq].
  - destruct (num_eq_dec k x) as [e|n]; [| reflexivity].
    destruct (num_eq_dec x x); [reflexivity | contradiction].
  - destruct (num_eq_dec x k') as [e|n]; cbn [freq].
    + subst k'. destruct (num_eq_dec k x) as [e|n]; [reflexivity |].
      reflexivity.
    + destruct (num_eq_dec k k') as [e'|n'].
      * subst k'. destruct (num_eq_dec k x) as [e|n2]; [| reflexivity].
        subst k. contradiction.
      * exact IH.
Qed.

Lemma keys_bump (x : num) (m : list (num * nat)) :
  map fst (bump x m)
  = if in_dec num_eq_dec x (map fst m) then map fst m
    else map fst m ++ [x].
Proof.
  induction m as [|[k' c] m IH]; cbn [bump map fst].
  - destruct (in_dec num_eq_dec x []) as [[]|_]. reflexivity.
  - destruct (num_eq_dec x k') as [e|n]; cbn [map fst].
    + subst k'.
      destruct (in_dec num_eq_dec x (x :: map fst m)) as [_|n];
        [reflexivity |]. exfalso. apply n. now left.
    + rewrite IH.
      destruct (in_dec num_eq_dec x (map fst m)) as [i|ni];
        destruct (in_dec num_eq_dec x (k' :: map fst m)) as [i'|ni'];
        try reflexivity.
      * exfalso. apply ni'. now right.
      * exfalso. destruct i' as [e|i']; [now apply n | contradiction].
Qed.

Lemma entry_of_freq (m : list (num * nat)) (k : num) (c : nat) :
  NoDup (map fst m) ->
  (In (k, c) m <-> In k (map fst m) /\ freq k m = c).
Proof.
  induction m as [|[k' c'] m IH]; cbn [map fst freq In]; intros Hnd.
  - tauto.
  - apply NoDup_cons_iff in Hnd. destruct Hnd as [Hni Hnd].
    specialize (IH Hnd).
    destruct (num_eq_dec k k') as [e|n].
    + subst k'. split.
      * intros [H|H]; [injection H as ->; tauto |].
        exfalso. apply Hni. apply IH in H. tauto.
      * intros [_ ->]. now left.
    + split.
      * intros [H|H]; [injection H as -> _; contradiction |].
        apply IH in H. tauto.
      * intros [[H|H] Hc]; [symmetry in H; contradiction |].
        right. apply IH. tauto.
Qed.

Lemma insertEntry_permutation (e : num * nat) (l : list (num * nat)) :
  Permutation (insertEntry e l) (e :: l).
Proof.
  induction l as [|e' l IH]; cbn [insertEntry]; [reflexivity |].
  destruct (lt (fst e) (fst e')); [reflexivity |].
  rewrite IH. apply perm_swap.
Qed.

Lemma filter_partition_permutation {A : Type} (f : A -> bool) (l : list A) :
  Permutation (filter f l ++ filter (fun x => negb (f x)) l) l.
Proof.
  induction l as [|x l IH]; cbn [filter app]; [reflexivity |].
  destruct (f x); cbn [negb app].
  - now constructor.
  - rewrite <- Permutation_middle. now constructor.
Qed.

(** [Object.entries] lists every entry of the map once. *)
Lemma entries_permutation (m : list (num * nat)) :
  Permutation (entries m) m.
Proof.
  unfold entries.
  rewrite <- (filter_partition_permutation
                (fun e => isArrayIndex (fst e)) m) at 3.
  apply Permutation_app_tail.
  induction (filter (fun e => isArrayIndex (fst e)) m) as [|e l IH];
    cbn [fold_right]; [reflexivity |].
  rewrite insertEntry_permutation. now constructor.
Qed.

Lemma filter_permutation {A : Type} (f : A -> bool) (l l' : list A) :
  Permutation l l' -> Permutation (filter f l) (filter f l').
Proof.
  induction 1 as [| x l l' _ IH | x y l | l l' l'' _ IH1 _ IH2];
    cbn [filter].
  - reflexivity.
  - destruct (f x); [now constructor | exact IH].
  - destruct (f x), (f y); try reflexivity. apply perm_swap.
  - now rewrite IH1.
Qed.

(** The modes are those of the frequency map read in order of insertion,
    in the order [Object.entries] gives them. *)
Lemma modes_permutation (mx : nat) (m : list (num * nat)) :
  Permutation
    (map fst (filter (fun '(_, c) => Nat.eqb c mx) (entries m)))
    (map fst (filter (fun '(_, c) => Nat.eqb c mx) m)).
Proof.
  apply Permutation_map, filter_permutation, entries_permutation.
Qed.

Lemma modeState_step (seen : list num) (m : list (num * nat)) (mx : nat)
  (x : num) :
  modeState seen (m, mx) ->
  modeState (seen ++ [x])
    (bump x m, Nat.max mx (freq x (bump x m))).
Proof.
  intros (Hnd & Hk & Hf & Hle & Hmax). unfold modeState.
  assert (Hcount : forall k,
             count_occ num_eq_dec (seen ++ [x]) k
             = if num_eq_dec k x then S (count_occ num_eq_dec seen k)
               else count_occ num_eq_dec seen k).
  { intros k. rewrite count_occ_app. cbn [count_occ].
    destruct (num_eq_dec x k) as [e|n], (num_eq_dec k x) as [e'|n'];
      try lia; subst; contradiction. }
  assert (Hfx : freq x (bump x m) = S (count_occ num_eq_dec seen x)).
  { rewrite freq_bump. destruct (num_eq_dec x x); [| contradiction].
    now rewrite Hf. }
  split; [| split; [| split; [| split]]].
  - rewrite keys_bump. destruct (in_dec num_eq_dec x (map fst m)) as [i|ni].
    + exact Hnd.
    + apply NoDup_app; [exact Hnd | repeat constructor; intros [] |].
      intros a Ha [<-|[]]. contradiction.
  - intros k. rewrite keys_bump, in_app_iff. cbn [In].
    destruct (in_dec num_eq_dec x (map fst m)) as [i|ni].
    + rewrite Hk. split; [tauto |]. intros [H|[<-|[]]]; [exact H |].
      apply Hk, i.
    + rewrite in_app_iff, Hk. cbn [In]. tauto.
  - intros k. rewrite freq_bump, Hcount.
    destruct (num_eq_dec k x) as [->|n]; [now rewrite Hf | apply Hf].
  - intros k. rewrite Hcount, Hfx. specialize (Hle k).
    destruct (num_eq_dec k x) as [->|n]; lia.
  - right. rewrite Hfx.
    destruct (Nat.max_spec mx (S (count_occ num_eq_dec seen x)))
      as [[Hlt ->]|[Hge ->]].
    + exists x. split; [apply in_or_app; right; now left |].
      rewrite Hcount. destruct (num_eq_dec x x); [reflexivity | contradiction].
    + destruct Hmax as [[-> ->]|(k & Hin & Hc)]; [cbn in Hge; lia |].
      exists k. split; [apply in_or_app; now left |].
      rewrite Hcount. destruct (num_eq_dec k x) as [->|n]; [lia | exact Hc].
Qed.

Lemma modeState_fold (data seen : list num) (s : list (num * nat) * nat) :
  modeState seen s ->
  modeState (seen ++ data)
    (fold_left (fun '(m, mx) x =>
                  let m' := bump x m in (m', Nat.max mx (freq x m')))
       data s).
Proof.
  revert seen s. induction data as [|x data IH]; intros seen [m mx] Hs.
  - now rewrite app_nil_r.
  - cbn [fold_left].
    replace (seen ++ x :: data) with ((seen ++ [x]) ++ data)
      by (now rewrite <- app_assoc).
    apply IH, modeState_step, Hs.
Qed.

(** X3: the modes are the most frequent values.  For every non-empty
    sample (of any numbers) [calculateMode] returns a non-empty list
    without repetition that holds exactly the values of the sample that no
    other value occurs more often than. *)
Theorem mode_is_most_frequent (data : list num) :
  data <> [] ->
  exists modes : list num,
    calculateMode data = Ok modes
    /\ modes <> [] /\ NoDup modes
    /\ forall v : num,
         In v modes
         <-> In v data
             /\ forall x : num,
                  (count_occ num_eq_dec data x
                   <= count_occ num_eq_dec data v)%nat.
Proof.
  intros Hne. unfold calculateMode.
  destruct data as [|d0 data0]; [contradiction |].
  cbn [isEmpty]. set (data := d0 :: data0) in *.
  pose proof (modeState_fold data [] ([], O)) as Hinv.
  cbn [app] in Hinv.
  destruct (fold_left _ data ([], O)) as [m mx] eqn:Ef.
  assert (H0 : modeState [] ([], O)).
  { unfold modeState. cbn [map count_occ In].
    split; [constructor | split; [tauto | split; [reflexivity |]]].
    split; [intros; lia | now left]. }
  specialize (Hinv H0). destruct Hinv as (Hnd & Hk & Hf & Hle & Hmax).
  destruct Hmax as [[E _]|(k0 & Hin0 & Hc0)]; [discriminate |].
  eexists. split; [reflexivity |].
  pose proof (modes_permutation mx m) as Pm.
  set (modes := map fst (filter (fun '(_, c) => Nat.eqb c mx) (entries m)))
    in *.
  assert (Hmode : forall v,
             In v (map fst (filter (fun '(_, c) => Nat.eqb c mx) m))
             <-> In v data /\ count_occ num_eq_dec data v = mx).
  { intros v. rewrite in_map_iff. split.
    - intros ([k c] & <- & Hin). apply filter_In in Hin.
      destruct Hin as [Hin Hc]. apply Nat.eqb_eq in Hc. cbn [fst].
      apply entry_of_freq in Hin; [| exact Hnd]. destruct Hin as [Hin Hfr].
      split; [apply Hk, Hin | now rewrite <- Hf, Hfr].
    - intros [Hin Hc]. exists (v, mx). split; [reflexivity |].
      apply filter_In. split; [| apply Nat.eqb_refl].
      apply entry_of_freq; [exact Hnd |].
      split; [apply Hk, Hin | now rewrite Hf]. }
  assert (Hin : forall v,
             In v modes
             <-> In v (map fst (filter (fun '(_, c) => Nat.eqb c mx) m))).
  { intros v. split; apply Permutation_in;
      [exact Pm | apply Permutation_sym, Pm]. }
  split; [| split].
  - intros E.
    assert (Hi : In k0 modes) by (apply Hin, Hmode; tauto).
    rewrite E in Hi. destruct Hi.
  - apply (Permutation_NoDup (Permutation_sym Pm)). clear - Hnd.
    induction m as [|[k c] m IH]; cbn [filter map]; [constructor |].
    cbn [map fst] in Hnd. apply NoDup_cons_iff in Hnd.
    destruct Hnd as [Hni Hnd].
    destruct (Nat.eqb c mx); cbn [map fst]; [| apply IH, Hnd].
    constructor; [| apply IH, Hnd].
    intros Hin. apply Hni. apply in_map_iff in Hin.
    destruct Hin as ([k' c'] & E & Hin). cbn [fst] in E. subst k'.
    apply filter_In in Hin. apply in_map_iff. exists (k, c'). tauto.
  - intros v. rewrite Hin, Hmode. split.
    + intros [Hv Hc]. split; [exact Hv |]. intros x. rewrite Hc. apply Hle.
    + intros [Hv Hall]. split; [exact Hv |].
      specialize (Hall k0). specialize (Hle v). lia.
Qed.

Lemma mode_is_most_frequent_witness :
  exists modes : list num,
    calculateMode [Fin 1; Fin 2; Fin 2; NaN] = Ok modes
    /\ modes <> [] /\ NoDup modes
    /\ forall v : num,
         In v modes
         <-> In v [Fin 1; Fin 2; Fin 2; NaN]
             /\ forall x : num,
                  (count_occ num_eq_dec [Fin 1; Fin 2; Fin 2; NaN] x
                   <= count_occ num_eq_dec [Fin 1; Fin 2; Fin 2; NaN] v)%nat.
Proof.
  apply (mode_is_most_frequent [Fin 1; Fin 2; Fin 2; NaN]). discriminate.
Defined.

End Mode.

Section Summary.

Import Statistics.
Local Open Scope js_scope.

Lemma map_fin_nonempty (xs : list R) : xs <> [] -> map Fin xs <> [].
Proof. destruct xs; [congruence | discriminate]. Qed.

Lemma calculateMode_returns (data : list num) :
  data <> [] -> exists modes, calculateMode data = Ok modes.
Proof.
  intros H. unfold calculateMode.
  destruct data; [contradiction |]. cbn [isEmpty].
  destruct (fold_left _ _ _) as [m mx]. eexists. reflexivity.
Qed.

Lemma calculateSkewness_returns (data : list num) :
  data <> [] -> exists s, calculateSkewness data None = Ok s.
Proof.
  intros H. unfold calculateSkewness.
  destruct (calculateMean_nonempty data H) as [m Em].
  destruct (calculateStd_nonempty data H) as [s Es].
  destruct data; [contradiction |]. cbn [isEmpty field or_else_r truthy_opt].
  rewrite Em, Es. cbn [bind]. destruct (eq s (Fin 0)); eexists; reflexivity.
Qed.

Lemma calculateKurtosis_returns (data : list num) :
  data <> [] -> exists k, calculateKurtosis data None = Ok k.
Proof.
  intros H. unfold calculateKurtosis.
  destruct (calculateMean_nonempty data H) as [m Em].
  destruct (calculateStd_nonempty data H) as [s Es].
  destruct data; [contradiction |]. cbn [isEmpty field or_else_r truthy_opt].
  rewrite Em, Es. cbn [bind]. destruct (eq s (Fin 0)); eexists; reflexivity.
Qed.

Lemma calculateConfidenceInterval_returns (data : list num) (cl : num)
  (options : CIOptions) :
  data <> [] ->
  exists ci, calculateConfidenceInterval data cl options = Ok ci.
Proof.
  intros H.
  destruct (calculateMean_nonempty data H) as [m Em].
  destruct (standardErrorOf_nonempty data options H) as [se Ese].
  rewrite (calculateConfidenceInterval_shape data cl options m se H Em Ese).
  eexists. reflexivity.
Qed.

Lemma calculateQuartiles_sorted (xs ys : list R) :
  xs <> [] -> sort (map Fin xs) = map Fin ys -> length xs = length ys ->
  calculateQuartiles (map Fin xs)
  = Ok (mkQuartiles (Fin (nth (length xs / 4) ys 0))
          (Fin (nth (3 * length xs / 4) ys 0))
          (Fin (nth (3 * length xs / 4) ys 0 - nth (length xs / 4) ys 0))).
Proof.
  intros Hne Es El.
  assert (Hpos : (0 < length xs)%nat)
    by (destruct xs; [contradiction | cbn; lia]).
  assert (H1 : (length xs / 4 < length xs)%nat)
    by (apply Nat.div_lt; lia).
  assert (H3 : (3 * length xs / 4 < length xs)%nat)
    by (apply Nat.Div0.div_lt_upper_bound; lia).
  unfold calculateQuartiles. rewrite isEmpty_map_fin by exact Hne.
  rewrite Es, length_map, <- El. rewrite !get_map_fin by lia.
  reflexivity.
Qed.

Lemma sorted_bounds (ys : list R) :
  StronglySorted Rle ys -> ys <> [] ->
  Forall (fun x => nth 0 ys 0 <= x <= nth (length ys - 1) ys 0)%R ys.
Proof.
  intros Hs Hne. apply Forall_forall. intros x Hx.
  destruct (In_nth ys x 0%R Hx) as (i & Hi & <-).
  split; apply sorted_nth_le; try exact Hs; lia.
Qed.

(** X4: the descriptive summary is consistent.  For a non-empty sample of
    finite numbers of magnitude at most [1e100] (so that no sum of
    observations or of squares overflows), whatever the confidence level
    and the options, [calculateDescriptiveStats] returns a summary whose
    [min] and [max] are observations that bound every observation, with
    [range = max - min], [count] the sample size, the median and both
    quartiles between [min] and [max], [q1 <= q3], and a variance that is
    not negative with [std] its square root.  The mean is the sum divided
    by the count; nothing is said of its position, which rounding can
    move past [min] or [max] by a unit in the last place. *)
Theorem descriptive_summary_is_consistent (xs : list R)
  (confidenceLevel : option num) (options : option CIOptions) :
  xs <> [] ->
  Forall (fun x => Rabs x <= 1e100)%R xs ->
  exists (s : DescriptiveStats) (lo hi med a b : R),
    calculateDescriptiveStats (map Fin xs) confidenceLevel options = Ok s
    /\ ds_min s = Fin lo /\ ds_max s = Fin hi /\ ds_range s = Fin (hi - lo)
    /\ ds_count s = length xs
    /\ In lo xs /\ In hi xs /\ Forall (fun x => lo <= x <= hi)%R xs
    /\ ds_mean s = Fin (Rmean xs)
    /\ ds_median s = Fin med /\ (lo <= med <= hi)%R
    /\ ds_q1 s = Fin a /\ ds_q3 s = Fin b /\ ds_iqr s = Fin (b - a)
    /\ (lo <= a <= b)%R /\ (b <= hi)%R
    /\ ds_variance s = Fin (Rvariance xs) /\ (0 <= Rvariance xs)%R
    /\ ds_std s = Fin (sqrt (Rvariance xs)).
Proof.
  intros Hne _.
  pose proof (map_fin_nonempty xs Hne) as Hne'.
  destruct (sort_fin xs) as (ys & Es & P & Hs).
  pose proof (Permutation_length P) as El.
  assert (Hpos : (0 < length xs)%nat)
    by (destruct xs; [contradiction | cbn; lia]).
  assert (Hys : ys <> []) by (intros ->; cbn in El; lia).
  assert (Hhalf : (length xs / 2 < length xs)%nat)
    by (apply Nat.div_lt; lia).
  assert (H1 : (length xs / 4 < length xs)%nat)
    by (apply Nat.div_lt; lia).
  assert (H3 : (3 * length xs / 4 < length xs)%nat)
    by (apply Nat.Div0.div_lt_upper_bound; lia).
  assert (H13 : (length xs / 4 <= 3 * length xs / 4)%nat)
    by (apply Nat.Div0.div_le_mono; lia).
  destruct (calculateMode_returns _ Hne') as [modes Emode].
  destruct (calculateSkewness_returns _ Hne') as [sk Esk].
  destruct (calculateKurtosis_returns _ Hne') as [ku Eku].
  destruct (calculateConfidenceInterval_returns (map Fin xs)
              (default (Fin 0.95) confidenceLevel)
              (default (mkCIOptions (Some false) (Some false) None None)
                 options) Hne') as [ci Eci].
  pose proof (sorted_bounds ys Hs Hys) as Hb. rewrite <- El in Hb.
  assert (Hbx : Forall (fun x => nth 0 ys 0 <= x
                                 <= nth (length xs - 1) ys 0)%R xs).
  { apply Forall_forall. intros x Hx. rewrite Forall_forall in Hb.
    apply Hb. eapply Permutation_in; [exact P | exact Hx]. }
  assert (Hin : forall i, (i < length xs)%nat -> In (nth i ys 0%R) xs).
  { intros i Hi. eapply Permutation_in; [apply Permutation_sym; exact P |].
    apply nth_In. lia. }
  assert (Hnth : forall i, (i < length xs)%nat ->
             (nth 0 ys 0 <= nth i ys 0 <= nth (length xs - 1) ys 0)%R).
  { intros i Hi. split; apply sorted_nth_le; try exact Hs; lia. }
  unfold calculateDescriptiveStats.
  rewrite isEmpty_map_fin by exact Hne.
  rewrite (calculateMean_fin xs Hne),
    (calculateMedian_sorted xs ys Hne Es (eq_sym El)), Emode,
    (calculateVariance_fin xs Hne), (calculateStd_fin xs Hne), Esk, Eku,
    (calculateQuartiles_sorted xs ys Hne Es El), Eci.
  cbn [bind q1 q3 iqr]. rewrite Es, length_map, <- El.
  rewrite !get_map_fin by lia.
  eexists. exists (nth 0 ys 0%R), (nth (length xs - 1) ys 0%R).
  eexists.
  exists (nth (length xs / 4) ys 0%R), (nth (3 * length xs / 4) ys 0%R).
  split; [reflexivity |].
  cbn [ds_min ds_max ds_range ds_count ds_mean ds_median ds_q1 ds_q3 ds_iqr
       ds_variance ds_std sub add neg].
  pose proof (Hnth (length xs / 4)%nat H1) as Hq1.
  pose proof (Hnth (3 * length xs / 4)%nat H3) as Hq3.
  pose proof (sorted_nth_le ys _ _ Hs H13 ltac:(lia)) as Hq13.
  pose proof (Rvariance_nonneg xs Hne) as Hvar.
  assert (Hmed : (nth 0 ys 0
                  <= (if Nat.eqb (length xs mod 2) 0
                      then (nth (length xs / 2 - 1) ys 0
                            + nth (length xs / 2) ys 0) / 2
                      else nth (length xs / 2) ys 0)
                  <= nth (length xs - 1) ys 0)%R).
  { destruct (Nat.eqb (length xs mod 2) 0).
    - pose proof (Hnth (length xs / 2 - 1)%nat ltac:(lia)).
      pose proof (Hnth (length xs / 2)%nat ltac:(lia)). lra.
    - apply Hnth. lia. }
  repeat match goal with |- _ /\ _ => split end;
    try reflexivity; try (apply Hin; lia); try exact Hbx; lra.
Qed.

Lemma descriptive_summary_is_consistent_witness :
  exists (s : DescriptiveStats) (lo hi med a b : R),
    calculateDescriptiveStats (map Fin [2; 1; 4; 3]%R) None None = Ok s
    /\ ds_min s = Fin lo /\ ds_max s = Fin hi /\ ds_range s = Fin (hi - lo)
    /\ ds_count s = length [2; 1; 4; 3]%R
    /\ In lo [2; 1; 4; 3]%R /\ In hi [2; 1; 4; 3]%R
    /\ Forall (fun x => lo <= x <= hi)%R [2; 1; 4; 3]%R
    /\ ds_mean s = Fin (Rmean [2; 1; 4; 3]%R)
    /\ ds_median s = Fin med /\ (lo <= med <= hi)%R
    /\ ds_q1 s = Fin a /\ ds_q3 s = Fin b /\ ds_iqr s = Fin (b - a)
    /\ (lo <= a <= b)%R /\ (b <= hi)%R
    /\ ds_variance s = Fin (Rvariance [2; 1; 4; 3]%R)
    /\ (0 <= Rvariance [2; 1; 4; 3]%R)%R
    /\ ds_std s = Fin (sqrt (Rvariance [2; 1; 4; 3]%R)).
Proof.
  apply (descriptive_summary_is_consistent [2; 1; 4; 3]%R None None);
    [discriminate |].
  repeat (constructor; [rewrite Rabs_right; lra |]). constructor.
Defined.

End Summary.

(** ** Estimators for the other distributions *)

Section Estimators.

Import Statistics.
Local Open Scope string_scope.

Lemma Math_min_fold_attained (xs : list R) (a : R) :
  exists m : R,
    fold_left Math_min (map Fin xs) (Fin a) = Fin m
    /\ (m = a \/ In m xs) /\ (m <= a)%R /\ Forall (fun x => m <= x)%R xs.
Proof.
  revert a. induction xs as [|x xs IH]; intros a.
  - exists a. cbn. repeat split; [now left | lra | constructor].
  - cbn [map fold_left Math_min lt].
    destruct (Rlt_dec x a) as [H|H].
    + rewrite (Rltb_true x a H).
      destruct (IH x) as (m & E & Hm & Hle & Hall). exists m.
      rewrite E. repeat split; [| lra |].
      * right. destruct Hm as [->|Hm]; [now left | now right].
      * constructor; [exact Hle | exact Hall].
    + rewrite (Rltb_false x a) by lra.
      destruct (IH a) as (m & E & Hm & Hle & Hall). exists m.
      rewrite E. repeat split; [| lra |].
      * destruct Hm as [->|Hm]; [now left | right; now right].
      * constructor; [lra | exact Hall].
Qed.

Lemma Math_max_fold_attained (xs : list R) (a : R) :
  exists M : R,
    fold_left Math_max (map Fin xs) (Fin a) = Fin M
    /\ (M = a \/ In M xs) /\ (a <= M)%R /\ Forall (fun x => x <= M)%R xs.
Proof.
  revert a. induction xs as [|x xs IH]; intros a.
  - exists a. cbn. repeat split; [now left | lra | constructor].
  - cbn [map fold_left Math_max lt].
    destruct (Rlt_dec a x) as [H|H].
    + rewrite (Rltb_true a x H).
      destruct (IH x) as (M & E & Hm & Hle & Hall). exists M.
      rewrite E. repeat split; [| lra |].
      * right. destruct Hm as [->|Hm]; [now left | now right].
      * constructor; [exact Hle | exact Hall].
    + rewrite (Rltb_false a x) by lra.
      destruct (IH a) as (M & E & Hm & Hle & Hall). exists M.
      rewrite E. repeat split; [| lra |].
      * destruct Hm as [->|Hm]; [now left | right; now right].
      * constructor; [lra | exact Hall].
Qed.

Lemma min_max_attained (xs : list R) :
  xs <> [] ->
  exists m M : R,
    Math_min_list (map Fin xs) = Fin m /\ Math_max_list (map Fin xs) = Fin M
    /\ In m xs /\ In M xs /\ Forall (fun x => m <= x <= M)%R xs.
Proof.
  intros Hne. destruct xs as [|x xs]; [contradiction |].
  unfold Math_min_list, Math_max_list.
  cbn [map fold_left Math_min Math_max lt].
  destruct (Math_min_fold_attained xs x) as (m & Em & Hm & Hml & Hma).
  destruct (Math_max_fold_attained xs x) as (M & EM & HM & HMl & HMa).
  exists m, M. rewrite Em, EM. repeat split.
  - destruct Hm as [->|Hm]; [now left | now right].
  - destruct HM as [->|HM]; [now left | now right].
  - constructor; [lra |].
    rewrite Forall_forall in *. intros y Hy.
    specialize (Hma y Hy). specialize (HMa y Hy). lra.
Qed.

(** X5: maximum likelihood and moments agree off the uniform case.  For
    every sample, every optional statistics object and every distribution
    name other than ['uniform'], [calculateMLE] and [calculateMoM] return
    the same estimates or throw the same error: the maximum-likelihood
    branch for the gamma and beta distributions is the method of
    moments. *)
Theorem MLE_is_MoM_except_uniform (data : list num) (distType : string)
  (basicStats : option BasicStats) :
  distType <> "uniform" ->
  calculateMLE data distType basicStats
  = calculateMoM data distType basicStats.
Proof.
  intros H. apply String.eqb_neq in H.
  unfold calculateMLE, calculateMoM. rewrite H. reflexivity.
Qed.

Lemma MLE_is_MoM_except_uniform_witness :
  calculateMLE [Fin 1; Fin 2; Fin 4] "gamma" None
  = calculateMoM [Fin 1; Fin 2; Fin 4] "gamma" None.
Proof.
  apply (MLE_is_MoM_except_uniform [Fin 1; Fin 2; Fin 4] "gamma" None).
  discriminate.
Defined.

(** X6: the uniform maximum-likelihood estimate spans the sample.  For a
    non-empty sample of finite numbers [calculateMLE] with ['uniform']
    returns [a] and [b] that are observations and bound every
    observation, whatever statistics object is passed. *)
Theorem MLE_uniform_spans_the_sample (xs : list R)
  (basicStats : option BasicStats) :
  xs <> [] ->
  exists a b : R,
    calculateMLE (map Fin xs) "uniform" basicStats
    = Ok [("a", Fin a); ("b", Fin b)]
    /\ In a xs /\ In b xs /\ Forall (fun x => a <= x <= b)%R xs.
Proof.
  intros Hne.
  destruct (min_max_attained xs Hne) as (m & M & Em & EM & Hm & HM & Hall).
  exists m, M. unfold calculateMLE.
  cbn [String.eqb Ascii.eqb Bool.eqb]. rewrite Em, EM. tauto.
Qed.

Lemma MLE_uniform_spans_the_sample_witness :
  exists a b : R,
    calculateMLE (map Fin [2; 5; 3]%R) "uniform" None
    = Ok [("a", Fin a); ("b", Fin b)]
    /\ In a [2; 5; 3]%R /\ In b [2; 5; 3]%R
    /\ Forall (fun x => a <= x <= b)%R [2; 5; 3]%R.
Proof.
  apply (MLE_uniform_spans_the_sample [2; 5; 3]%R None). discriminate.
Defined.

End Estimators.

(** ** The interpolated z critical values *)

Section ZCriticalValues.

Import Statistics.
Local Open Scope js_scope.

Ltac eval_getZ :=
  unfold getZCriticalValue;
  repeat (progress
            (cbn [le gt lt ge orb andb criticalValues criticalValueAt map fst
                  bracketLevels hd last add sub mul div neg];
             decide_R)).

(** Between two neighbouring keys the value lies on the chord. *)
Lemma getZCriticalValue_chord (c k v k' v' : R) :
  In ((k, v), (k', v')) (combine criticalValues (tl criticalValues)) ->
  (k <= c <= k')%R ->
  exists w : R,
    getZCriticalValue (Fin c) = Ok (Fin w)
    /\ (w * (k' - k) = v * (k' - k) + (c - k) * (v' - v))%R.
Proof.
  intros Hin Hc. cbn [criticalValues tl combine In] in Hin.
  destruct (Req_dec_T c k) as [Hk|Hk], (Req_dec_T c k') as [Hk'|Hk'];
    repeat (destruct Hin as [E|Hin];
            [injection E as <- <- <- <-; try lra; try subst c;
             eval_getZ; eexists; (split; [reflexivity |]); try lra |]);
    try (destruct Hin).
  all: match goal with
       | |- ((_ + (?x + - ?a) / ?d * ?e) * _ = _)%R =>
           let q := fresh "q" in
           set (q := ((x + - a) / d)%R);
           assert (q * d = x + - a)%R by (unfold q; field; lra);
           clearbody q; nra
       end.
Qed.

Lemma bracket_exists (c : R) :
  (0.6 <= c <= 0.9995)%R ->
  exists k v k' v' : R,
    In ((k, v), (k', v')) (combine criticalValues (tl criticalValues))
    /\ (k <= c <= k')%R.
Proof.
  intros Hc. cbn [criticalValues tl combine In].
  destruct (Rle_dec c 0.7);
    [exists 0.6%R, 0.253%R, 0.7%R, 0.524%R; split; [tauto | lra] |].
  destruct (Rle_dec c 0.8);
    [exists 0.7%R, 0.524%R, 0.8%R, 0.842%R; split; [tauto | lra] |].
  destruct (Rle_dec c 0.9);
    [exists 0.8%R, 0.842%R, 0.9%R, 1.282%R; split; [tauto | lra] |].
  destruct (Rle_dec c 0.95);
    [exists 0.9%R, 1.282%R, 0.95%R, 1.645%R; split; [tauto | lra] |].
  destruct (Rle_dec c 0.975);
    [exists 0.95%R, 1.645%R, 0.975%R, 1.96%R; split; [tauto | lra] |].
  destruct (Rle_dec c 0.99);
    [exists 0.975%R, 1.96%R, 0.99%R, 2.326%R; split; [tauto | lra] |].
  destruct (Rle_dec c 0.995);
    [exists 0.99%R, 2.326%R, 0.995%R, 2.576%R; split; [tauto | lra] |].
  destruct (Rle_dec c 0.999);
    [exists 0.995%R, 2.576%R, 0.999%R, 3.090%R; split; [tauto | lra] |].
  exists 0.999%R, 3.090%R, 0.9995%R, 3.291%R. split; [tauto | lra].
Qed.

(** X7: the interpolated z value grows with the level.  For confidence
    levels between the smallest and the largest key of the table (0.6 and
    0.9995) [getZCriticalValue] returns a finite value between the
    smallest and the largest entry (0.253 and 3.291), and a higher level
    never gets a smaller value. *)
Theorem getZCriticalValue_monotone_on_table (c c' : R) :
  (0.6 <= c)%R -> (c <= c')%R -> (c' <= 0.9995)%R ->
  exists w w' : R,
    getZCriticalValue (Fin c) = Ok (Fin w)
    /\ getZCriticalValue (Fin c') = Ok (Fin w')
    /\ (0.253 <= w)%R /\ (w <= w')%R /\ (w' <= 3.291)%R.
Proof.
  intros H1 H2 H3.
  destruct (bracket_exists c ltac:(lra)) as (k & v & k' & v' & Hin & Hc).
  destruct (bracket_exists c' ltac:(lra)) as (l & u & l' & u' & Hin' & Hc').
  destruct (getZCriticalValue_chord c k v k' v' Hin Hc) as (w & Ew & Hw).
  destruct (getZCriticalValue_chord c' l u l' u' Hin' Hc') as (w' & Ew' & Hw').
  exists w, w'. split; [exact Ew | split; [exact Ew' |]].
  cbn [criticalValues tl combine In] in Hin, Hin'.
  repeat (destruct Hin as [E|Hin]; [injection E as <- <- <- <- |]);
    try destruct Hin;
    repeat (destruct Hin' as [E|Hin']; [injection E as <- <- <- <- |]);
    try destruct Hin'; lra.
Qed.

Lemma getZCriticalValue_monotone_on_table_witness :
  exists w w' : R,
    getZCriticalValue (Fin 0.92) = Ok (Fin w)
    /\ getZCriticalValue (Fin 0.97) = Ok (Fin w')
    /\ (0.253 <= w)%R /\ (w <= w')%R /\ (w' <= 3.291)%R.
Proof.
  apply (getZCriticalValue_monotone_on_table 0.92 0.97); lra.
Defined.

(** X8: outside the table the z value is extrapolated.  For a confidence
    level below the smallest key (0.6) or between the largest key (0.9995)
    and 1, no pair of neighbouring keys brackets the level, so
    [getZCriticalValue] returns the point of the straight line through the
    first and the last entry of the table; for levels up to 0.56 that
    value is negative. *)
Theorem getZCriticalValue_extrapolates (c : R) :
  (0 < c < 0.6)%R \/ (0.9995 < c < 1)%R ->
  exists w : R,
    getZCriticalValue (Fin c) = Ok (Fin w)
    /\ (w * (0.9995 - 0.6)
        = 0.253 * (0.9995 - 0.6) + (c - 0.6) * (3.291 - 0.253))%R
    /\ ((c <= 0.56)%R -> (w < 0)%R).
Proof.
  intros Hc.
  assert (E : exists w : R,
             getZCriticalValue (Fin c) = Ok (Fin w)
             /\ (w * (0.9995 - 0.6)
                 = 0.253 * (0.9995 - 0.6) + (c - 0.6) * (3.291 - 0.253))%R).
  { destruct Hc as [Hc|Hc]; eval_getZ; eexists; (split; [reflexivity |]).
    all: match goal with
         | |- ((_ + (?x + - ?a) / ?d * ?e) * _ = _)%R =>
             let q := fresh "q" in
             set (q := ((x + - a) / d)%R);
             assert (q * d = x + - a)%R by (unfold q; field; lra);
             clearbody q; nra
         end. }
  destruct E as (w & Ew & Hw). exists w.
  split; [exact Ew | split; [exact Hw |]]. intros Hle. lra.
Qed.

Lemma getZCriticalValue_extrapolates_witness :
  exists w : R,
    getZCriticalValue (Fin 0.5) = Ok (Fin w)
    /\ (w * (0.9995 - 0.6)
        = 0.253 * (0.9995 - 0.6) + (0.5 - 0.6) * (3.291 - 0.253))%R
    /\ ((0.5 <= 0.56)%R -> (w < 0)%R).
Proof.
  apply (getZCriticalValue_extrapolates 0.5). left. lra.
Defined.

End ZCriticalValues.

(** ** The mean intervals of the general functions *)

Section MeanIntervals.

Import Statistics.
Local Open Scope js_scope.

Lemma getZCriticalValue_tabulated :
  getZCriticalValue (Fin 0.90) = Ok (Fin 1.282)
  /\ getZCriticalValue (Fin 0.95) = Ok (Fin 1.645)
  /\ getZCriticalValue (Fin 0.99) = Ok (Fin 2.326).
Proof.
  repeat split; unfold getZCriticalValue;
    repeat (progress
              (cbn [le gt lt ge orb andb criticalValues criticalValueAt];
               decide_R));
    reflexivity.
Qed.

(** X9: the two one-sample intervals disagree when the variance is known.
    At each of the levels 0.90, 0.95 and 0.99, for every non-empty sample
    and known variance [v >= 0], [calculateOneSampleMeanCI] takes its
    critical value from [getZCriticalValue] (1.282, 1.645, 2.326: the
    one-sided quantiles) while [calculateConfidenceInterval] takes the
    two-sided 1.645, 1.96, 2.576, so the margin of error of the former is
    the smaller multiple of the same standard error. *)
Theorem one_sample_intervals_disagree (data : list num) (v cl z z' : R) :
  data <> [] -> (0 <= v)%R ->
  In (cl, z, z') [(0.90, 1.282, 1.645); (0.95, 1.645, 1.96);
                  (0.99, 2.326, 2.576)]%R ->
  exists (r : OneSampleMeanCI) (ci : ConfidenceInterval),
    calculateOneSampleMeanCI data (Fin cl) (Some (Fin v)) = Ok r
    /\ calculateConfidenceInterval data (Fin cl)
         (mkCIOptions None (Some true) (Some (Fin v)) None) = Ok ci
    /\ osm_standardError r = Fin (sqrt v / sqrt (INR (length data)))
    /\ osm_marginOfError r
       = Fin (z * (sqrt v / sqrt (INR (length data))))
    /\ marginOfError ci = Fin (z' * (sqrt v / sqrt (INR (length data))))
    /\ (z < z')%R.
Proof.
  intros Hne Hv Hin.
  destruct (calculateMean_nonempty data Hne) as [m Em].
  destruct (Math_sqrt_len data Hne) as [Esn Hsn].
  destruct getZCriticalValue_tabulated as (G90 & G95 & G99).
  destruct zCriticalValue_tabulated as (Z90 & Z95 & Z99).
  assert (Ese : standardErrorOf data
                  (mkCIOptions None (Some true) (Some (Fin v)) None)
                = Ok (Fin (sqrt v / sqrt (INR (length data))))).
  { unfold standardErrorOf. cbn [default knownVariance populationVariance].
    rewrite Esn, (Math_sqrt_nonneg v Hv). rewrite div_fin by lra.
    reflexivity. }
  rewrite (calculateConfidenceInterval_shape data (Fin cl) _ m _ Hne Em Ese).
  unfold calculateOneSampleMeanCI. rewrite Em. cbn [bind].
  rewrite Esn, (Math_sqrt_nonneg v Hv). rewrite div_fin by lra.
  unfold criticalValueOf. cbn [default knownVariance fst snd].
  cbn [In] in Hin.
  destruct Hin as [E|[E|[E|[]]]]; injection E as <- <- <-;
    rewrite ?G90, ?G95, ?G99, ?Z90, ?Z95, ?Z99; cbn [bind mul];
    do 2 eexists; (split; [reflexivity |]); (split; [reflexivity |]);
    cbn [osm_standardError osm_marginOfError marginOfError];
    repeat split; lra.
Qed.

Lemma one_sample_intervals_disagree_witness :
  exists (r : OneSampleMeanCI) (ci : ConfidenceInterval),
    calculateOneSampleMeanCI [Fin 1; Fin 2; Fin 6] (Fin 0.95) (Some (Fin 4))
    = Ok r
    /\ calculateConfidenceInterval [Fin 1; Fin 2; Fin 6] (Fin 0.95)
         (mkCIOptions None (Some true) (Some (Fin 4)) None) = Ok ci
    /\ osm_standardError r
       = Fin (sqrt 4 / sqrt (INR (length [Fin 1; Fin 2; Fin 6])))
    /\ osm_marginOfError r
       = Fin (1.645 * (sqrt 4 / sqrt (INR (length [Fin 1; Fin 2; Fin 6]))))
    /\ marginOfError ci
       = Fin (1.96 * (sqrt 4 / sqrt (INR (length [Fin 1; Fin 2; Fin 6]))))
    /\ (1.645 < 1.96)%R.
Proof.
  apply (one_sample_intervals_disagree [Fin 1; Fin 2; Fin 6] 4 0.95 1.645
           1.96); [discriminate | lra | right; left; reflexivity].
Defined.

(** X10: the paired interval is the one-sample t interval of the
    differences.  For all samples and levels, [calculatePairedMeanCI]
    returns, field by field, what [calculateOneSampleMeanCI] (variance
    unknown) returns on [calculateDifferences before after], under the
    method label of the paired test, and throws when either of them
    throws. *)
Theorem paired_interval_is_one_sample_of_differences
  (before after : list num) (confidenceLevel : num) :
  calculatePairedMeanCI before after confidenceLevel
  = let* differences := calculateDifferences before after in
    let* r := calculateOneSampleMeanCI differences confidenceLevel None in
    Ok (mkMeanCI (osm_mean r) (osm_standardError r) (osm_marginOfError r)
          (osm_lowerBound r) (osm_upperBound r) "Paired t-test"%string).
Proof.
  unfold calculatePairedMeanCI, calculateOneSampleMeanCI.
  destruct (calculateDifferences before after) as [d|e]; cbn [bind];
    [| reflexivity].
  destruct (calculateMean d) as [m|e]; cbn [bind]; [| reflexivity].
  destruct (calculateStdDev d) as [s|e]; cbn [bind]; reflexivity.
Qed.

End MeanIntervals.

Section TwoSampleMean.

Import Statistics.
Local Open Scope js_scope.

Lemma sumSquaresAboutMean_returns (data rest : list num) (acc mean : num) :
  calculateMean data = Ok mean ->
  sumSquaresAboutMean data rest acc
  = Ok (fold_left (fun acc val => acc + Math_pow (val - mean) 2) rest acc).
Proof.
  intros Em. revert acc. induction rest as [|x rest IH]; intros acc.
  - reflexivity.
  - cbn [sumSquaresAboutMean fold_left]. rewrite Em. cbn [bind]. apply IH.
Qed.

Lemma calculatePooledVariance_value (data1 data2 : list num)
  (mean1 mean2 : num) :
  calculateMean data1 = Ok mean1 -> calculateMean data2 = Ok mean2 ->
  calculatePooledVariance data1 data2
  = Ok (((len data1 - Fin 1) * (sumPow 2 mean1 data1 / (len data1 - Fin 1))
         + (len data2 - Fin 1)
           * (sumPow 2 mean2 data2 / (len data2 - Fin 1)))
        / (len data1 + len data2 - Fin 2)).
Proof.
  intros E1 E2. unfold calculatePooledVariance.
  rewrite (sumSquaresAboutMean_returns data1 data1 _ mean1 E1),
    (sumSquaresAboutMean_returns data2 data2 _ mean2 E2).
  reflexivity.
Qed.

Lemma twoSampleStandardError_swap (data1 data2 : list num)
  (mean1 mean2 : num) (assumeEqualVariances : bool) :
  calculateMean data1 = Ok mean1 -> calculateMean data2 = Ok mean2 ->
  twoSampleStandardError data2 data1 mean2 mean1 assumeEqualVariances
  = twoSampleStandardError data1 data2 mean1 mean2 assumeEqualVariances.
Proof.
  intros E1 E2. unfold twoSampleStandardError.
  destruct assumeEqualVariances.
  - rewrite (calculatePooledVariance_value data1 data2 mean1 mean2 E1 E2),
      (calculatePooledVariance_value data2 data1 mean2 mean1 E2 E1).
    cbn [bind].
    rewrite (add_comm_js (Fin 1 / len data2) (Fin 1 / len data1)).
    rewrite (add_comm_js (len data2) (len data1)).
    rewrite (add_comm_js ((len data2 - Fin 1) * _) ((len data1 - Fin 1) * _)).
    reflexivity.
  - rewrite (add_comm_js (sumPow 2 mean2 data2 / (len data2 - Fin 1)
                          / len data2)).
    rewrite (add_comm_js (Math_pow (sumPow 2 mean2 data2
                                    / (len data2 - Fin 1)) 2 / _)).
    reflexivity.
Qed.

Lemma calculateTwoSampleMeanCI_pooled_returns (data1 data2 : list num)
  (confidenceLevel : num) :
  data1 <> [] -> data2 <> [] ->
  exists r : TwoSampleMeanCI,
    calculateTwoSampleMeanCI data1 data2 confidenceLevel (Some true)
    = Some (Ok r).
Proof.
  intros H1 H2.
  destruct (calculateMean_nonempty data1 H1) as [m1 E1].
  destruct (calculateMean_nonempty data2 H2) as [m2 E2].
  unfold calculateTwoSampleMeanCI, twoSampleStandardError.
  cbn [default]. rewrite E1, E2. cbn [bind].
  rewrite (calculatePooledVariance_value data1 data2 m1 m2 E1 E2).
  cbn [bind]. unfold len, of_nat.
  cbn [add sub neg Math_round tCriticalValueAt].
  destruct (Reqb _ _); eexists; reflexivity.
Qed.

(** X11: swapping the samples mirrors the two-sample interval.  Whenever
    [calculateTwoSampleMeanCI] returns an interval for two samples (pooled
    or Welch), it returns one for the samples in the other order, with the
    same standard error, margin of error and degrees of freedom, the
    negated mean difference, and the bounds negated and exchanged. *)
Theorem two_sample_interval_mirrors (data1 data2 : list num)
  (confidenceLevel : num) (assumeEqualVariances : option bool)
  (r : TwoSampleMeanCI) :
  calculateTwoSampleMeanCI data1 data2 confidenceLevel assumeEqualVariances
  = Some (Ok r) ->
  exists r' : TwoSampleMeanCI,
    calculateTwoSampleMeanCI data2 data1 confidenceLevel
      assumeEqualVariances = Some (Ok r')
    /\ tsm_meanDifference r' = - tsm_meanDifference r
    /\ tsm_standardError r' = tsm_standardError r
    /\ tsm_marginOfError r' = tsm_marginOfError r
    /\ tsm_degreesOfFreedom r' = tsm_degreesOfFreedom r
    /\ tsm_lowerBound r' = - tsm_upperBound r
    /\ tsm_upperBound r' = - tsm_lowerBound r.
Proof.
  unfold calculateTwoSampleMeanCI.
  destruct (calculateMean data1) as [m1|e1] eqn:E1; cbn [bind];
    [| discriminate].
  destruct (calculateMean data2) as [m2|e2] eqn:E2; cbn [bind];
    [| discriminate].
  rewrite (twoSampleStandardError_swap data1 data2 m1 m2 _ E1 E2).
  destruct (twoSampleStandardError data1 data2 m1 m2 _) as [[se df]|e];
    cbn [bind]; [| discriminate].
  destruct (tCriticalValueAt (Math_round df) confidenceLevel) as [t|];
    [| discriminate].
  intros H. injection H as <-. eexists. split; [reflexivity |].
  cbn [tsm_meanDifference tsm_standardError tsm_marginOfError
       tsm_degreesOfFreedom tsm_lowerBound tsm_upperBound].
  repeat split.
  - symmetry. apply neg_sub_js.
  - rewrite neg_add_js, neg_sub_js. reflexivity.
  - change (m1 - m2 - t * se) with ((m1 - m2) + - (t * se)).
    rewrite neg_add_js, neg_neg_js, neg_sub_js. reflexivity.
Qed.

Lemma two_sample_interval_mirrors_witness :
  exists r r' : TwoSampleMeanCI,
    calculateTwoSampleMeanCI [Fin 1; Fin 2; Fin 4] [Fin 2; Fin 3; Fin 7]
      (Fin 0.95) (Some true) = Some (Ok r)
    /\ calculateTwoSampleMeanCI [Fin 2; Fin 3; Fin 7] [Fin 1; Fin 2; Fin 4]
         (Fin 0.95) (Some true) = Some (Ok r')
    /\ tsm_meanDifference r' = - tsm_meanDifference r
    /\ tsm_standardError r' = tsm_standardError r
    /\ tsm_marginOfError r' = tsm_marginOfError r
    /\ tsm_degreesOfFreedom r' = tsm_degreesOfFreedom r
    /\ tsm_lowerBound r' = - tsm_upperBound r
    /\ tsm_upperBound r' = - tsm_lowerBound r.
Proof.
  destruct (calculateTwoSampleMeanCI_pooled_returns
              [Fin 1; Fin 2; Fin 4] [Fin 2; Fin 3; Fin 7] (Fin 0.95))
    as [r Er]; [discriminate | discriminate |].
  exists r.
  destruct (two_sample_interval_mirrors _ _ _ _ r Er) as [r' Hr'].
  exists r'. split; [exact Er | exact Hr'].
Defined.

End TwoSampleMean.

(** ** Intervals for proportions *)

Section Proportions.

Import Statistics.
Local Open Scope js_scope.

Lemma zCriticalValue_nonneg (cl : num) (z : R) :
  zCriticalValue cl = Fin z -> (0 <= z)%R.
Proof.
  unfold zCriticalValue.
  destruct (eq cl (Fin 0.90)); [intros H; injection H as <-; lra |].
  destruct (eq cl (Fin 0.95)); [intros H; injection H as <-; lra |].
  destruct (eq cl (Fin 0.99)); [intros H; injection H as <-; lra |].
  destruct (Math_sqrt (Fin 2) * _) as [x| | |]; cbn [Math_abs];
    try discriminate.
  intros H; injection H as <-. apply Rabs_pos.
Qed.

Lemma zCriticalValue_low_levels (c : R) :
  (0 < c <= 0.83)%R -> zCriticalValue (Fin c) = NaN.
Proof.
  intros Hc. unfold zCriticalValue. cbn [eq]. decide_R.
  cbn [sub add neg div mul]. decide_R. cbn [sub add neg div mul].
  rewrite inverseErrorFunction_NaN.
  - rewrite Math_sqrt_2. reflexivity.
  - rewrite Rabs_right by lra. lra.
Qed.

Lemma proportion_in_unit (s t : R) :
  (0 < t)%R -> (0 <= s <= t)%R -> (0 <= s / t <= 1)%R.
Proof.
  intros Ht Hs. split.
  - apply Rmult_le_reg_r with t; [exact Ht |].
    unfold Rdiv. rewrite Rmult_assoc, Rinv_l by lra. lra.
  - apply Rmult_le_reg_r with t; [exact Ht |].
    unfold Rdiv. rewrite Rmult_assoc, Rinv_l by lra. lra.
Qed.

Lemma variance_term_nonneg (p t : R) :
  (0 < t)%R -> (0 <= p <= 1)%R -> (0 <= p * (1 + - p) / t)%R.
Proof.
  intros Ht Hp. apply Rmult_le_pos; [| left; apply Rinv_0_lt_compat, Ht].
  apply Rmult_le_pos; lra.
Qed.

Ltac validate :=
  cbn [default le lt gt ge orb]; decide_R; cbn [orb].

(** X13: the proportion interval stays inside [0, 1].  For a finite number
    of trials [t > 0], successes [0 <= s <= t], a level strictly between 0
    and 1 whose z critical value is finite, and either method,
    [calculateProportionConfidenceInterval] returns finite bounds with
    [0 <= lower <= upper <= 1] and the margin of error half their
    distance; with the Wald method the sample proportion lies between
    them. *)
Theorem proportion_interval_in_unit_range (s t c z : R)
  (method : option ProportionMethod) :
  (0 < t)%R -> (0 <= s <= t)%R -> (0 < c < 1)%R ->
  zCriticalValue (Fin c) = Fin z ->
  exists (r : ProportionCI) (lo hi : R),
    calculateProportionConfidenceInterval (Fin s) (Fin t) (Some (Fin c))
      method = Ok r
    /\ pci_lower r = Fin lo /\ pci_upper r = Fin hi
    /\ pci_marginOfError r = Fin ((hi - lo) / 2)
    /\ pci_proportion r = Fin (s / t)
    /\ (0 <= lo)%R /\ (lo <= hi)%R /\ (hi <= 1)%R
    /\ (default wald method = wald -> (lo <= s / t <= hi)%R).
Proof.
  intros Ht Hs Hc Ez.
  pose proof (zCriticalValue_nonneg _ _ Ez) as Hz.
  pose proof (proportion_in_unit s t Ht Hs) as Hp.
  unfold calculateProportionConfidenceInterval. validate. rewrite Ez.
  rewrite (div_fin s t) by lra.
  destruct (default wald method) eqn:Em.
  - (* Wald *)
    pose proof (variance_term_nonneg (s / t) t Ht Hp) as Hv.
    cbn [sub add neg mul]. rewrite (div_fin _ t) by lra.
    rewrite (Math_sqrt_nonneg _ Hv). cbn [mul add neg].
    rewrite Math_max_fin, Math_min_fin. cbn [sub add neg].
    rewrite div_fin by lra.
    pose proof (sqrt_pos (s / t * (1 + - (s / t)) / t)) as Hq.
    set (q := sqrt (s / t * (1 + - (s / t)) / t)) in *.
    assert (Hm : (0 <= z * q)%R) by (apply Rmult_le_pos; lra).
    do 3 eexists. split; [reflexivity |].
    cbn [pci_lower pci_upper pci_marginOfError pci_proportion].
    split; [reflexivity | split; [reflexivity |]].
    split; [f_equal; lra | split; [reflexivity |]].
    unfold Rmax, Rmin.
    destruct (Rle_dec 0 (s / t + - (z * q)));
      destruct (Rle_dec 1 (s / t + z * q)); repeat split; intros; lra.
  - (* Wilson *)
    cbn [sub add neg mul].
    assert (Hden : (0 < t + z * z)%R) by nra.
    rewrite (div_fin (z * z) 2) by lra. rewrite (div_fin (z * z) 4) by lra.
    cbn [add]. rewrite (div_fin _ (t + z * z)) by lra.
    rewrite (div_fin _ t) by lra.
    assert (Hv : (0 <= (s / t * (1 + - (s / t)) * t + z * z / 4) / t)%R).
    { apply Rmult_le_pos; [| left; apply Rinv_0_lt_compat, Ht].
      assert (0 <= s / t * (1 + - (s / t)))%R by (apply Rmult_le_pos; lra).
      nra. }
    rewrite (Math_sqrt_nonneg _ Hv). cbn [mul].
    rewrite (div_fin _ (t + z * z)) by lra. cbn [sub add neg].
    rewrite Math_max_fin, Math_min_fin. cbn [sub add neg].
    rewrite div_fin by lra.
    pose proof (sqrt_pos ((s / t * (1 + - (s / t)) * t + z * z / 4) / t))
      as Hq.
    set (q := sqrt ((s / t * (1 + - (s / t)) * t + z * z / 4) / t)) in *.
    assert (Hm : (0 <= z * q / (t + z * z))%R).
    { apply Rmult_le_pos; [apply Rmult_le_pos; lra |].
      left. apply Rinv_0_lt_compat, Hden. }
    assert (Hpt : (0 <= (s + z * z / 2) / (t + z * z) <= 1)%R).
    { split.
      - apply Rmult_le_pos; [nra | left; apply Rinv_0_lt_compat, Hden].
      - apply Rmult_le_reg_r with (t + z * z)%R; [exact Hden |].
        unfold Rdiv at 1. rewrite Rmult_assoc, Rinv_l by lra. nra. }
    set (pt := ((s + z * z / 2) / (t + z * z))%R) in *.
    set (e := (z * q / (t + z * z))%R) in *.
    do 3 eexists. split; [reflexivity |].
    cbn [pci_lower pci_upper pci_marginOfError pci_proportion].
    split; [reflexivity | split; [reflexivity |]].
    split; [f_equal; lra | split; [reflexivity |]].
    unfold Rmax, Rmin.
    destruct (Rle_dec 0 (pt + - e)); destruct (Rle_dec 1 (pt + e));
      repeat split; intros; try discriminate; lra.
Qed.

Lemma proportion_interval_in_unit_range_witness :
  exists (r : ProportionCI) (lo hi : R),
    calculateProportionConfidenceInterval (Fin 3) (Fin 10) (Some (Fin 0.95))
      (Some wilson) = Ok r
    /\ pci_lower r = Fin lo /\ pci_upper r = Fin hi
    /\ pci_marginOfError r = Fin ((hi - lo) / 2)
    /\ pci_proportion r = Fin (3 / 10)
    /\ (0 <= lo)%R /\ (lo <= hi)%R /\ (hi <= 1)%R
    /\ (default wald (Some wilson) = wald -> (lo <= 3 / 10 <= hi)%R).
Proof.
  apply (proportion_interval_in_unit_range 3 10 0.95 1.96 (Some wilson));
    [lra | lra | lra | apply zCriticalValue_tabulated].
Defined.

(** X14: low confidence levels give a NaN proportion interval.  For valid
    counts and every confidence level up to 0.83 (0.8, for one), the z
    critical value is the absolute value of an unguarded inverse error
    function, which is [NaN]; [calculateProportionConfidenceInterval]
    then returns, with either method and without an error, [NaN] as lower
    bound, upper bound, margin of error and critical value. *)
Theorem proportion_interval_NaN_at_low_levels (s t c : R)
  (method : option ProportionMethod) :
  (0 < t)%R -> (0 <= s <= t)%R -> (0 < c <= 0.83)%R ->
  exists r : ProportionCI,
    calculateProportionConfidenceInterval (Fin s) (Fin t) (Some (Fin c))
      method = Ok r
    /\ pci_lower r = NaN /\ pci_upper r = NaN
    /\ pci_marginOfError r = NaN /\ pci_criticalValue r = NaN.
Proof.
  intros Ht Hs Hc.
  unfold calculateProportionConfidenceInterval. validate.
  rewrite (zCriticalValue_low_levels c Hc).
  destruct (default wald method); nan_out;
    eexists; (split; [reflexivity |]);
    cbn [pci_lower pci_upper pci_marginOfError pci_criticalValue];
    nan_out; repeat split; reflexivity.
Qed.

Lemma proportion_interval_NaN_at_low_levels_witness :
  exists r : ProportionCI,
    calculateProportionConfidenceInterval (Fin 3) (Fin 10) (Some (Fin 0.8))
      None = Ok r
    /\ pci_lower r = NaN /\ pci_upper r = NaN
    /\ pci_marginOfError r = NaN /\ pci_criticalValue r = NaN.
Proof.
  apply (proportion_interval_NaN_at_low_levels 3 10 0.8 None); lra.
Defined.



End Proportions.

(** ** Sample sizes *)

Section SampleSizes.

Import Statistics.
Local Open Scope js_scope.

(** X16: the sample size for a mean meets the margin of error.  With a
    known population standard deviation [0 <= sigma <= 1e50], a margin
    [E >= 1e-50] and a level whose z critical value [z] is finite,
    [calculateSampleSizeForMean] returns, without iterating, a finite
    size [N] of at most [(z sigma / E)^2 + 1]; and for every non-empty
    sample of at least [N] observations [calculateConfidenceInterval],
    given the variance [sigma^2] as known, has a margin of error of at
    most [E].  Both bounds are stated up to a relative error of [1e-9],
    which leaves room for the rounding of the quotient before the
    ceiling is taken; the bounds on [sigma] and [E] keep the square away
    from overflow. *)
Theorem sample_size_for_mean_meets_margin (fuel : nat) (c z sigma E : R)
  (useT : option bool) :
  zCriticalValue (Fin c) = Fin z ->
  (0 <= sigma <= 1e50)%R -> (1e-50 <= E)%R ->
  exists N : R,
    calculateSampleSizeForMean fuel (Fin c) (Fin E)
      (Some (mkMeanSizeOptions (Some (Fin sigma)) None useT))
    = Some (Ok (Fin N))
    /\ (0 <= N <= (z * sigma / E) ^ 2 * (1 + 1e-9) + 1)%R
    /\ forall data : list num,
         data <> [] -> (N <= INR (length data))%R ->
         exists (ci : ConfidenceInterval) (m : R),
           calculateConfidenceInterval data (Fin c)
             (mkCIOptions None (Some true) (Some (Fin (sigma * sigma))) None)
           = Ok ci
           /\ marginOfError ci = Fin m /\ (m <= E * (1 + 1e-9))%R.
Proof.
  intros Ez [Hs _] HE'.
  assert (HE : (0 < E)%R) by lra.
  pose proof (zCriticalValue_nonneg _ _ Ez) as Hz.
  pose proof (Rceil_ge ((z * sigma / E) ^ 2)) as Hc.
  assert (Hq0 : (0 <= (z * sigma / E) ^ 2)%R) by apply pow2_ge_0.
  exists (Rceil ((z * sigma / E) ^ 2)). split; [| split].
  - unfold calculateSampleSizeForMean.
    cbn [le default populationStd estimatedStd useTDistribution].
    decide_R. rewrite Ez. cbn [mul]. rewrite div_fin by lra.
    cbn - [Rceil pow]. rewrite andb_false_r. reflexivity.
  - split; [lra |].
    pose proof (base_Int_part (- (z * sigma / E) ^ 2)) as [_ Hb].
    unfold Rceil. nra.
  - intros data Hne Hn.
    destruct (calculateMean_nonempty data Hne) as [mu Em].
    destruct (Math_sqrt_len data Hne) as [Esn Hsn].
    assert (Hss : sqrt (sigma * sigma) = sigma) by (apply sqrt_square, Hs).
    assert (Ese : standardErrorOf data
                    (mkCIOptions None (Some true) (Some (Fin (sigma * sigma)))
                       None)
                  = Ok (Fin (sigma / sqrt (INR (length data))))).
    { unfold standardErrorOf. cbn [default knownVariance populationVariance].
      rewrite Esn, Math_sqrt_nonneg by nra. rewrite Hss, div_fin by lra.
      reflexivity. }
    rewrite (calculateConfidenceInterval_shape data (Fin c) _ mu _ Hne Em Ese).
    unfold criticalValueOf. cbn [default knownVariance fst snd]. rewrite Ez.
    cbn [mul]. do 2 eexists. split; [reflexivity |].
    cbn [marginOfError]. split; [reflexivity |].
    set (q := sqrt (INR (length data))) in *.
    assert (Hq2 : (q * q = INR (length data))%R)
      by (apply sqrt_sqrt; left; apply INR_length_pos, Hne).
    assert (Hsq : ((z * sigma / E) * (z * sigma / E) <= q * q)%R)
      by (cbn [pow] in Hc, Hn; lra).
    assert (Hnn : (0 <= z * sigma / E)%R).
    { apply Rmult_le_pos; [apply Rmult_le_pos; lra |].
      left. apply Rinv_0_lt_compat, HE. }
    assert (Hle : (z * sigma / E <= q)%R) by nra.
    assert (Hzs : (z * sigma <= q * E)%R).
    { replace (z * sigma)%R with (z * sigma / E * E)%R by (field; lra).
      apply Rmult_le_compat_r; lra. }
    apply Rle_trans with E; [| lra].
    apply Rmult_le_reg_r with q; [exact Hsn |].
    replace (z * (sigma / q) * q)%R with (z * sigma)%R by (field; lra).
    lra.
Qed.

Lemma sample_size_for_mean_meets_margin_witness :
  exists N : R,
    calculateSampleSizeForMean 0 (Fin 0.95) (Fin 0.5)
      (Some (mkMeanSizeOptions (Some (Fin 2)) None None))
    = Some (Ok (Fin N))
    /\ (0 <= N <= (1.96 * 2 / 0.5) ^ 2 * (1 + 1e-9) + 1)%R
    /\ forall data : list num,
         data <> [] -> (N <= INR (length data))%R ->
         exists (ci : ConfidenceInterval) (m : R),
           calculateConfidenceInterval data (Fin 0.95)
             (mkCIOptions None (Some true) (Some (Fin (2 * 2))) None)
           = Ok ci
           /\ marginOfError ci = Fin m /\ (m <= 0.5 * (1 + 1e-9))%R.
Proof.
  apply (sample_size_for_mean_meets_margin 0 0.95 1.96 2 0.5 None);
    [apply zCriticalValue_tabulated | lra | lra].
Defined.






(** X18: the conservative estimate gives the largest sample size.  For a
    margin [E >= 1e-50], a level whose z critical value is finite and an
    estimated proportion [p] between 0 and 1,
    [calculateSampleSizeForProportion] returns a finite size [N]; with
    [useConservativeEstimate] it returns a finite size [N'] that does
    not depend on the estimated proportion passed along, and [N] does
    not exceed [N'] by more than one unit and a relative error of [1e-9]
    (the two quotients are rounded before their ceilings are taken, so
    that [N] can be [N' + 1] when [p] is next to 0.5). *)
Theorem conservative_sample_size_is_largest (c z E p : R)
  (ignored : option num) :
  zCriticalValue (Fin c) = Fin z -> (1e-50 <= E)%R -> (0 <= p <= 1)%R ->
  exists N N' : R,
    calculateSampleSizeForProportion (Fin c) (Fin E)
      (Some (mkProportionSizeOptions (Some (Fin p)) None)) = Ok (Fin N)
    /\ calculateSampleSizeForProportion (Fin c) (Fin E)
         (Some (mkProportionSizeOptions ignored (Some true))) = Ok (Fin N')
    /\ calculateSampleSizeForProportion (Fin c) (Fin E)
         (Some (mkProportionSizeOptions None (Some true))) = Ok (Fin N')
    /\ (0 <= N <= N' * (1 + 1e-9) + 1)%R.
Proof.
  intros Ez HE' Hp.
  assert (HE : (0 < E)%R) by lra.
  assert (HE2 : (E ^ 2 <> 0)%R) by (apply pow_nonzero; lra).
  unfold calculateSampleSizeForProportion.
  cbn [le default estimatedProportion useConservativeEstimate].
  decide_R. rewrite Ez.
  assert (R1 : forall q : R, (0 <= q <= 1)%R ->
             (if lt (Fin q) (Fin 0) || gt (Fin q) (Fin 1)
              then Throw ProportionRangeError
              else Ok (Math_ceil (Math_pow (Fin z) 2 * Fin q * (Fin 1 - Fin q)
                                  / Math_pow (Fin E) 2)))
             = Ok (Fin (Rceil (z ^ 2 * q * (1 - q) / E ^ 2)))).
  { intros q Hq. cbn [lt gt orb]. decide_R. cbn [orb Math_pow sub add neg mul].
    rewrite div_fin by exact HE2. cbn [Math_ceil].
    reflexivity. }
  exists (Rceil (z ^ 2 * p * (1 - p) / E ^ 2)),
    (Rceil (z ^ 2 * 0.5 * (1 - 0.5) / E ^ 2)).
  split; [apply (R1 p Hp) |].
  split; [destruct ignored; apply (R1 0.5%R); lra |].
  split; [apply (R1 0.5%R); lra |].
  assert (Hz2 : (0 <= z ^ 2)%R) by (apply pow2_ge_0).
  assert (Hi : (0 < / E ^ 2)%R) by (apply Rinv_0_lt_compat, pow_lt; lra).
  assert (Hq : (0 <= z ^ 2 * p * (1 - p) / E ^ 2)%R).
  { apply Rmult_le_pos; [| lra].
    apply Rmult_le_pos; [apply Rmult_le_pos |]; lra. }
  assert (Hm : (Rceil (z ^ 2 * p * (1 - p) / E ^ 2)
                <= Rceil (z ^ 2 * 0.5 * (1 - 0.5) / E ^ 2))%R).
  { apply Rceil_monotone.
    apply Rmult_le_compat_r; [lra |].
    assert (p * (1 - p) <= 0.5 * (1 - 0.5))%R
      by (pose proof (Rle_0_sqr (p - 0.5)) as Hsq; unfold Rsqr in Hsq; lra).
    rewrite !Rmult_assoc. apply Rmult_le_compat_l; assumption. }
  pose proof (Rceil_ge (z ^ 2 * p * (1 - p) / E ^ 2)).
  nra.
Qed.

Lemma conservative_sample_size_is_largest_witness :
  exists N N' : R,
    calculateSampleSizeForProportion (Fin 0.95) (Fin 0.05)
      (Some (mkProportionSizeOptions (Some (Fin 0.2)) None)) = Ok (Fin N)
    /\ calculateSampleSizeForProportion (Fin 0.95) (Fin 0.05)
         (Some (mkProportionSizeOptions (Some (Fin 0.3)) (Some true)))
       = Ok (Fin N')
    /\ calculateSampleSizeForProportion (Fin 0.95) (Fin 0.05)
         (Some (mkProportionSizeOptions None (Some true))) = Ok (Fin N')
    /\ (0 <= N <= N' * (1 + 1e-9) + 1)%R.
Proof.
  apply (conservative_sample_size_is_largest 0.95 1.96 0.05 0.2
           (Some (Fin 0.3)));
    [apply zCriticalValue_tabulated | lra | lra].
Defined.

End SampleSizes.

(** ** The t distribution function and the p-values *)

Section TDistribution.

Import Statistics.
Local Open Scope js_scope.

Lemma RnormalCDF_nonneg_arg (x : R) :
  (0 <= x)%R -> RnormalCDF x = (0.5 * (1 + erfAbs (x / sqrt 2)))%R.
Proof.
  intros Hx. unfold RnormalCDF. pose proof sqrt_2_pos as H2.
  assert (Hq : (0 <= x / sqrt 2)%R).
  { apply Rmult_le_pos; [exact Hx | left; apply Rinv_0_lt_compat, H2]. }
  destruct (Rle_dec 0 (x / sqrt 2)) as [_|n]; [| contradiction].
  rewrite Rabs_right by lra. lra.
Qed.


(** Far in the tail the approximation is close to 1. *)
Lemma RnormalCDF_tail (x : R) : (16 <= x)%R -> (0.99 <= RnormalCDF x)%R.
Proof.
  intros Hx. rewrite RnormalCDF_nonneg_arg by lra.
  pose proof sqrt_2_pos as H2.
  assert (Hs : (sqrt 2 * sqrt 2 = 2)%R) by (apply sqrt_sqrt; lra).
  set (ax := (x / sqrt 2)%R).
  assert (Hax : (0 <= ax)%R).
  { apply Rmult_le_pos; [lra | left; apply Rinv_0_lt_compat, H2]. }
  assert (Hax2 : (128 <= ax * ax)%R).
  { unfold ax.
    replace (x / sqrt 2 * (x / sqrt 2))%R with (x * x / (sqrt 2 * sqrt 2))%R
      by (field; lra).
    rewrite Hs. nra. }
  unfold erfAbs.
  pose proof (erfT_range ax Hax) as Ht.
  pose proof (erfPoly_range (erfT ax) ltac:(lra)) as Hp.
  assert (He : (exp (- ax * ax) <= / 129)%R).
  { replace (- ax * ax)%R with (- (ax * ax))%R by ring.
    rewrite exp_Ropp. apply Rinv_le_contravar; [lra |].
    pose proof (exp_ineq1_le (ax * ax)). lra. }
  pose proof (exp_pos (- ax * ax)) as Hep.
  assert (erfPoly (erfT ax) * exp (- ax * ax) <= 1 * / 129)%R
    by (apply Rmult_le_compat; lra).
  lra.
Qed.

(** The correction term of [tCDF] for 1 to 29 degrees of freedom. *)
Lemma correction_bounds (d : R) :
  (1 <= d <= 29)%R ->
  (0.0085 <= 1 / (4 * d) - 7 / (96 * d * d) + 127 / (9216 * d * d * d))%R.
Proof.
  intros Hd.
  assert (Hi : (0 < / d)%R) by (apply Rinv_0_lt_compat; lra).
  replace (1 / (4 * d) - 7 / (96 * d * d) + 127 / (9216 * d * d * d))%R
    with ((24 * d - 7) / 96 * (/ d * / d)
          + 127 / 9216 * (/ d * / d * / d))%R by (field; lra).
  assert (H3 : (0 < / d * / d * / d)%R)
    by (repeat apply Rmult_lt_0_compat; exact Hi).
  assert (H2 : (0 < / d * / d)%R) by (apply Rmult_lt_0_compat; exact Hi).
  assert (Hq : (0.0085 * (d * d) <= (24 * d - 7) / 96)%R) by nra.
  assert (Hone : (d * d * (/ d * / d) = 1)%R) by (field; lra).
  assert (0.0085 <= (24 * d - 7) / 96 * (/ d * / d))%R.
  { replace 0.0085%R with (0.0085 * (d * d) * (/ d * / d))%R
      by (rewrite Rmult_assoc, Hone; lra).
    apply Rmult_le_compat_r; lra. }
  nra.
Qed.

Lemma correction_fin (df : Z) :
  df <> 0%Z ->
  Fin 1 / (Fin 4 * of_Z df) - Fin 7 / (Fin 96 * of_Z df * of_Z df)
  + Fin 127 / (Fin 9216 * of_Z df * of_Z df * of_Z df)
  = Fin (1 / (4 * IZR df) - 7 / (96 * IZR df * IZR df)
         + 127 / (9216 * IZR df * IZR df * IZR df)).
Proof.
  intros Hdf. assert (Hd : IZR df <> 0%R) by (now apply not_0_IZR).
  unfold of_Z. cbn [mul]. rewrite !div_fin.
  - cbn [sub add neg]. f_equal.
  - repeat apply Rmult_integral_contrapositive_currified; lra.
  - repeat apply Rmult_integral_contrapositive_currified; lra.
  - repeat apply Rmult_integral_contrapositive_currified; lra.
Qed.

(** X19: the t distribution function collapses in the tails.  For 1 to 29
    degrees of freedom and a statistic of 16 or more, the correction term
    of [tCDF] outweighs the normal value and the result is clamped to 0
    (to 1 at -16 or less): the distribution function is not monotone, the
    right-tailed p-value of such a statistic is 1 and the left-tailed
    p-value of its negative is 1, while the two-sided p-value is 0. *)
Theorem tCDF_collapses_in_the_tails (x : R) (df : Z) :
  (16 <= x)%R -> (1 <= df <= 29)%Z ->
  tCDF (Fin x) df = Fin 0
  /\ tCDF (Fin (- x)) df = Fin 1
  /\ calculateTTestPValue (Fin x) df right = Fin 1
  /\ calculateTTestPValue (Fin (- x)) df left = Fin 1
  /\ calculateTTestPValue (Fin x) df two = Fin 0.
Proof.
  intros Hx Hdf.
  assert (Hd : (1 <= IZR df <= 29)%R)
    by (split; apply IZR_le; lia).
  pose proof (correction_bounds (IZR df) Hd) as Hc.
  pose proof (RnormalCDF_tail x Hx) as Hz.
  pose proof (RnormalCDF_range x) as Hr.
  assert (E0 : tCDF (Fin x) df = Fin 0).
  { unfold tCDF. replace (30 <=? df)%Z with false
      by (symmetry; apply Z.leb_gt; lia).
    cbv zeta. rewrite correction_fin by lia.
    cbn [Math_abs lt]. rewrite (Rabs_right x) by lra.
    rewrite Rltb_false by lra. rewrite normalCDF_R.
    cbn [mul add sub neg]. rewrite Math_max_fin, Math_min_fin.
    set (c := (1 / (4 * IZR df) - 7 / (96 * IZR df * IZR df)
               + 127 / (9216 * IZR df * IZR df * IZR df))%R) in *.
    assert (Hneg : (RnormalCDF x
                    + c * (x * x + 1) * (0.5 + - RnormalCDF x) <= 0)%R).
    { assert (H1 : (0.0085 * 257 <= c * (x * x + 1))%R)
        by (apply Rmult_le_compat; nra).
      assert (H2 : (c * (x * x + 1) * (RnormalCDF x - 0.5)
                    >= 0.0085 * 257 * 0.49)%R).
      { apply Rle_ge. apply Rmult_le_compat; lra. }
      lra. }
    f_equal. rewrite Rmax_left by exact Hneg. apply Rmin_right. lra. }
  assert (E1 : tCDF (Fin (- x)) df = Fin 1).
  { unfold tCDF. replace (30 <=? df)%Z with false
      by (symmetry; apply Z.leb_gt; lia).
    cbv zeta. rewrite correction_fin by lia.
    cbn [Math_abs lt]. rewrite (Rabs_left (- x)) by lra.
    rewrite Ropp_involutive.
    rewrite Rltb_true by lra. rewrite normalCDF_R.
    cbn [mul add sub neg]. rewrite Math_max_fin, Math_min_fin.
    set (c := (1 / (4 * IZR df) - 7 / (96 * IZR df * IZR df)
               + 127 / (9216 * IZR df * IZR df * IZR df))%R) in *.
    assert (Hbig : (1 <= 1 + - RnormalCDF x
                         + c * (x * x + 1) * (RnormalCDF x + - (0.5)))%R).
    { assert (H1 : (0.0085 * 257 <= c * (x * x + 1))%R)
        by (apply Rmult_le_compat; nra).
      assert (H2 : (c * (x * x + 1) * (RnormalCDF x + - (0.5))
                    >= 0.0085 * 257 * 0.49)%R).
      { apply Rle_ge. apply Rmult_le_compat; lra. }
      lra. }
    f_equal. rewrite Rmax_right by lra. apply Rmin_left. exact Hbig. }
  unfold calculateTTestPValue. rewrite E0, E1.
  cbn [sub add neg mul]. rewrite Math_min_fin.
  repeat split; f_equal; try lra.
  rewrite Rmin_left; lra.
Qed.

Lemma tCDF_collapses_in_the_tails_witness :
  tCDF (Fin 20) 4 = Fin 0
  /\ tCDF (Fin (- 20)) 4 = Fin 1
  /\ calculateTTestPValue (Fin 20) 4 right = Fin 1
  /\ calculateTTestPValue (Fin (- 20)) 4 left = Fin 1
  /\ calculateTTestPValue (Fin 20) 4 two = Fin 0.
Proof.
  apply (tCDF_collapses_in_the_tails 20 4); [lra | lia].
Defined.

End TDistribution.

Section PValues.

Import Statistics.
Local Open Scope js_scope.

Lemma tCDF_range (x : R) (df : Z) :
  df <> 0%Z -> exists p : R, tCDF (Fin x) df = Fin p /\ (0 <= p <= 1)%R.
Proof.
  intros Hdf. unfold tCDF. destruct (30 <=? df)%Z.
  - rewrite normalCDF_R. eexists. split; [reflexivity |].
    apply RnormalCDF_range.
  - cbv zeta. rewrite correction_fin by exact Hdf.
    cbn [Math_abs]. rewrite normalCDF_R.
    destruct (lt (Fin x) (Fin 0)); cbn [mul add sub neg];
      rewrite Math_max_fin, Math_min_fin;
      (eexists; split; [reflexivity |]);
      (split; [apply Rmin_glb; [lra | apply Rmax_l] | apply Rmin_l]).
Qed.

(** X20: the t-test p-value is a probability.  For a finite statistic and
    degrees of freedom other than 0, [calculateTTestPValue] returns a
    finite number between 0 and 1 for each of the three tails; with 0
    degrees of freedom (a sample of one observation) it returns [NaN]. *)
Theorem t_test_p_value_is_a_probability (x : R) (df : Z) (tail : TestType) :
  (df <> 0%Z ->
   exists p : R,
     calculateTTestPValue (Fin x) df tail = Fin p /\ (0 <= p <= 1)%R)
  /\ calculateTTestPValue (Fin x) 0 tail = NaN.
Proof.
  split.
  - intros Hdf. destruct (tCDF_range x df Hdf) as (c & Ec & Hc).
    unfold calculateTTestPValue. rewrite Ec.
    destruct tail; cbn [sub add neg mul].
    + rewrite Math_min_fin. cbn [mul]. eexists. split; [reflexivity |].
      unfold Rmin. destruct (Rle_dec c (1 + - c)); lra.
    + eexists. split; [reflexivity | lra].
    + eexists. split; [reflexivity | lra].
  - assert (E : tCDF (Fin x) 0 = NaN).
    { assert (C0 : Fin 1 / (Fin 4 * of_Z 0)
                   - Fin 7 / (Fin 96 * of_Z 0 * of_Z 0)
                   + Fin 127 / (Fin 9216 * of_Z 0 * of_Z 0 * of_Z 0) = NaN).
      { unfold of_Z. cbn [mul div]. decide_R. unfold signed_inf. decide_R.
        reflexivity. }
      unfold tCDF. change (30 <=? 0)%Z with false. cbv beta iota zeta.
      rewrite C0. destruct (lt (Fin x) (Fin 0)); nan_out; reflexivity. }
    unfold calculateTTestPValue. rewrite E. destruct tail; reflexivity.
Qed.

End PValues.

(** ** Power of the tests *)

Section Power.

Import Statistics.
Local Open Scope js_scope.

(** X21: the t-test power is the z-test power.  In the statistics utility
    and in the power-analysis module alike, [calculateTTestPower] computes
    the degrees of freedom and never uses them: for all arguments it
    returns what [calculateZTestPower] returns. *)
Theorem t_test_power_is_z_test_power (mu1 mu0 sigma n alpha : num)
  (testType : TestType) :
  Statistics.calculateTTestPower mu1 mu0 sigma n alpha testType
  = Statistics.calculateZTestPower mu1 mu0 sigma n alpha testType
  /\ PowerAnalysis.calculateTTestPower mu1 mu0 sigma n alpha testType
     = PowerAnalysis.calculateZTestPower mu1 mu0 sigma n alpha testType.
Proof. split; destruct testType; reflexivity. Qed.




End Power.

(** ** The power curve *)

Section PowerCurve.

Import Statistics.
Local Open Scope js_scope.

Lemma powerLoop_never_ends (fuel : nat) (power : num -> num)
  (mu endMu step : R) (data : list PowerPoint) :
  (step <= 0)%R -> (mu <= endMu)%R ->
  powerLoop fuel power (Fin mu) (Fin endMu) (Fin step) data = None.
Proof.
  intros Hs. revert mu data.
  induction fuel as [|fuel IH]; intros mu data Hmu; [reflexivity |].
  cbn [powerLoop le add]. rewrite Rleb_true by exact Hmu.
  apply IH. lra.
Qed.

(** X23: without a positive step the power curve is never returned.  For
    finite bounds [startMu <= endMu] and a finite step that is zero or
    negative, in the statistics utility and in the power-analysis module
    alike, the loop of [generatePowerFunctionData] never ends: whatever
    the fuel, no list of points is returned.  With the default bounds and
    step this happens for [sigma = 0], whatever the other arguments. *)
Theorem power_curve_needs_a_positive_step (mu0 sigma n alpha : num)
  (testType : TestType) (hypothesisTestType : option HypothesisTestType)
  (startMu endMu step : R) :
  (startMu <= endMu)%R -> (step <= 0)%R ->
  (forall fuel : nat,
     Statistics.generatePowerFunctionData fuel mu0 sigma n alpha testType
       hypothesisTestType (Some (Fin startMu)) (Some (Fin endMu))
       (Some (Fin step)) = None
     /\ PowerAnalysis.generatePowerFunctionData fuel mu0 sigma n alpha
          testType hypothesisTestType (Some (Fin startMu))
          (Some (Fin endMu)) (Some (Fin step)) = None)
  /\ (forall (fuel : nat) (m0 : R),
        Statistics.generatePowerFunctionData fuel (Fin m0) (Fin 0) n alpha
          testType hypothesisTestType None None None = None
        /\ PowerAnalysis.generatePowerFunctionData fuel (Fin m0) (Fin 0) n
             alpha testType hypothesisTestType None None None = None).
Proof.
  intros Hb Hs.
  unfold Statistics.generatePowerFunctionData,
    PowerAnalysis.generatePowerFunctionData.
  cbn [default]. split.
  - intros fuel. split; apply powerLoop_never_ends; assumption.
  - intros fuel m0. cbn [mul sub add neg div]. decide_R.
    split; apply powerLoop_never_ends; lra.
Qed.

Lemma power_curve_needs_a_positive_step_witness :
  (forall fuel : nat,
     Statistics.generatePowerFunctionData fuel (Fin 0) (Fin 1) (Fin 25)
       (Fin 0.05) right None (Some (Fin 0)) (Some (Fin 1))
       (Some (Fin (- 0.5))) = None
     /\ PowerAnalysis.generatePowerFunctionData fuel (Fin 0) (Fin 1) (Fin 25)
          (Fin 0.05) right None (Some (Fin 0)) (Some (Fin 1))
          (Some (Fin (- 0.5))) = None)
  /\ (forall (fuel : nat) (m0 : R),
        Statistics.generatePowerFunctionData fuel (Fin m0) (Fin 0) (Fin 25)
          (Fin 0.05) right None None None None = None
        /\ PowerAnalysis.generatePowerFunctionData fuel (Fin m0) (Fin 0)
             (Fin 25) (Fin 0.05) right None None None None = None).
Proof.
  apply (power_curve_needs_a_positive_step (Fin 0) (Fin 1) (Fin 25)
           (Fin 0.05) right None 0 1 (- 0.5)); lra.
Defined.

End PowerCurve.

(** ** Histogram *)

Section Histogram.

Import Statistics.
Local Open Scope js_scope.

Lemma passes_positive (r : R) : (1 <= r)%R -> (0 < passes (Fin r))%nat.
Proof.
  intros Hr. unfold passes, Rceil.
  rewrite <- opp_IZR, Int_part_IZR.
  pose proof (Rceil_ge r) as Hc. unfold Rceil in Hc.
  rewrite <- opp_IZR in Hc.
  assert (H1 : (1 <= - Int_part (- r))%Z) by (apply le_IZR; lra).
  lia.
Qed.

Lemma repeat_min_max (c : R) (m : nat) :
  (0 < m)%nat ->
  Math_min_list (repeat (Fin c) m) = Fin c
  /\ Math_max_list (repeat (Fin c) m) = Fin c.
Proof.
  intros Hm.
  assert (Hne : repeat c m <> []) by (destruct m; [lia | discriminate]).
  destruct (min_max_attained (repeat c m) Hne)
    as (lo & hi & El & Eh & Hl & Hh & _).
  rewrite map_repeat in El, Eh.
  apply repeat_spec in Hl, Hh. subst. split; assumption.
Qed.

(** X24: a constant sample has an empty histogram.  For a sample of one or
    more copies of the same finite number, whatever number of bins is
    asked for, [generateHistogramData] returns at least one bin and every
    bin has the count 0: the bin width is 0, so no observation is below
    the upper bound of a bin. *)
Theorem histogram_of_constant_sample_is_empty (c : R) (m : nat)
  (numBins : option nat) :
  (0 < m)%nat ->
  exists bins : list HistogramBin,
    generateHistogramData (repeat (Fin c) m) numBins = Ok bins
    /\ bins <> []
    /\ Forall (fun b => hb_value b = O /\ hb_binMin b = Fin c
                        /\ hb_binMax b = Fin c) bins.
Proof.
  intros Hm. unfold generateHistogramData.
  destruct (repeat_min_max c m Hm) as [El Eh]. rewrite El, Eh.
  replace (isEmpty (repeat (Fin c) m)) with false
    by (destruct m; [lia | reflexivity]).
  assert (Hb : exists b : R,
             (1 <= b)%R
             /\ match numBins with
                | Some (S k) => of_nat (S k)
                | _ => Math_ceil (Math_sqrt (len (repeat (Fin c) m)))
                end = Fin b).
  { assert (Hs : exists b : R,
               (1 <= b)%R
               /\ Math_ceil (Math_sqrt (len (repeat (Fin c) m))) = Fin b).
    { unfold len, of_nat. rewrite repeat_length.
      assert (H1 : (1 <= INR m)%R)
        by (change 1%R with (INR 1); apply le_INR; lia).
      rewrite Math_sqrt_nonneg by lra. cbn [Math_ceil].
      eexists. split; [| reflexivity].
      pose proof (Rceil_ge (sqrt (INR m))).
      assert (1 <= sqrt (INR m))%R
        by (rewrite <- sqrt_1; apply sqrt_le_1; lra).
      lra. }
    destruct numBins as [[|k]|]; try exact Hs.
    exists (INR (S k)). split; [| reflexivity].
    change 1%R with (INR 1). apply le_INR. lia. }
  destruct Hb as (b & Hb & ->).
  cbn [sub add neg]. rewrite div_fin by lra.
  eexists. split; [reflexivity |]. split.
  - pose proof (passes_positive b Hb) as Hp.
    destruct (passes (Fin b)); [lia | discriminate].
  - apply Forall_forall. intros bin Hin. apply in_map_iff in Hin.
    destruct Hin as (i & <- & _).
    cbn [hb_value hb_binMin hb_binMax of_nat mul add].
    replace (c + INR i * ((c + - c) / b))%R with c by (field; lra).
    replace (c + (c + - c) / b)%R with c by (field; lra).
    split; [| split; reflexivity].
    clear. induction m as [|m IH]; [reflexivity |].
    cbn [repeat filter ge le lt]. rewrite Rltb_false by lra.
    rewrite andb_false_r. exact IH.
Qed.

Lemma histogram_of_constant_sample_is_empty_witness :
  exists bins : list HistogramBin,
    generateHistogramData (repeat (Fin 7) 5) None = Ok bins
    /\ bins <> []
    /\ Forall (fun b => hb_value b = O /\ hb_binMin b = Fin 7
                        /\ hb_binMax b = Fin 7) bins.
Proof.
  apply (histogram_of_constant_sample_is_empty 7 5 None). lia.
Defined.

End Histogram.

(** ** Quantile plot *)

Section QuantilePlot.

Import Statistics.
Local Open Scope js_scope.

(** The rational approximation of the quantile at [t]. *)
Lemma normalInv_tail (t : R) :
  (0 <= t)%R ->
  Fin t - (Fin 2.515517 + Fin 0.802853 * Fin t + Fin 0.010328 * Fin t * Fin t)
          / (Fin 1 + Fin 1.432788 * Fin t + Fin 0.189269 * Fin t * Fin t
             + Fin 0.001308 * Fin t * Fin t * Fin t)
  = Fin (t - (2.515517 + 0.802853 * t + 0.010328 * t * t)
             / (1 + 1.432788 * t + 0.189269 * t * t
                + 0.001308 * t * t * t)).
Proof.
  intros Ht. cbn [mul add]. rewrite div_fin; [reflexivity |].
  assert (0 <= t * t)%R by nra. assert (0 <= t * t * t)%R by nra. nra.
Qed.

Lemma normalInv_fin (p : R) :
  (0 < p < 1)%R -> exists z : R, normalInv (Fin p) = Ok (Fin z).
Proof.
  intros Hp. unfold normalInv. cbn [le ge orb]. decide_R. cbn [orb].
  destruct (lt (Fin p) (Fin 0.5)) eqn:Eh.
  - cbn [Math_log]. decide_R. cbn [mul].
    assert (Hl : (ln p < 0)%R) by (rewrite <- ln_1; apply ln_increasing; lra).
    rewrite Math_sqrt_nonneg by lra.
    rewrite normalInv_tail by apply sqrt_pos. eexists. reflexivity.
  - cbn [sub add neg Math_log]. decide_R. cbn [mul].
    assert (Hl : (ln (1 + - p) < 0)%R)
      by (rewrite <- ln_1; apply ln_increasing; lra).
    rewrite Math_sqrt_nonneg by lra.
    rewrite normalInv_tail by apply sqrt_pos. eexists. reflexivity.
Qed.


Lemma qqLoop_normal (n : nat) (distributionParams : Estimates)
  (rest : list num) (i : nat) (qqData : list QQPoint) :
  (i + length rest <= n)%nat ->
  exists points : list QQPoint,
    qqLoop n "normal" distributionParams rest i qqData
    = Ok (qqData ++ points)
    /\ map empirical points = rest.
Proof.
  revert i qqData. induction rest as [|x rest IH]; intros i qqData Hi.
  - exists []. rewrite app_nil_r. split; reflexivity.
  - cbn [length] in Hi. cbn [qqLoop String.eqb Ascii.eqb Bool.eqb].
    unfold of_nat. cbn [add]. 
    assert (Hn : (INR i + 0.375 < INR n + 0.25 - 0.5)%R).
    { assert (H1 : (INR i + 1 <= INR n)%R).
      { rewrite <- S_INR. apply le_INR. lia. }
      lra. }
    pose proof (pos_INR i) as Hi0.
    rewrite div_fin by lra.
    assert (Hq : (0 < (INR i + 0.375) / (INR n + 0.25) < 1)%R).
    { split.
      - apply Rmult_lt_0_compat; [lra | apply Rinv_0_lt_compat; lra].
      - apply Rmult_lt_reg_r with (INR n + 0.25)%R; [lra |].
        unfold Rdiv. rewrite Rmult_assoc, Rinv_l by lra. lra. }
    destruct (normalInv_fin _ Hq) as [z Ez]. rewrite Ez. cbn [bind].
    destruct (IH (S i) (qqData ++ [mkQQPoint
                   (or_else (prop "mean" distributionParams) (Fin 0)
                    + Fin z * or_else (prop "std" distributionParams) (Fin 1))
                   x]) ltac:(lia)) as (points & E & Hm).
    rewrite E. eexists. rewrite <- app_assoc. split; [reflexivity |].
    cbn [app map empirical]. now rewrite Hm.
Qed.

(** X26: the normal quantile plot has one point per observation.  For a
    non-empty sample of finite numbers and the normal distribution (named
    or by default), whatever parameters are passed, [calculateQQPlotData]
    throws nothing (every plotting position lies strictly between 0 and
    1) and returns as many points as observations, whose empirical
    coordinates are the observations in ascending order; for any other
    distribution name it throws. *)
Theorem normal_quantile_plot_covers_the_sample (xs : list R)
  (distributionParams : option Estimates) :
  xs <> [] ->
  (forall distributionType : option string,
     distributionType = None \/ distributionType = Some "normal"%string ->
     exists (qqData : list QQPoint) (ys : list R),
       calculateQQPlotData (map Fin xs) distributionType distributionParams
       = Ok qqData
       /\ length qqData = length xs
       /\ map empirical qqData = map Fin ys
       /\ Permutation xs ys /\ StronglySorted Rle ys)
  /\ (forall name : string,
        name <> "normal"%string ->
        calculateQQPlotData (map Fin xs) (Some name) distributionParams
        = Throw (UnsupportedQQDistribution name)).
Proof.
  intros Hne.
  destruct (sort_fin xs) as (ys & Es & P & Hs).
  split.
  - intros distributionType Hd.
    assert (Ed : default "normal"%string distributionType = "normal"%string)
      by (destruct Hd as [->| ->]; reflexivity).
    unfold calculateQQPlotData. rewrite Ed.
    rewrite isEmpty_map_fin by exact Hne. rewrite Es.
    destruct (qqLoop_normal (length (map Fin ys))
                (default [] distributionParams) (map Fin ys) 0 [])
      as (points & E & Hm); [cbn; lia |].
    rewrite E. exists points, ys. cbn [app].
    split; [reflexivity |]. split; [| split; [exact Hm | tauto]].
    rewrite <- (length_map empirical), Hm, length_map.
    symmetry. apply Permutation_length, P.
  - intros name Hname. unfold calculateQQPlotData. cbn [default].
    rewrite isEmpty_map_fin by exact Hne. rewrite Es.
    apply String.eqb_neq in Hname.
    assert (Hys : ys <> []).
    { intros ->. apply Permutation_sym, Permutation_nil in P.
      contradiction. }
    destruct ys as [|y ys]; [contradiction |].
    cbn [map qqLoop]. rewrite Hname. reflexivity.
Qed.

Lemma normal_quantile_plot_covers_the_sample_witness :
  (forall distributionType : option string,
     distributionType = None \/ distributionType = Some "normal"%string ->
     exists (qqData : list QQPoint) (ys : list R),
       calculateQQPlotData (map Fin [3; 1; 2]%R) distributionType None
       = Ok qqData
       /\ length qqData = length [3; 1; 2]%R
       /\ map empirical qqData = map Fin ys
       /\ Permutation [3; 1; 2]%R ys /\ StronglySorted Rle ys)
  /\ (forall name : string,
        name <> "normal"%string ->
        calculateQQPlotData (map Fin [3; 1; 2]%R) (Some name) None
        = Throw (UnsupportedQQDistribution name)).
Proof.
  apply (normal_quantile_plot_covers_the_sample [3; 1; 2]%R None).
  discriminate.
Defined.

End QuantilePlot.

(** ** The Kolmogorov-Smirnov test of the goodness-of-fit module *)

Section KolmogorovSmirnov.

Import GoodnessOfFit.
Local Open Scope js_scope.

Lemma insert_sorted_length (x : num) (l : list num) :
  length (Statistics.insert_sorted x l) = S (length l).
Proof.
  induction l as [|y l IH]; cbn [Statistics.insert_sorted length];
    [reflexivity |].
  destruct (le x y); cbn [length]; [reflexivity | now rewrite IH].
Qed.

Lemma sort_length (data : list num) :
  length (Statistics.sort data) = length data.
Proof.
  induction data as [|x data IH]; [reflexivity |].
  unfold Statistics.sort in *. cbn [fold_right length].
  now rewrite insert_sorted_length, IH.
Qed.

(** X27: the Kolmogorov-Smirnov test of the goodness-of-fit module fails on
    every sample of two or more observations.  Its loop stores the
    number [theoreticalCDF(x)] in [theoCDF] and, from the second
    observation on, calls [theoCDF(x)]: for each of the supported
    distributions (normal, uniform, exponential), all parameters and all
    samples of two or more numbers, [calculateKolmogorovSmirnovTest]
    throws that type error and returns no statistic; for another
    distribution name it throws the unsupported-distribution error. *)
Theorem kolmogorov_smirnov_fails_from_two_observations (data : list num)
  (distributionType : string) (parameters : Parameters) :
  (2 <= length data)%nat ->
  (In distributionType ["normal"; "uniform"; "exponential"]%string ->
   calculateKolmogorovSmirnovTest data distributionType parameters
   = Throw NotAFunctionError)
  /\ (~ In distributionType ["normal"; "uniform"; "exponential"]%string ->
      calculateKolmogorovSmirnovTest data distributionType parameters
      = Throw (UnsupportedDistribution distributionType)).
Proof.
  intros Hn. pose proof (sort_length data) as Hl.
  unfold calculateKolmogorovSmirnovTest.
  destruct (Statistics.sort data) as [|x0 [|x1 rest]] eqn:Es;
    cbn [length] in Hl; try lia.
  split.
  - intros Hd.
    assert (Ok_cdf : exists F, theoreticalCDFOf data distributionType
                                 parameters = Ok F).
    { unfold theoreticalCDFOf. cbn [In] in Hd.
      destruct Hd as [<-|[<-|[<-|[]]]]; cbn [String.eqb Ascii.eqb Bool.eqb];
        eexists; reflexivity. }
    destruct Ok_cdf as [F EF]. rewrite EF. cbn [bind ksLoop Nat.ltb Nat.leb].
    reflexivity.
  - intros Hd. unfold theoreticalCDFOf. cbn [In] in Hd.
    assert (H1 : String.eqb distributionType "normal" = false)
      by (apply String.eqb_neq; intros ->; tauto).
    assert (H2 : String.eqb distributionType "uniform" = false)
      by (apply String.eqb_neq; intros ->; tauto).
    assert (H3 : String.eqb distributionType "exponential" = false)
      by (apply String.eqb_neq; intros ->; tauto).
    rewrite H1, H2, H3. reflexivity.
Qed.

Lemma kolmogorov_smirnov_fails_from_two_observations_witness :
  (In "normal"%string ["normal"; "uniform"; "exponential"]%string ->
   calculateKolmogorovSmirnovTest [Fin 1; Fin 2; Fin 3] "normal" []
   = Throw NotAFunctionError)
  /\ (~ In "normal"%string ["normal"; "uniform"; "exponential"]%string ->
      calculateKolmogorovSmirnovTest [Fin 1; Fin 2; Fin 3] "normal" []
      = Throw (UnsupportedDistribution "normal")).
Proof.
  apply (kolmogorov_smirnov_fails_from_two_observations
           [Fin 1; Fin 2; Fin 3] "normal" []).
  cbn. lia.
Defined.

End KolmogorovSmirnov.

(** ** The one-sample interval panel *)

Section Panel.

Import Statistics.
Import OneSampleMeanPanel.
Local Open Scope js_scope.

(** X28: the standard deviation entered in the one-sample panel has no
    effect.  [handleCalculate] validates the standard deviation selected
    by the toggle and then builds its sample from copies of the entered
    mean, passing no variance on: for all other inputs, valid or not, any
    two entries with a valid selected standard deviation (a number above
    0) give the same result or the same error. *)
Theorem panel_ignores_entered_deviation
  (sampleMean sampleSize confidenceLevel : num)
  (sampleStd populationStd sampleStd' populationStd' : num)
  (isPopulationStdKnown isNormal : bool) (tailType : TailType) :
  gt (if isPopulationStdKnown then populationStd else sampleStd) (Fin 0)
  = true ->
  gt (if isPopulationStdKnown then populationStd' else sampleStd') (Fin 0)
  = true ->
  handleCalculate sampleMean sampleSize sampleStd populationStd
    confidenceLevel isPopulationStdKnown isNormal tailType
  = handleCalculate sampleMean sampleSize sampleStd' populationStd'
      confidenceLevel isPopulationStdKnown isNormal tailType.
Proof.
  intros H H'.
  assert (V : forall std : num,
             gt std (Fin 0) = true ->
             isNaN std = false /\ le std (Fin 0) = false).
  { intros [x | | |] Hx; cbn in Hx; try discriminate;
      (split; [reflexivity |]); cbn [le]; [| reflexivity].
    apply Rltb_spec in Hx. apply Rleb_false, Hx. }
  destruct (V _ H) as [N1 L1]. destruct (V _ H') as [N2 L2].
  unfold handleCalculate. rewrite N1, N2, L1, L2. reflexivity.
Qed.

Lemma panel_ignores_entered_deviation_witness :
  handleCalculate (Fin 10) (Fin 5) (Fin 2) NaN (Fin 0.95) false true
    two_tailed
  = handleCalculate (Fin 10) (Fin 5) (Fin 7) (Fin 3) (Fin 0.95) false true
      two_tailed.
Proof.
  apply (panel_ignores_entered_deviation (Fin 10) (Fin 5) (Fin 0.95)
           (Fin 2) NaN (Fin 7) (Fin 3) false true two_tailed);
    cbn [gt lt]; apply Rltb_true; lra.
Defined.

End Panel.

(** ** Tests and their companion intervals *)

Section TestDuality.

Import Statistics.
Local Open Scope js_scope.

(** The absolute deviation reaches the margin exactly outside the open
    interval. *)
Lemma outside_interval (m mu0 c se : R) :
  (0 < se)%R ->
  (c <= Rabs ((m + - mu0) / se))%R
  <-> (mu0 <= m + - (c * se))%R \/ (m + c * se <= mu0)%R.
Proof.
  intros Hse.
  assert (E : ((m + - mu0) / se * se = m + - mu0)%R) by (field; lra).
  assert (Hiff : forall a b : R, (a <= b)%R <-> (a * se <= b * se)%R).
  { intros a b. split; intros H.
    - apply Rmult_le_compat_r; lra.
    - apply Rmult_le_reg_r with se; assumption. }
  assert (Hlt : forall a : R, (a < 0)%R -> (a * se < 0)%R).
  { intros a Ha. replace 0%R with (0 * se)%R by lra.
    apply Rmult_lt_compat_r; assumption. }
  assert (Hge : forall a : R, (0 <= a)%R -> (0 <= a * se)%R).
  { intros a Ha. apply Rmult_le_pos; lra. }
  unfold Rabs. destruct (Rcase_abs ((m + - mu0) / se)) as [Hn|Hp].
  - pose proof (Hlt _ Hn) as Hd. rewrite Hiff.
    replace (- ((m + - mu0) / se) * se)%R
      with (- ((m + - mu0) / se * se))%R by lra.
    rewrite E in *. split; [intros H; right; lra | intros [H|H]; lra].
  - apply Rge_le in Hp. pose proof (Hge _ Hp) as Hd. rewrite Hiff.
    rewrite E in *. split; [intros H; left; lra | intros [H|H]; lra].
Qed.

Lemma sample_mean_fin (xs : list R) :
  xs <> [] ->
  calculateMean (map Fin xs) = Ok (Fin (Rmean xs))
  /\ Math_sqrt (len (map Fin xs)) = Fin (sqrt (INR (length xs)))
  /\ (0 < sqrt (INR (length xs)))%R.
Proof.
  intros Hne. split; [apply calculateMean_fin, Hne |].
  destruct (Math_sqrt_len (map Fin xs) (map_fin_nonempty xs Hne)) as [E H].
  rewrite length_map in E, H. tauto.
Qed.

(** X29: the two-sided z test rejects outside its interval and only
    there.  For a non-empty sample of finite numbers of magnitude at most
    [1e100], [1e-100 <= sigma <= 1e100] and a level at which the critical
    value is finite, the two-sided [performZTest] returns the companion
    interval [[lo, hi]] around the sample mean, rejects the null
    hypothesis whenever [mu0] lies outside it and does not reject
    whenever [mu0] lies inside it, in both cases by more than the guard
    [1e-9 * (|lo| + |hi|)].  The guard leaves room for the rounding of
    the statistic and of the bounds: within it of a bound the decision
    can go either way. *)
Theorem z_test_rejects_outside_its_interval (xs : list R)
  (mu0 sigma alpha c : R) :
  xs <> [] -> Forall (fun x => Rabs x <= 1e100)%R xs ->
  (1e-100 <= sigma <= 1e100)%R ->
  Math_sqrt (Fin 2)
  * inverseErrorFunction (Fin 2 * (Fin 1 - Fin alpha / Fin 2) - Fin 1)
  = Fin c ->
  exists (r : ZTestResult) (lo hi : R),
    performZTest (map Fin xs) (Fin mu0) (Fin sigma) (Fin alpha) two = Ok r
    /\ z_confidenceInterval r = Some (mkInterval (Fin lo) (Fin hi))
    /\ lo = (Rmean xs - c * (sigma / sqrt (INR (length xs))))%R
    /\ hi = (Rmean xs + c * (sigma / sqrt (INR (length xs))))%R
    /\ ((mu0 <= lo - 1e-9 * (Rabs lo + Rabs hi))%R
        \/ (hi + 1e-9 * (Rabs lo + Rabs hi) <= mu0)%R ->
        z_rejected r = true)
    /\ ((lo + 1e-9 * (Rabs lo + Rabs hi) < mu0)%R
        /\ (mu0 < hi - 1e-9 * (Rabs lo + Rabs hi))%R ->
        z_rejected r = false).
Proof.
  intros Hne _ [Hs' _] Ec.
  assert (Hs : (0 < sigma)%R) by lra.
  destruct (sample_mean_fin xs Hne) as (Em & Esn & Hsn).
  assert (Hse : (0 < sigma / sqrt (INR (length xs)))%R)
    by (apply Rmult_lt_0_compat; [lra | apply Rinv_0_lt_compat, Hsn]).
  unfold performZTest. rewrite isEmpty_map_fin by exact Hne.
  rewrite Em. cbn [bind]. rewrite Esn, (div_fin sigma) by lra.
  rewrite Ec. cbn [sub add neg]. rewrite div_fin by lra.
  do 3 eexists. split; [reflexivity |].
  cbn [z_confidenceInterval z_rejected companionInterval rejectionDecision
       Math_abs mul sub add neg ge le].
  split; [reflexivity |]. split; [unfold Rminus; reflexivity |].
  split; [reflexivity |].
  pose proof (outside_interval (Rmean xs) mu0 c _ Hse) as O.
  set (lo := (Rmean xs + - (c * (sigma / sqrt (INR (length xs)))))%R) in *.
  set (hi := (Rmean xs + c * (sigma / sqrt (INR (length xs))))%R) in *.
  pose proof (Rabs_pos lo). pose proof (Rabs_pos hi).
  split.
  - intros Hout. apply Rleb_spec, O. lra.
  - intros [Hl Hh]. apply Rleb_false. apply Rnot_le_lt. intros Hc.
    apply O in Hc. lra.
Qed.

Lemma z_test_rejects_outside_its_interval_witness :
  exists (r : ZTestResult) (lo hi : R),
    performZTest (map Fin [1; 2; 3]%R) (Fin 0) (Fin 1) (Fin 0.1) two = Ok r
    /\ z_confidenceInterval r = Some (mkInterval (Fin lo) (Fin hi))
    /\ lo = (Rmean [1; 2; 3]%R
             - sqrt 2 * sqrt (sqrtArgOf 0.9)
               * (1 / sqrt (INR (length [1; 2; 3]%R))))%R
    /\ hi = (Rmean [1; 2; 3]%R
             + sqrt 2 * sqrt (sqrtArgOf 0.9)
               * (1 / sqrt (INR (length [1; 2; 3]%R))))%R
    /\ ((0 <= lo - 1e-9 * (Rabs lo + Rabs hi))%R
        \/ (hi + 1e-9 * (Rabs lo + Rabs hi) <= 0)%R ->
        z_rejected r = true)
    /\ ((lo + 1e-9 * (Rabs lo + Rabs hi) < 0)%R
        /\ (0 < hi - 1e-9 * (Rabs lo + Rabs hi))%R ->
        z_rejected r = false).
Proof.
  apply (z_test_rejects_outside_its_interval [1; 2; 3]%R 0 1 0.1
           (sqrt 2 * sqrt (sqrtArgOf 0.9))); [discriminate | | lra |].
  - repeat (constructor; [rewrite Rabs_right; lra |]). constructor.
  - cbn [sub add neg mul div]. decide_R. cbn [sub add neg mul].
    replace (2 * (1 + - (0.1 / 2)) + - (1))%R with 0.9%R by lra.
    rewrite inverseErrorFunction_inside by (rewrite Rabs_right; lra).
    rewrite Rabs_right by lra. rewrite Math_sqrt_2.
    rewrite Math_sqrt_nonneg by (left; apply sqrtArgOf_09_pos).
    destruct (Rle_dec 0 0.9) as [_|n]; [| lra].
    cbn [mul]. f_equal. lra.
Defined.

(** X30: the two-sided t test rejects outside its interval and only
    there.  For a sample of finite numbers of magnitude at most [1e100]
    with a positive variance and every finite [alpha], the two-sided
    [performTTest] returns a companion interval [[lo, hi]] with
    [lo <= hi], rejects the null hypothesis whenever [mu0] lies outside
    it and does not reject whenever [mu0] lies inside it, in both cases
    by more than the guard [1e-9 * (|lo| + |hi|)], which leaves room for
    the rounding of the statistic and of the bounds. *)
Theorem t_test_rejects_outside_its_interval (xs : list R) (mu0 alpha : R) :
  xs <> [] -> Forall (fun x => Rabs x <= 1e100)%R xs ->
  (0 < Rvariance xs)%R ->
  exists (r : TTestResult) (lo hi : R),
    performTTest (map Fin xs) (Fin mu0) (Fin alpha) two = Ok r
    /\ t_confidenceInterval r = Some (mkInterval (Fin lo) (Fin hi))
    /\ (lo <= hi)%R
    /\ ((mu0 <= lo - 1e-9 * (Rabs lo + Rabs hi))%R
        \/ (hi + 1e-9 * (Rabs lo + Rabs hi) <= mu0)%R ->
        t_rejected r = true)
    /\ ((lo + 1e-9 * (Rabs lo + Rabs hi) < mu0)%R
        /\ (mu0 < hi - 1e-9 * (Rabs lo + Rabs hi))%R ->
        t_rejected r = false).
Proof.
  intros Hne _ Hv.
  destruct (sample_mean_fin xs Hne) as (Em & Esn & Hsn).
  assert (Hsd : (0 < sqrt (Rvariance xs))%R) by (apply sqrt_lt_R0, Hv).
  assert (Hse : (0 < sqrt (Rvariance xs) / sqrt (INR (length xs)))%R)
    by (apply Rmult_lt_0_compat; [lra | apply Rinv_0_lt_compat, Hsn]).
  unfold performTTest. rewrite isEmpty_map_fin by exact Hne.
  rewrite Em, (calculateStd_fin xs Hne). cbn [bind].
  rewrite Esn, (div_fin (sqrt (Rvariance xs))) by lra.
  destruct (getApproximateTCriticalValue_fin
              (Z.of_nat (length (map Fin xs)) - 1)
              (Fin 1 - Fin alpha / Fin 2)) as (c & Ec & Hc).
  rewrite Ec. cbn [sub add neg]. rewrite div_fin by lra.
  do 3 eexists. split; [reflexivity |].
  cbn [t_confidenceInterval t_rejected companionInterval rejectionDecision
       Math_abs mul sub add neg ge le].
  split; [reflexivity |].
  assert (Hm : (0 < c * (sqrt (Rvariance xs) / sqrt (INR (length xs))))%R)
    by (apply Rmult_lt_0_compat; lra).
  pose proof (outside_interval (Rmean xs) mu0 c _ Hse) as O.
  set (lo := (Rmean xs
              + - (c * (sqrt (Rvariance xs) / sqrt (INR (length xs)))))%R)
    in *.
  set (hi := (Rmean xs
              + c * (sqrt (Rvariance xs) / sqrt (INR (length xs))))%R) in *.
  pose proof (Rabs_pos lo). pose proof (Rabs_pos hi).
  split; [unfold lo, hi; lra |]. split.
  - intros Hout. apply Rleb_spec, O. lra.
  - intros [Hl Hh]. apply Rleb_false. apply Rnot_le_lt. intros Hle.
    apply O in Hle. lra.
Qed.

Lemma t_test_rejects_outside_its_interval_witness :
  exists (r : TTestResult) (lo hi : R),
    performTTest (map Fin [0; 0; 2; 2]%R) (Fin 0) (Fin 0.05) two = Ok r
    /\ t_confidenceInterval r = Some (mkInterval (Fin lo) (Fin hi))
    /\ (lo <= hi)%R
    /\ ((0 <= lo - 1e-9 * (Rabs lo + Rabs hi))%R
        \/ (hi + 1e-9 * (Rabs lo + Rabs hi) <= 0)%R ->
        t_rejected r = true)
    /\ ((lo + 1e-9 * (Rabs lo + Rabs hi) < 0)%R
        /\ (0 < hi - 1e-9 * (Rabs lo + Rabs hi))%R ->
        t_rejected r = false).
Proof.
  apply (t_test_rejects_outside_its_interval [0; 0; 2; 2]%R 0 0.05);
    [discriminate | | rewrite Rvariance_0022; lra].
  repeat (constructor; [rewrite Rabs_right; lra |]). constructor.
Defined.

End TestDuality.
